(** * Codebook features: a shallow embedding of [codebook_features/models.py]

    The development follows the classes of the source file, one module per
    class:

    - [Torch]: the few tensor operations the source calls ([matmul], [cdist],
      [argmax], [argmin], [embedding], [softmax], [einsum], reductions);
    - [BaseSnapFunction], [InnerProductSnapFunction], [EuclideanSnapFunction];
    - [CodebookLayer] with its usage [Counter];
    - [TransformerLayerWrapper];
    - [CodebookModel] and its two concrete subclasses;
    - [KmeansEmbedding];
    - [ToyGraph], the automaton of [train_toy_model.py].

    Tensors of floating-point numbers are idealised as nested lists of real
    numbers: a tensor of shape (batch, positions, dim) is a list of [batch]
    lists of [positions] vectors of length [dim].  The scores of a snap are
    therefore exact, where the library rounds them; what is proved about the
    selection is stated on the score tensor, and holds whatever its entries
    are.  [matmul] and [cdist] raise on operands of different widths, as the
    library does.  Python exceptions are the constructors of [exn]; code that
    mutates an object the caller keeps is a computation in the monad [M].
    Random draws ([nn.Embedding]'s initial weights, [torch.rand]) are
    functions from positions to numbers that the caller of the model
    supplies. *)

From Stdlib Require Import ZArith List Reals Lra Lia.
From stdpp Require Import base option list sorting gmap strings.

(** [map] is the list instance of [fmap]. *)
Abbreviation map := (@fmap list list_fmap).

(** ** Exceptions and the state-and-exception monad *)

Inductive exn : Set :=
| AssertionError
| ValueError
| IndexError
| RuntimeError
| AttributeError.

Inductive outcome (A : Type) : Type :=
| Ok (a : A)
| Raise (e : exn).
Arguments Ok {A} a.
Arguments Raise {A} e.

(** A computation over a mutable object of type [S]: it returns the object as
    it is when the computation ends, normally or by an exception. *)
Definition M (S A : Type) : Type := S -> S * outcome A.

#[global] Instance M_ret {S} : MRet (M S) := fun A a s => (s, Ok a).
#[global] Instance M_bind {S} : MBind (M S) := fun A B k m s =>
  match m s with
  | (s', Ok a) => k a s'
  | (s', Raise e) => (s', Raise e)
  end.

Definition raise {S A} (e : exn) : M S A := fun s => (s, Raise e).
Definition get {S} : M S S := fun s => (s, Ok s).
Definition modify {S} (f : S -> S) : M S unit := fun s => (f s, Ok tt).
Definition lift {S A} (o : outcome A) : M S A := fun s => (s, o).

(** The exception-only fragment, for code that mutates nothing shared. *)
#[global] Instance outcome_ret : MRet outcome := fun A a => Ok a.
#[global] Instance outcome_bind : MBind outcome := fun A B k o =>
  match o with
  | Ok a => k a
  | Raise e => Raise e
  end.
#[global] Instance outcome_fmap : FMap outcome := fun A B f o =>
  match o with
  | Ok a => Ok (f a)
  | Raise e => Raise e
  end.

(** ** Tensor operations *)

Module Torch.

Local Open Scope R_scope.

Abbreviation Vector := (list R).
Abbreviation Matrix := (list (list R)).
Abbreviation Tensor3 := (list (list (list R))).

(** Shapes.  [shape2 n d m]: [m] has shape (n, d); [shape3 b p d x]: [x]
    has shape (b, p, d). *)
Definition shape2 (n d : nat) (m : Matrix) : Prop :=
  length m = n /\ Forall (fun r => length r = d) m.
Definition shape3 (b p d : nat) (x : Tensor3) : Prop :=
  length x = b /\ Forall (shape2 p d) x.

Definition sum (v : list R) : R := foldr Rplus 0 v.

Definition zeros (d : nat) : Vector := replicate d 0.

(** The last axes of [inputs] and [codebook] have one size: every vector of
    [inputs] is as long as every row of [codebook].  (A nested list without
    vectors, or without rows, stands for a tensor of any width.) *)
Definition same_width (inputs : Tensor3) (codebook : Matrix) : Prop :=
  Forall (Forall (fun v => Forall (fun c => length v = length c) codebook)) inputs.

(** Inner product of two vectors of the same length. *)
Definition dot (u v : Vector) : R := sum (zip_with Rmult u v).

(** [torch.matmul(inputs, codebook.T)]: one score per position and code; it
    raises when the widths differ. *)
Definition matmul_T (inputs : Tensor3) (codebook : Matrix) : outcome Tensor3 :=
  if decide (same_width inputs codebook)
  then Ok (map (map (fun v => map (fun c => dot v c) codebook)) inputs)
  else Raise RuntimeError.

(** Euclidean distance of two vectors of the same length. *)
Definition dist (u v : Vector) : R :=
  sqrt (sum (zip_with (fun a b => (a - b) * (a - b)) u v)).

(** [torch.cdist(inputs, codebook, p=2)]; it raises when the widths
    differ. *)
Definition cdist (inputs : Tensor3) (codebook : Matrix) : outcome Tensor3 :=
  if decide (same_width inputs codebook)
  then Ok (map (map (fun v => map (fun c => dist v c) codebook)) inputs)
  else Raise RuntimeError.

#[global] Instance Rlt_decision : RelDecision Rlt := Rlt_dec.

(** Scan for the best entry, keeping the first one among equals:
    [best] at index [bi] is the best seen so far, [i] is the index of the
    head of [l]. *)
Fixpoint scan (better : R -> R -> bool) (best : R) (bi i : nat)
    (l : list R) : nat :=
  match l with
  | [] => bi
  | x :: l' =>
      if better x best then scan better x i (S i) l'
      else scan better best bi (S i) l'
  end.

Definition gtb (x y : R) : bool := bool_decide (y < x).
Definition ltb (x y : R) : bool := bool_decide (x < y).

(** [argmax] and [argmin] of a vector; they raise on an empty one. *)
Definition argmax1 (l : list R) : outcome nat :=
  match l with
  | [] => Raise IndexError
  | x :: l' => Ok (scan gtb x 0%nat 1%nat l')
  end.
Definition argmin1 (l : list R) : outcome nat :=
  match l with
  | [] => Raise IndexError
  | x :: l' => Ok (scan ltb x 0%nat 1%nat l')
  end.

(** Map a fallible function over a list, left to right. *)
Fixpoint traverse {A B} (f : A -> outcome B) (l : list A) : outcome (list B) :=
  match l with
  | [] => Ok []
  | a :: l' => b ← f a; bs ← traverse f l'; mret (b :: bs)
  end.

(** [t.argmax(-1)] and [t.argmin(-1)] on a tensor of rank 3 whose last axis
    has size [last]: a reduction over an axis of size zero raises, whatever
    the other sizes are. *)
Definition argmax (last : nat) (t : Tensor3) : outcome (list (list nat)) :=
  if decide (last = 0%nat) then Raise IndexError
  else traverse (traverse argmax1) t.
Definition argmin (last : nat) (t : Tensor3) : outcome (list (list nat)) :=
  if decide (last = 0%nat) then Raise IndexError
  else traverse (traverse argmin1) t.

(** [torch.nn.functional.embedding(ids, codebook)]: row lookup. *)
Definition row (codebook : Matrix) (i : nat) : Vector :=
  default [] (codebook !! i).
Definition embedding (ids : list (list nat)) (codebook : Matrix) : Tensor3 :=
  map (map (row codebook)) ids.

(** [torch.nn.functional.softmax(logits, dim=-1)] on one vector. *)
Definition softmax1 (l : list R) : list R :=
  let e := map exp l in map (fun a => a / sum e) e.
Definition softmax (t : Tensor3) : Tensor3 := map (map softmax1) t.

(** Sum of the rows of a matrix with [d] columns: [m.sum(-2)]. *)
Definition sum_rows (d : nat) (m : Matrix) : Vector :=
  foldr (zip_with Rplus) (zeros d) m.

(** [w.unsqueeze(-1) * codebook.unsqueeze(0)] at one position:
    row [c] of the codebook scaled by weight [c]. *)
Definition scale_rows (w : list R) (codebook : Matrix) : Matrix :=
  zip_with (fun a r => map (Rmult a) r) w codebook.

(** [torch.einsum("uc,cd->ud", weights, codebook)] for a codebook with
    [d] columns. *)
Definition einsum_uc_cd (d : nat) (weights codebook : Matrix) : Matrix :=
  map (fun w => sum_rows d (scale_rows w codebook)) weights.

(** [m.sum(1, keepdim=True)] then the broadcast division [m / s]. *)
Definition normalize_rows (m : Matrix) : Matrix :=
  map (fun r => map (fun a => a / sum r) r) m.

(** A tensor filled entry by entry, as [torch.rand(shape)] fills one from
    its generator. *)
Definition tabulate {A} (n : nat) (f : nat -> A) : list A := map f (seq 0 n).

(** A parameter: a tensor and its [requires_grad] flag. *)
Record Param (T : Type) : Type := { data : T; requires_grad : bool }.
Arguments data {T} _.
Arguments requires_grad {T} _.
Definition set_requires_grad {T} (b : bool) (p : Param T) : Param T :=
  {| data := data p; requires_grad := b |}.

(** The result of [embedding] computed under [torch.enable_grad()]: its
    value, and the lookup that is its [grad_fn]. *)
Record Looked : Type := { value : Tensor3; lookup_ids : list (list nat) }.

(** Vector-Jacobian product of the row lookup: the incoming gradient of
    each position is added to the row that position selected. *)
Definition zeros_like (m : Matrix) : Matrix := map (map (fun _ => 0)) m.
Definition scatter_add (m : Matrix) (ids : list nat) (g : list Vector) : Matrix :=
  foldl (fun acc ig => alter (zip_with Rplus ig.2) ig.1 acc)
        (zeros_like m) (zip ids g).

(** [torch.autograd.grad(output, codebook, grad_outputs)[0]] for an
    [output] that was looked up in [codebook]; it raises when the codebook
    takes no part in the graph. *)
Definition autograd_grad (output : Looked) (codebook : Param Matrix)
    (grad_outputs : Tensor3) : outcome Matrix :=
  if requires_grad codebook
  then Ok (scatter_add (data codebook)
             (concat (lookup_ids output)) (concat grad_outputs))
  else Raise RuntimeError.

End Torch.

Import Torch.

(** ** The snap functions *)

(** What [ctx.save_for_backward(codebook, outputs)] keeps. *)
Record Ctx : Type := { saved_codebook : Param Matrix; saved_outputs : Looked }.

Module BaseSnapFunction.

(** [backward(ctx, grad_outputs, grad_codebook_ids)] *)
Definition backward (ctx : Ctx) (grad_outputs : Tensor3)
    (grad_codebook_ids : option (list (list R))) : outcome (Tensor3 * Matrix) :=
  let codebook := saved_codebook ctx in
  let output := saved_outputs ctx in
  grad_codebook ← autograd_grad output codebook grad_outputs;
  (* straight through estimator *)
  mret (grad_outputs, grad_codebook).

End BaseSnapFunction.

Module InnerProductSnapFunction.

Definition forward (inputs : Tensor3) (codebook : Param Matrix)
    : outcome (Ctx * (Tensor3 * list (list nat))) :=
  logits ← matmul_T inputs (data codebook);
  codebook_ids ← argmax (length (data codebook)) logits;
  let outputs := embedding codebook_ids (data codebook) in
  let ctx := {| saved_codebook := codebook;
                saved_outputs := {| value := outputs; lookup_ids := codebook_ids |} |} in
  mret (ctx, (outputs, codebook_ids)).

Definition backward := BaseSnapFunction.backward.

End InnerProductSnapFunction.

Module EuclideanSnapFunction.

Definition forward (inputs : Tensor3) (codebook : Param Matrix)
    : outcome (Ctx * (Tensor3 * list (list nat))) :=
  logits ← cdist inputs (data codebook);
  codebook_ids ← argmin (length (data codebook)) logits;
  let outputs := embedding codebook_ids (data codebook) in
  let ctx := {| saved_codebook := codebook;
                saved_outputs := {| value := outputs; lookup_ids := codebook_ids |} |} in
  mret (ctx, (outputs, codebook_ids)).

Definition backward := BaseSnapFunction.backward.

End EuclideanSnapFunction.

(** The two classes a [snap_fn] argument can be. *)
Inductive SnapFunction : Set :=
| EuclideanSnapFunction_cls
| InnerProductSnapFunction_cls.

(** [snap_fn.apply(x, weight)]: the forward of the class, without the
    context that autograd keeps for itself. *)
Definition apply (snap_fn : SnapFunction) (x : Tensor3) (weight : Param Matrix)
    : outcome (Tensor3 * list (list nat)) :=
  match snap_fn with
  | EuclideanSnapFunction_cls => snd <$> EuclideanSnapFunction.forward x weight
  | InnerProductSnapFunction_cls => snd <$> InnerProductSnapFunction.forward x weight
  end.

(** ** The codebook layer *)

(** [collections.Counter]: a missing key counts as zero. *)
Module Counter.

Definition count (c : gmap nat Z) (i : nat) : Z := default 0%Z (c !! i).

(** [c.update(iterable)] *)
Definition update (c : gmap nat Z) (l : list nat) : gmap nat Z :=
  foldl (fun c i => <[i := (count c i + 1)%Z]> c) c l.

End Counter.

Module CodebookLayer.

Local Open Scope R_scope.

Record t : Type := {
  codebook : Param Matrix;   (* [self.codebook.weight] *)
  dim : nat;                 (* [self.codebook.embedding_dim] *)
  num_codes : nat;
  counts : gmap nat Z;
  soft_snap : bool;
  snap_fn : SnapFunction
}.

Definition set_codebook (w : Param Matrix) (self : t) : t :=
  {| codebook := w; dim := dim self; num_codes := num_codes self;
     counts := counts self; soft_snap := soft_snap self;
     snap_fn := snap_fn self |}.
Definition set_counts (c : gmap nat Z) (self : t) : t :=
  {| codebook := codebook self; dim := dim self; num_codes := num_codes self;
     counts := c; soft_snap := soft_snap self; snap_fn := snap_fn self |}.

(** [__init__(dim, num_codes, soft_snap=False, snap_fn=EuclideanSnapFunction)];
    [init r c] is the entry that [nn.Embedding] draws for row [r], column
    [c]. *)
Definition __init__ (init : nat -> nat -> R) (dim num_codes : nat)
    (soft_snap : bool) (snap_fn : SnapFunction) : t :=
  {| codebook := {| data := tabulate num_codes (fun r => tabulate dim (init r));
                    requires_grad := true |};
     dim := dim; num_codes := num_codes; counts := ∅;
     soft_snap := soft_snap; snap_fn := snap_fn |}.

(** The soft average of the codebook at every position. *)
Definition soft_output (d : nat) (x : Tensor3) (weight : Matrix) : outcome Tensor3 :=
  logits ← matmul_T x weight;
  let codebook_weights := softmax logits in
  (* [codebook_weights.unsqueeze(-1) * weight.unsqueeze(0)] *)
  let output := map (map (fun w => scale_rows w weight)) codebook_weights in
  (* [output.sum(-2)] *)
  mret (map (map (sum_rows d)) output).

(** [forward(x)] for [x] of rank 3 *)
Definition forward (x : Tensor3) : M t Tensor3 :=
  self ← get;
  if negb (soft_snap self) then
    '(output, codebook_ids) ← lift (apply (snap_fn self) x (codebook self));
    modify (set_counts (Counter.update (counts self) (concat codebook_ids)));;
    mret output
  else
    lift (soft_output (dim self) x (data (codebook self))).

(** The loop that collects the underused codes. *)
Definition underused (self : t) (threshold : Z) : gset nat :=
  foldl (fun acc i =>
           if match counts self !! i with
              | None => true
              | Some c => bool_decide (c < threshold)%Z
              end
           then acc ∪ {[ i ]} else acc)
        ∅ (seq 0 (length (data (codebook self)))).

(** [weight[idx] = rows] for an index tensor built from a Python list: the
    tensor of an empty list is a float tensor and cannot index. *)
Definition index_put (weight : Matrix) (idx : list nat) (rows : Matrix)
    : outcome Matrix :=
  match idx with
  | [] => Raise IndexError
  | _ =>
      if forallb (fun i => bool_decide (i < length weight)%nat) idx
      then Ok (foldl (fun w ir => <[ir.1 := ir.2]> w) weight (zip idx rows))
      else Raise IndexError
  end.

(** [expire_codes(threshold)]; [rand u c] is the entry that [torch.rand]
    draws for row [u], column [c]. *)
Definition expire_codes (rand : nat -> nat -> R) (threshold : Z) : M t unit :=
  self ← get;
  let weight := data (codebook self) in
  let underused_codes := underused self threshold in
  let weights := tabulate (size underused_codes)
                   (fun u => tabulate (length weight) (rand u)) in
  let weights := normalize_rows weights in
  let new_codes := einsum_uc_cd (dim self) weights weight in
  let underused_codes := elements underused_codes in
  match index_put weight underused_codes new_codes with
  | Ok w =>
      modify (set_codebook {| data := w;
                              requires_grad := requires_grad (codebook self) |})
  | Raise IndexError => mret tt
  | Raise e => raise e
  end.

End CodebookLayer.

(** ** Backbone layers and the wrapper *)

(** One element of the tuple a transformer layer returns: the activations,
    a tensor of rank 3; a tensor of another rank (attention weights); or a
    value that is no tensor and has no [shape] ([None], a tuple of caches). *)
Inductive Output (Aux : Type) : Type :=
| Act (h : Tensor3)
| OtherRank (a : Aux)
| Other (a : Aux).
Arguments Act {Aux} h.
Arguments OtherRank {Aux} a.
Arguments Other {Aux} a.

(** A layer of the pretrained backbone: opaque but for its forward function
    and its parameters. *)
Record Layer (Args Aux : Type) : Type := {
  layer_forward : Args -> outcome (list (Output Aux));
  layer_parameters : list (Param (list R))
}.
Arguments layer_forward {Args Aux} _ _.
Arguments layer_parameters {Args Aux} _.

(** Run a computation on one field of the object. *)
Definition zoom {S T A} (field : S -> T) (set : T -> S -> S) (m : M T A) : M S A :=
  fun s => let '(t', r) := m (field s) in (set t' s, r).

Module TransformerLayerWrapper.
Section Wrapper.
Context {Args Aux Inner : Type}.
(** How the wrapped module is called: [self.transformer_layer( *args )]. *)
Variable call_inner : Args -> M Inner (list (Output Aux)).

Record t : Type := {
  transformer_layer : Inner;
  codebook_layer : CodebookLayer.t;
  snap : bool
}.

Definition set_transformer_layer (l : Inner) (self : t) : t :=
  {| transformer_layer := l; codebook_layer := codebook_layer self;
     snap := snap self |}.
Definition set_codebook_layer (c : CodebookLayer.t) (self : t) : t :=
  {| transformer_layer := transformer_layer self; codebook_layer := c;
     snap := snap self |}.
Definition set_snap (b : bool) (self : t) : t :=
  {| transformer_layer := transformer_layer self;
     codebook_layer := codebook_layer self; snap := b |}.

Definition __init__ (init : nat -> nat -> R) (transformer_layer : Inner)
    (dim num_codes : nat) (snap_fn : SnapFunction) : t :=
  {| transformer_layer := transformer_layer;
     codebook_layer := CodebookLayer.__init__ init dim num_codes false snap_fn;
     snap := true |}.

(** [self.codebook_layer(layer_outputs[0])]: indexing an empty tuple
    raises; the rank assertion fails on a tensor of another rank, and
    reading [x.shape] for it raises on a value that has no [shape]. *)
Definition snap_first (layer_outputs : list (Output Aux)) : M t Tensor3 :=
  match layer_outputs with
  | [] => raise IndexError
  | OtherRank _ :: _ => raise AssertionError
  | Other _ :: _ => raise AttributeError
  | Act h :: _ => zoom codebook_layer set_codebook_layer (CodebookLayer.forward h)
  end.

Definition forward (args : Args) : M t (list (Output Aux)) :=
  layer_outputs ← zoom transformer_layer set_transformer_layer (call_inner args);
  self ← get;
  if snap self then
    snapped_output ← snap_first layer_outputs;
    mret (Act snapped_output :: tail layer_outputs)
  else
    mret layer_outputs.
End Wrapper.
Arguments t : clear implicits.
End TransformerLayerWrapper.

(** A module in the backbone's layer list: a layer of the pretrained model,
    or a wrapper around a module. *)
#[warnings="-register-all"]
Inductive LayerModule (Args Aux : Type) : Type :=
| Plain (l : Layer Args Aux)
| Wrapped (w : TransformerLayerWrapper.t (LayerModule Args Aux)).
Arguments Plain {Args Aux} l.
Arguments Wrapped {Args Aux} w.

(** [module( *args )]: the forward function of the module's class. *)
Fixpoint call {Args Aux} (m : LayerModule Args Aux) (args : Args)
    : LayerModule Args Aux * outcome (list (Output Aux)) :=
  match m with
  | Plain l => (m, layer_forward l args)
  | Wrapped w =>
      let '(w', r) := TransformerLayerWrapper.forward (fun a inner => call inner a) args w in
      (Wrapped w', r)
  end.

(** ** The model composer *)

(** The pretrained model the caller hands over.  Both concrete subclasses
    read the same three things from it, under different attribute names: the
    layer list ([bert.encoder.layer], [transformer.h]), the layer count
    ([config.num_hidden_layers], [config.n_layer]) and [config.hidden_size]. *)
Record Backbone (Args Aux : Type) : Type := {
  other_parameters : list (Param (list R));   (* embeddings, heads, ... *)
  layer : list (LayerModule Args Aux);
  num_hidden_layers : Z;
  hidden_size : nat
}.
Arguments other_parameters {Args Aux} _.
Arguments layer {Args Aux} _.
Arguments num_hidden_layers {Args Aux} _.
Arguments hidden_size {Args Aux} _.

Section Parameters.
Context {Args Aux : Type}.

(** The [requires_grad] flags of [module.parameters()]. *)
Fixpoint module_flags (m : LayerModule Args Aux) : list bool :=
  match m with
  | Plain l => requires_grad <$> layer_parameters l
  | Wrapped w =>
      module_flags (TransformerLayerWrapper.transformer_layer w)
      ++ [requires_grad (CodebookLayer.codebook (TransformerLayerWrapper.codebook_layer w))]
  end.

Definition parameters_flags (model : Backbone Args Aux) : list bool :=
  (requires_grad <$> other_parameters model)
  ++ concat (module_flags <$> layer model).

(** [for param in module.parameters(): param.requires_grad = b] *)
Fixpoint module_set_flags (b : bool) (m : LayerModule Args Aux)
    : LayerModule Args Aux :=
  match m with
  | Plain l =>
      Plain {| layer_forward := layer_forward l;
               layer_parameters := set_requires_grad b <$> layer_parameters l |}
  | Wrapped w =>
      let c := TransformerLayerWrapper.codebook_layer w in
      Wrapped
        {| TransformerLayerWrapper.transformer_layer :=
             module_set_flags b (TransformerLayerWrapper.transformer_layer w);
           TransformerLayerWrapper.codebook_layer :=
             CodebookLayer.set_codebook
               (set_requires_grad b (CodebookLayer.codebook c)) c;
           TransformerLayerWrapper.snap := TransformerLayerWrapper.snap w |}
  end.

Definition set_flags (b : bool) (model : Backbone Args Aux) : Backbone Args Aux :=
  {| other_parameters := set_requires_grad b <$> other_parameters model;
     layer := module_set_flags b <$> layer model;
     num_hidden_layers := num_hidden_layers model;
     hidden_size := hidden_size model |}.

Definition set_layer (ls : list (LayerModule Args Aux)) (model : Backbone Args Aux)
    : Backbone Args Aux :=
  {| other_parameters := other_parameters model;
     layer := ls;
     num_hidden_layers := num_hidden_layers model;
     hidden_size := hidden_size model |}.
End Parameters.

Module CodebookModel.

(** The fields of the composer other than [self.model], which is the
    caller's backbone: the state of the monad.  The parameter groups and the
    registry hold references into the backbone; a reference is the index of
    the layer it points into. *)
Record t : Type := {
  num_codes : nat;
  layers_to_snap : list Z;
  codebook_params : list nat;
  model_params : list nat;
  all_codebooks : list nat;
  snap_fn : SnapFunction
}.

(** One round of the loop over [range(len(self.layers_to_snap))]. *)
Definition normalize_at (num_layers : Z) (l : list Z) (i : nat) : outcome (list Z) :=
  if bool_decide (- num_layers ≤ Z.of_nat i ∧ Z.of_nat i < num_layers)%Z then
    match l !! i with
    | Some v =>
        if bool_decide (v < 0)%Z then Ok (<[i := (v + num_layers)%Z]> l) else Ok l
    | None => Raise IndexError
    end
  else Raise AssertionError.

Fixpoint normalize_loop (num_layers : Z) (l : list Z) (range : list nat)
    : outcome (list Z) :=
  match range with
  | [] => Ok l
  | i :: range' => l' ← normalize_at num_layers l i; normalize_loop num_layers l' range'
  end.

(** [sorted(l)] on integers *)
Definition sorted (l : list Z) : list Z := merge_sort Z.le l.

Section Methods.
Context {Args Aux : Type}.
#[local] Abbreviation Backbone := (Backbone Args Aux).

Definition num_layers : M Backbone Z :=
  model ← get; mret (num_hidden_layers model).

Definition freeze_model_params : M Backbone unit := modify (set_flags false).
Definition unfreeze_model_params : M Backbone unit := modify (set_flags true).

Definition __init__ (num_codes : nat) (layers_to_snap : list Z)
    (similarity_metric : string) : M Backbone t :=
  n ← num_layers;
  layers_to_snap ← lift (normalize_loop n layers_to_snap
                           (seq 0 (length layers_to_snap)));
  let layers_to_snap := sorted layers_to_snap in
  freeze_model_params;;
  snap_fn ← (if decide (similarity_metric = "euclidean") then
               mret EuclideanSnapFunction_cls
             else if decide (similarity_metric = "inner_product") then
               mret InnerProductSnapFunction_cls
             else raise ValueError);
  mret {| num_codes := num_codes; layers_to_snap := layers_to_snap;
          codebook_params := []; model_params := []; all_codebooks := [];
          snap_fn := snap_fn |}.

(** [i in self.layers_to_snap] for a layer position [i] *)
Definition selected (self : t) (i : nat) : bool :=
  bool_decide (Z.of_nat i ∈ layers_to_snap self).

(** One round of the loop of [add_codebooks]; [init i] draws the initial
    codebook of layer [i]. *)
Definition add_codebook_at (init : nat -> nat -> nat -> R) (hidden : nat) (i : nat)
    (st : t * list (LayerModule Args Aux))
    : t * list (LayerModule Args Aux) :=
  let '(self, layers) := st in
  let self := {| num_codes := num_codes self;
                 layers_to_snap := layers_to_snap self;
                 codebook_params := codebook_params self;
                 model_params := model_params self ++ [i];
                 all_codebooks := all_codebooks self;
                 snap_fn := snap_fn self |} in
  if selected self i then
    match layers !! i with
    | Some m =>
        ({| num_codes := num_codes self;
            layers_to_snap := layers_to_snap self;
            codebook_params := codebook_params self ++ [i];
            model_params := model_params self;
            all_codebooks := all_codebooks self ++ [i];
            snap_fn := snap_fn self |},
         <[i := Wrapped (TransformerLayerWrapper.__init__ (init i) m hidden
                           (num_codes self) (snap_fn self))]> layers)
    | None => (self, layers)
    end
  else (self, layers).

Definition add_codebooks (init : nat -> nat -> nat -> R) (self : t) : M Backbone t :=
  model ← get;
  let '(self, layers) :=
    foldl (fun st i => add_codebook_at init (hidden_size model) i st)
          (self, layer model) (seq 0 (length (layer model))) in
  modify (set_layer layers);;
  mret self.

(** [layer.snap = b] for the selected positions *)
Definition set_snap_at (self : t) (b : bool) (i : nat) (m : LayerModule Args Aux)
    : LayerModule Args Aux :=
  if selected self i then
    match m with
    | Wrapped w => Wrapped (TransformerLayerWrapper.set_snap b w)
    | Plain l => Plain l
    end
  else m.

Definition enable_codebooks (self : t) : M Backbone unit :=
  modify (fun model => set_layer (imap (set_snap_at self true) (layer model)) model).
Definition disable_codebooks (self : t) : M Backbone unit :=
  modify (fun model => set_layer (imap (set_snap_at self false) (layer model)) model).

End Methods.
End CodebookModel.

Module BertCodebookModel.
Definition __init__ {Args Aux} (init : nat -> nat -> nat -> R) (num_codes : nat)
    (layers_to_snap : list Z) (similarity_metric : string)
    : M (Backbone Args Aux) CodebookModel.t :=
  self ← CodebookModel.__init__ num_codes layers_to_snap similarity_metric;
  CodebookModel.add_codebooks init self.
End BertCodebookModel.

Module GPT2CodebookModel.
Definition __init__ {Args Aux} (init : nat -> nat -> nat -> R) (num_codes : nat)
    (layers_to_snap : list Z) (similarity_metric : string)
    : M (Backbone Args Aux) CodebookModel.t :=
  self ← CodebookModel.__init__ num_codes layers_to_snap similarity_metric;
  CodebookModel.add_codebooks init self.
End GPT2CodebookModel.

(** ** Scenarios and reference definitions *)

(** Several forward calls in a row on one layer. *)
Fixpoint forward_each (xs : list Tensor3) : M CodebookLayer.t (list Tensor3) :=
  match xs with
  | [] => mret []
  | x :: xs' =>
      out ← CodebookLayer.forward x;
      outs ← forward_each xs';
      mret (out :: outs)
  end.

(** The codes a hard forward call on [x] selects, position by position. *)
Definition selections (self : CodebookLayer.t) (x : Tensor3) : list nat :=
  match apply (CodebookLayer.snap_fn self) x (CodebookLayer.codebook self) with
  | Ok (_, codebook_ids) => concat codebook_ids
  | Raise _ => []
  end.

(** How often [c] occurs in [l]. *)
Definition occurrences (c : nat) (l : list nat) : Z :=
  Z.of_nat (length (filter (fun i => i = c) l)).

(** How often the hard forward calls on the batches [xs] select [c]. *)
Definition total_selected (c : nat) (self : CodebookLayer.t) (xs : list Tensor3) : Z :=
  foldr Z.add 0%Z (map (fun x => occurrences c (selections self x)) xs).

(** The sum of [f 0], ..., [f (n - 1)]. *)
Definition big_sum (n : nat) (f : nat -> R) : R := Torch.sum (tabulate n f).

(** The soft-mode weights as the specification words them: the softmax over
    the codes of the dot-product scores of one input vector. *)
Definition spec_softmax_weight (v : Vector) (weight : Matrix) (c : nat) : R :=
  (exp (dot v (row weight c))
   / big_sum (length weight) (fun c' => exp (dot v (row weight c'))))%R.

(** Entry [k] of the combination of the rows of [weight] with weights [w]. *)
Definition combination (w : nat -> R) (weight : Matrix) (k : nat) : R :=
  big_sum (length weight) (fun c => (w c * nth k (row weight c) 0)%R).

(** [w] is a convex weighting of [n] codes. *)
Definition convex (n : nat) (w : nat -> R) : Prop :=
  (forall c, (c < n)%nat -> (0 <= w c)%R) /\ big_sum n w = 1%R.

(** What a snap has to deliver, relative to the scores it computed and the
    order that makes a score at least as good ([pref]) or strictly better
    ([strictly]): at every position the index is within the codebook, the
    output is the row of that index, no code has a better score than it, and
    every earlier code has a strictly worse one. *)
Definition selects_by (pref strictly : R -> R -> Prop) (scores : Tensor3)
    (weight : Matrix) (out : Tensor3) (ids : list (list nat)) : Prop :=
  forall i j sb s, scores !! i = Some sb -> sb !! j = Some s ->
    exists idb ob k m,
      ids !! i = Some idb /\ idb !! j = Some k /\ (k < length weight)%nat
      /\ out !! i = Some ob /\ ob !! j = Some (row weight k)
      /\ s !! k = Some m
      /\ (forall c y, s !! c = Some y -> pref m y)
      /\ (forall c y, (c < k)%nat -> s !! c = Some y -> strictly m y).

(** A batch of vectors of width [d]: a tensor of shape (b, p, d). *)
Definition batch_of (d : nat) (x : Tensor3) : Prop := exists b p, shape3 b p d x.

(** The test of the loop of [expire_codes]: the code has no recorded use, or
    its recorded count is below the threshold. *)
Definition is_underused (counts : gmap nat Z) (threshold : Z) (i : nat) : Prop :=
  match counts !! i with
  | None => True
  | Some c => (c < threshold)%Z
  end.

(** The normalised weights of draw [u] over [n] codes. *)
Definition drawn_weight (rand : nat -> nat -> R) (n u c : nat) : R :=
  (rand u c / big_sum n (rand u))%R.

(** The rows [expire_codes] computes before it writes them. *)
Definition new_codes (rand : nat -> nat -> R) (self : CodebookLayer.t)
    (threshold : Z) : Matrix :=
  let weight := data (CodebookLayer.codebook self) in
  einsum_uc_cd (CodebookLayer.dim self)
    (normalize_rows
       (tabulate (size (CodebookLayer.underused self threshold))
          (fun u => tabulate (length weight) (rand u))))
    weight.

(** A layer of two codes of dimension one that has seen no input. *)
Definition two_codes : CodebookLayer.t :=
  {| CodebookLayer.codebook := {| data := [[1]; [3]]%R; requires_grad := true |};
     CodebookLayer.dim := 1; CodebookLayer.num_codes := 2;
     CodebookLayer.counts := ∅; CodebookLayer.soft_snap := false;
     CodebookLayer.snap_fn := EuclideanSnapFunction_cls |}.
Definition half_draw : nat -> nat -> R := fun _ _ => (1 / 2)%R.

(** The normalisation the loop of [CodebookModel.__init__] applies to one
    index. *)
Definition norm_index (num_layers v : Z) : Z :=
  if bool_decide (v < 0)%Z then (v + num_layers)%Z else v.

(** The module [add_codebooks] leaves at position [i]. *)
Definition wrapped_at {Args Aux} (init : nat -> nat -> nat -> R) (hidden : nat)
    (self : CodebookModel.t) (i : nat) (m : LayerModule Args Aux)
    : LayerModule Args Aux :=
  if CodebookModel.selected self i then
    Wrapped (TransformerLayerWrapper.__init__ (init i) m hidden
               (CodebookModel.num_codes self) (CodebookModel.snap_fn self))
  else m.

(** A backbone of six pretrained layers, every parameter trainable. *)
Definition a_parameter : Param (list R) := {| data := []; requires_grad := true |}.
Definition a_layer : Layer unit unit :=
  {| layer_forward := fun _ => Ok [Act [[[1; 0]; [0; 1]]]; Other tt]%R;
     layer_parameters := [a_parameter] |}.
Definition six_layers : Backbone unit unit :=
  {| other_parameters := [a_parameter];
     layer := replicate 6 (Plain a_layer);
     num_hidden_layers := 6;
     hidden_size := 2 |}.
Definition no_draw : nat -> nat -> nat -> R := fun _ _ _ => 0%R.

(** ** Further reference definitions *)

(** The number of positions of a batch. *)
Definition positions (x : Tensor3) : nat := length (concat x).

(** All the codes that the hard forward calls on [xs] select, in order. *)
Definition all_selections (self : CodebookLayer.t) (xs : list Tensor3) : list nat :=
  concat (map (selections self) xs).

(** The counts of the codes [0], ..., [n - 1], added up. *)
Definition count_total (n : nat) (c : gmap nat Z) : Z :=
  foldr Z.add 0%Z (map (Counter.count c) (seq 0 n)).

(** A counter that holds codes of a codebook of [n] codes only, each with a
    positive count. *)
Definition counter_ok (n : nat) (c : gmap nat Z) : Prop :=
  forall i v, c !! i = Some v -> (i < n)%nat /\ (1 <= v)%Z.

(** Entry [k] of what the positions that selected code [c] send back: the
    sum of the entries [k] of their incoming gradients. *)
Definition routed (ids : list nat) (gs : list Vector) (c k : nat) : R :=
  Torch.sum (map (fun ig : nat * Vector =>
                    if decide (ig.1 = c) then nth k ig.2 0%R else 0%R)
                 (zip ids gs)).

(** A codebook layer with the [requires_grad] flag of its weight set. *)
Definition set_layer_flag (b : bool) (c : CodebookLayer.t) : CodebookLayer.t :=
  CodebookLayer.set_codebook (set_requires_grad b (CodebookLayer.codebook c)) c.

(** ** The k-means embedding *)

Module KmeansEmbedding.

(** A batch of data: a tensor of rank 2.  Its number of columns is kept
    beside the rows, since nested lists lose it when there are no rows. *)
Record Batch : Type := { cols : nat; rows : Matrix }.

Record t : Type := {
  weight : Param Matrix;     (* [self.weight], what the embedding looks up *)
  data : option Batch;       (* [self.data] *)
  _weight : option Matrix    (* [self._weight], absent until [initialize] *)
}.

Definition set_data (d : option Batch) (self : t) : t :=
  {| weight := weight self; data := d; _weight := _weight self |}.

(** [__init__(num_embeddings, embedding_dim)]; [init r c] is the entry that
    [nn.Embedding] draws for row [r], column [c]. *)
Definition __init__ (init : nat -> nat -> R) (num_embeddings embedding_dim : nat) : t :=
  {| weight := {| Torch.data := tabulate num_embeddings
                                  (fun r => tabulate embedding_dim (init r));
                  Torch.requires_grad := true |};
     data := None; _weight := None |}.

(** [torch.cat([a, b], dim=0)] on tensors of rank 2: the numbers of columns
    have to agree. *)
Definition cat (a b : Batch) : outcome Batch :=
  if decide (cols a = cols b)
  then Ok {| cols := cols a; rows := rows a ++ rows b |}
  else Raise RuntimeError.

(** [load_data(data)] *)
Definition load_data (batch : Batch) : M t unit :=
  self ← get;
  match data self with
  | None => modify (set_data (Some batch))
  | Some loaded =>
      both ← lift (cat loaded batch);
      modify (set_data (Some both))
  end.

(** How [initialize] can end: normally, with [AttributeError] (there is no
    [detach] on [None]), or with whatever the clustering raised. *)
Inductive ending : Type :=
| Done
| AttributeError
| Raised (e : exn).

(** [initialize(k)]; [kmeans k batch] is [KMeans(n_clusters=k).fit(batch)
    .cluster_centers_], the clustering of scikit-learn. *)
Definition initialize (kmeans : nat -> Batch -> outcome Matrix) (k : nat) (self : t)
    : t * ending :=
  match data self with
  | None => (self, AttributeError)
  | Some loaded =>
      match kmeans k loaded with
      | Ok cluster_centers_ =>
          ({| weight := weight self; data := None;
              _weight := Some cluster_centers_ |}, Done)
      | Raise e => (self, Raised e)
      end
  end.

End KmeansEmbedding.

(** Several batches loaded in a row. *)
Fixpoint load_each (batches : list KmeansEmbedding.Batch) : M KmeansEmbedding.t unit :=
  match batches with
  | [] => mret tt
  | batch :: batches' => KmeansEmbedding.load_data batch;; load_each batches'
  end.

(** ** The toy automaton ([train_toy_model.py]) *)

Module ToyGraph.

#[global] Instance R_eq_decision : EqDecision R := Req_dec_T.

(** The automaton, as far as the functions below read it: the matrix of
    transition probabilities, of shape (N, N). *)
Record t : Type := { transition_matrix : Matrix }.

(** One NumPy index on an axis of size [size]: negative indices count from
    the end, indices outside [-size, size) raise. *)
Definition np_index (size : nat) (i : Z) : outcome nat :=
  if decide (- Z.of_nat size <= i < Z.of_nat size)%Z
  then Ok (Z.to_nat (i `mod` Z.of_nat size))
  else Raise IndexError.

(** [m.shape\[1\]] of a matrix. *)
Definition ncols (m : Matrix) : nat := length (row m 0).

(** [m\[a, b\]] *)
Definition getitem2 (m : Matrix) (a b : Z) : outcome R :=
  ia ← np_index (length m) a;
  ib ← np_index (ncols m) b;
  mret (nth ib (row m ia) 0%R).

(** [np.where(v != 0)\[0\]]: the positions of the non-zero entries, in
    ascending order. *)
Definition where_nonzero (v : Vector) : list nat :=
  (filter (fun jx : nat * R => jx.2 <> 0%R) (imap pair v)).*1.

(** What [print] writes. *)
Inductive line : Type :=
| FailIndex (i : nat)      (* [print("Fail index:", i)] *)
| States (a b : Z).        (* [print(traj\[i\], traj\[i + 1\])] *)

(** The loop of [verify_trajectory] over [range(len(traj) - 1)]. *)
Fixpoint verify_loop (self : t) (traj : list Z) (range : list nat)
    : outcome (list line * bool) :=
  match range with
  | [] => Ok ([], true)
  | i :: range' =>
      match traj !! i, traj !! S i with
      | Some a, Some b =>
          x ← getitem2 (transition_matrix self) a b;
          if bool_decide (x = 0%R) then Ok ([FailIndex i; States a b], false)
          else verify_loop self traj range'
      | _, _ => Raise IndexError
      end
  end.

(** [verify_trajectory(traj)]: what it prints and what it returns. *)
Definition verify_trajectory (self : t) (traj : list Z) : outcome (list line * bool) :=
  verify_loop self traj (seq 0 (length traj - 1)).

(** [nbrs(state)] *)
Definition nbrs (self : t) (state : Z) : outcome (list nat) :=
  i ← np_index (length (transition_matrix self)) state;
  mret (where_nonzero (row (transition_matrix self) i)).

(** [nbrs_to(state)] *)
Definition nbrs_to (self : t) (state : Z) : outcome (list nat) :=
  j ← np_index (ncols (transition_matrix self)) state;
  mret (where_nonzero (map (fun r => nth j r 0%R) (transition_matrix self))).

(** How [transition_accuracy] can fail: with an exception of the indexing,
    with [traj] unbound after a loop over no trajectory, or dividing by a
    total of zero. *)
Inductive failure : Type :=
| Exn (e : exn)
| UnboundLocalError
| ZeroDivisionError.

(** The inner loop of [transition_accuracy]: the counters
    [(correct_transitions, correct_first_transitions)] after one
    trajectory. *)
Fixpoint count_loop (self : t) (traj : list Z) (range : list nat) (acc : Z * Z)
    : outcome (Z * Z) :=
  match range with
  | [] => Ok acc
  | i :: range' =>
      match traj !! i, traj !! S i with
      | Some a, Some b =>
          x ← getitem2 (transition_matrix self) a b;
          count_loop self traj range'
            (if bool_decide (x <> 0%R)
             then ((acc.1 + 1)%Z, if decide (i = 0%nat) then (acc.2 + 1)%Z else acc.2)
             else acc)
      | _, _ => Raise IndexError
      end
  end.

(** The outer loop: the three counters and the trajectory [traj] is bound to
    after the loop, if any. *)
Fixpoint accuracy_loop (self : t) (trajs : list (list Z)) (acc : Z * Z)
    (total : Z) (bound : option (list Z)) : outcome (Z * Z * Z * option (list Z)) :=
  match trajs with
  | [] => Ok (acc, total, bound)
  | traj :: trajs' =>
      let total := (total + (Z.of_nat (length traj) - 1))%Z in
      acc ← count_loop self traj (seq 0 (length traj - 1)) acc;
      accuracy_loop self trajs' acc total (Some traj)
  end.

(** [transition_accuracy(trajs)] *)
Definition transition_accuracy (self : t) (trajs : list (list Z)) : failure + R * R :=
  match accuracy_loop self trajs (0, 0)%Z 0%Z None with
  | Raise e => inl (Exn e)
  | Ok (_, _, None) => inl UnboundLocalError
  | Ok (correct_transitions, correct_first_transitions, total_transitions, Some traj) =>
      if decide (1 < length traj)%nat then
        if decide (total_transitions = 0)%Z then inl ZeroDivisionError
        else inr ((IZR correct_transitions / IZR total_transitions)%R,
                  (IZR correct_first_transitions / IZR (Z.of_nat (length trajs)))%R)
      else inr (0%R, 0%R)
  end.

End ToyGraph.

(** The state an index names, on an axis of size [n]. *)
Definition wrap (n : nat) (s : Z) : nat := Z.to_nat (s `mod` Z.of_nat n).

(** The probability of the transition from [a] to [b]. *)
Definition probability (self : ToyGraph.t) (a b : Z) : R :=
  nth (wrap (ToyGraph.ncols (ToyGraph.transition_matrix self)) b)
      (row (ToyGraph.transition_matrix self)
           (wrap (length (ToyGraph.transition_matrix self)) a)) 0%R.

(** The transitions of a trajectory: its pairs of neighbouring states. *)
Definition transitions (traj : list Z) : list (Z * Z) := zip traj (tail traj).

(** An index NumPy accepts on an axis of size [n]. *)
Definition in_bounds (n : nat) (s : Z) : Prop := (- Z.of_nat n <= s < Z.of_nat n)%Z.


(** A transition the automaton can make. *)
Definition valid (self : ToyGraph.t) (ab : Z * Z) : Prop :=
  probability self ab.1 ab.2 <> 0%R.

#[global] Instance valid_dec (self : ToyGraph.t) (ab : Z * Z) : Decision (valid self ab) :=
  not_dec (ToyGraph.R_eq_decision (probability self ab.1 ab.2) 0%R).

(** The number of valid transitions of a trajectory, and whether its first
    transition is one (1) or not (0). *)
Definition correct (self : ToyGraph.t) (traj : list Z) : Z :=
  Z.of_nat (length (filter (valid self) (transitions traj))).
Definition first_correct (self : ToyGraph.t) (traj : list Z) : Z :=
  match transitions traj with
  | ab :: _ => if decide (valid self ab) then 1%Z else 0%Z
  | [] => 0%Z
  end.

(** The sum of [f] over a list. *)
Definition sum_over {A} (f : A -> Z) (l : list A) : Z :=
  foldr (fun x s => (f x + s)%Z) 0%Z l.
(** * Properties *)

(** ** Selection of the best entry *)

Section Scan.
Variable better : R -> R -> bool.
Hypothesis better_irrefl : forall x, better x x = false.
Hypothesis better_keeps : forall x y z,
  better x y = true -> better z y = false -> better z x = false.
Hypothesis better_beats : forall x y z,
  better x y = true -> better z y = false -> better x z = true.

(** The scan returns the first position of a best entry of the entries seen
    so far followed by the entries still to come. *)
Lemma scan_best (l : list R) : forall (pre : list R) (best : R) (bi : nat),
  pre !! bi = Some best ->
  (forall j y, pre !! j = Some y -> better y best = false) ->
  (forall j y, (j < bi)%nat -> pre !! j = Some y -> better best y = true) ->
  exists m, (pre ++ l) !! scan better best bi (length pre) l = Some m
    /\ (forall j y, (pre ++ l) !! j = Some y -> better y m = false)
    /\ (forall j y, (j < scan better best bi (length pre) l)%nat ->
          (pre ++ l) !! j = Some y -> better m y = true).
Proof.
  induction l as [|x l IH]; intros pre best bi Hbi Hall Hfirst; simpl.
  - rewrite app_nil_r. eauto.
  - replace (pre ++ x :: l) with ((pre ++ [x]) ++ l) by (by rewrite <- app_assoc).
    replace (S (length pre)) with (length (pre ++ [x]))
      by (rewrite length_app; simpl; lia).
    destruct (better x best) eqn:Hx.
    + apply IH.
      * by rewrite lookup_app_r, Nat.sub_diag.
      * intros j y Hj. apply lookup_app_Some in Hj as [Hj | [_ Hj]].
        -- eapply better_keeps; eauto.
        -- apply list_lookup_singleton_Some in Hj as [_ <-]. apply better_irrefl.
      * intros j y Hlt Hj. rewrite lookup_app_l in Hj by done.
        eapply better_beats; eauto.
    + apply IH.
      * apply lookup_app_l_Some; done.
      * intros j y Hj. apply lookup_app_Some in Hj as [Hj | [_ Hj]]; [eauto|].
        apply list_lookup_singleton_Some in Hj as [_ <-]. done.
      * intros j y Hlt Hj. apply lookup_lt_Some in Hbi.
        rewrite lookup_app_l in Hj by lia. eauto.
Qed.

Lemma scan_first (x : R) (l : list R) :
  exists m, (x :: l) !! scan better x 0 1 l = Some m
    /\ (forall j y, (x :: l) !! j = Some y -> better y m = false)
    /\ (forall j y, (j < scan better x 0 1 l)%nat ->
          (x :: l) !! j = Some y -> better m y = true).
Proof.
  apply (scan_best l [x] x 0%nat); [done | | intros; lia].
  intros j y Hj. apply list_lookup_singleton_Some in Hj as [_ <-].
  apply better_irrefl.
Qed.
End Scan.

Lemma gtb_true x y : gtb x y = true <-> (y < x)%R.
Proof. unfold gtb. by rewrite bool_decide_eq_true. Qed.
Lemma gtb_false x y : gtb x y = false <-> (x <= y)%R.
Proof. unfold gtb. rewrite bool_decide_eq_false. lra. Qed.
Lemma ltb_true x y : ltb x y = true <-> (x < y)%R.
Proof. unfold ltb. by rewrite bool_decide_eq_true. Qed.
Lemma ltb_false x y : ltb x y = false <-> (y <= x)%R.
Proof. unfold ltb. rewrite bool_decide_eq_false. lra. Qed.

(** [argmax1] returns the first position of a largest entry. *)
Lemma argmax1_spec (l : list R) :
  l <> [] ->
  exists k m, argmax1 l = Ok k /\ l !! k = Some m
    /\ (forall j y, l !! j = Some y -> (y <= m)%R)
    /\ (forall j y, (j < k)%nat -> l !! j = Some y -> (y < m)%R).
Proof.
  destruct l as [|x l]; [done|]; intros _.
  assert (exists m, (x :: l) !! scan gtb x 0 1 l = Some m
    /\ (forall j y, (x :: l) !! j = Some y -> gtb y m = false)
    /\ (forall j y, (j < scan gtb x 0 1 l)%nat ->
          (x :: l) !! j = Some y -> gtb m y = true)) as (m & Hm & Hall & Hfirst).
  { apply scan_first.
    - intros. apply gtb_false. lra.
    - intros ??? ?%gtb_true ?%gtb_false. apply gtb_false. lra.
    - intros ??? ?%gtb_true ?%gtb_false. apply gtb_true. lra. }
  exists (scan gtb x 0 1 l), m. split_and!; [done | done | |].
  - intros j y Hj. by apply gtb_false, (Hall j).
  - intros j y Hlt Hj. by apply gtb_true, (Hfirst j).
Qed.

(** [argmin1] returns the first position of a smallest entry. *)
Lemma argmin1_spec (l : list R) :
  l <> [] ->
  exists k m, argmin1 l = Ok k /\ l !! k = Some m
    /\ (forall j y, l !! j = Some y -> (m <= y)%R)
    /\ (forall j y, (j < k)%nat -> l !! j = Some y -> (m < y)%R).
Proof.
  destruct l as [|x l]; [done|]; intros _.
  assert (exists m, (x :: l) !! scan ltb x 0 1 l = Some m
    /\ (forall j y, (x :: l) !! j = Some y -> ltb y m = false)
    /\ (forall j y, (j < scan ltb x 0 1 l)%nat ->
          (x :: l) !! j = Some y -> ltb m y = true)) as (m & Hm & Hall & Hfirst).
  { apply scan_first.
    - intros. apply ltb_false. lra.
    - intros ??? ?%ltb_true ?%ltb_false. apply ltb_false. lra.
    - intros ??? ?%ltb_true ?%ltb_false. apply ltb_true. lra. }
  exists (scan ltb x 0 1 l), m. split_and!; [done | done | |].
  - intros j y Hj. by apply ltb_false, (Hall j).
  - intros j y Hlt Hj. by apply ltb_true, (Hfirst j).
Qed.

(** A traversal succeeds exactly when every call does. *)
Lemma traverse_Ok {A B} (f : A -> outcome B) (l : list A) (bs : list B) :
  traverse f l = Ok bs <-> Forall2 (fun a b => f a = Ok b) l bs.
Proof.
  revert bs; induction l as [|a l IH]; intros bs; simpl.
  - split; [intros [= <-]; constructor | by intros ->%Forall2_nil_inv_l].
  - unfold mbind, outcome_bind, mret, outcome_ret. split.
    + destruct (f a) as [b|] eqn:Hb; [|done].
      destruct (traverse f l) as [bs'|] eqn:Hbs; [|done].
      intros [= <-]. constructor; [done|]. by apply IH.
    + intros (b & bs' & Hb & Hbs & ->)%Forall2_cons_inv_l.
      rewrite Hb. apply IH in Hbs. by rewrite Hbs.
Qed.

Lemma traverse_total {A B} (f : A -> outcome B) (l : list A) :
  Forall (fun a => exists b, f a = Ok b) l -> exists bs, traverse f l = Ok bs.
Proof.
  induction 1 as [|a l [b Hb] _ [bs Hbs]]; simpl; [by eexists|].
  unfold mbind, outcome_bind, mret, outcome_ret. rewrite Hb, Hbs. by eexists.
Qed.

(** ** The forward pass of the snap functions *)

(** Every position gets what the selection returns on its own scores. *)
Lemma traverse_scores (arg1 : list R -> outcome nat) (score : Vector -> Vector -> R)
    (x : Tensor3) (weight : Matrix) :
  (forall v, exists k, arg1 (map (score v) weight) = Ok k) ->
  exists ids,
    traverse (traverse arg1) (map (map (fun v => map (fun c => score v c) weight)) x)
      = Ok ids
    /\ Forall2 (Forall2 (fun v k => arg1 (map (score v) weight) = Ok k)) x ids.
Proof.
  intros Htot.
  assert (Hrow : forall xb : list Vector, exists idb,
    traverse arg1 (map (fun v => map (fun c => score v c) weight) xb) = Ok idb).
  { intros xb. apply traverse_total, Forall_forall. intros s Hs.
    apply list_elem_of_fmap in Hs as (v & -> & _). apply Htot. }
  destruct (traverse_total (traverse arg1)
    (map (map (fun v => map (fun c => score v c) weight)) x)) as [ids Hids].
  { apply Forall_forall. intros s Hs. apply list_elem_of_fmap in Hs as (xb & -> & _).
    apply Hrow. }
  exists ids. split; [done|].
  apply traverse_Ok in Hids. apply Forall2_fmap_l in Hids.
  eapply Forall2_impl; [exact Hids|]. intros xb idb Hb. simpl in Hb.
  apply traverse_Ok in Hb. by apply Forall2_fmap_l in Hb.
Qed.

Lemma Forall2_lookup2 {A B} (P : A -> B -> Prop) (x : list (list A))
    (ids : list (list B)) i j xb v :
  Forall2 (Forall2 P) x ids -> x !! i = Some xb -> xb !! j = Some v ->
  exists idb k, ids !! i = Some idb /\ idb !! j = Some k /\ P v k.
Proof.
  intros H Hi Hj.
  destruct (Forall2_lookup_l _ _ _ _ _ H Hi) as (idb & Hidb & Hb).
  destruct (Forall2_lookup_l _ _ _ _ _ Hb Hj) as (k & Hk & HP).
  eauto.
Qed.

Lemma row_lookup (weight : Matrix) k r : weight !! k = Some r -> row weight k = r.
Proof. unfold row. by intros ->. Qed.

Lemma row_length n d (weight : Matrix) k :
  shape2 n d weight -> (k < n)%nat -> length (row weight k) = d.
Proof.
  intros [Hn Hd] Hk. destruct (lookup_lt_is_Some_2 weight k) as [r Hr]; [lia|].
  rewrite (row_lookup _ _ _ Hr). eapply Forall_lookup_1 in Hd; eauto.
Qed.

(** Inputs and a codebook of one width pass the width check. *)
Lemma same_width_shapes b p d n (x : Tensor3) (weight : Matrix) :
  shape3 b p d x -> shape2 n d weight -> same_width x weight.
Proof.
  intros [_ Hx] [_ Hw]. unfold same_width.
  eapply Forall_impl; [exact Hx|]. intros xb [_ Hxb].
  eapply Forall_impl; [exact Hxb|]. intros v Hv. simpl.
  eapply Forall_impl; [exact Hw|]. intros c Hc. simpl. congruence.
Qed.

Lemma matmul_T_shapes b p d n (x : Tensor3) (weight : Matrix) :
  shape3 b p d x -> shape2 n d weight ->
  matmul_T x weight = Ok (map (map (fun v => map (fun c => dot v c) weight)) x).
Proof.
  intros Hx Hw. unfold matmul_T.
  by rewrite decide_True by (by eapply same_width_shapes).
Qed.

Lemma cdist_shapes b p d n (x : Tensor3) (weight : Matrix) :
  shape3 b p d x -> shape2 n d weight ->
  cdist x weight = Ok (map (map (fun v => map (fun c => dist v c) weight)) x).
Proof.
  intros Hx Hw. unfold cdist.
  by rewrite decide_True by (by eapply same_width_shapes).
Qed.

(** One score per position and code. *)
Lemma scores_shape (score : Vector -> Vector -> R) b p d n (x : Tensor3)
    (weight : Matrix) :
  shape3 b p d x -> length weight = n ->
  shape3 b p n (map (map (fun v => map (fun c => score v c) weight)) x).
Proof.
  intros [Hb Hx] Hn. split; [by rewrite length_fmap|].
  apply Forall_fmap. eapply Forall_impl; [exact Hx|]. intros xb [Hp _]. simpl.
  split; [by rewrite length_fmap|].
  apply Forall_fmap, Forall_forall. intros v _. simpl. by rewrite length_fmap.
Qed.

Lemma Forall2_strengthen {A B} (P : A -> B -> Prop) (Q : A -> Prop)
    (l : list A) (k : list B) :
  Forall2 P l k -> Forall Q l -> Forall2 (fun a b => Q a /\ P a b) l k.
Proof.
  induction 1 as [|a b l k Hab _ IH]; intros HQ; [constructor|].
  apply Forall_cons in HQ as [Ha HQ]. constructor; [done | by apply IH].
Qed.

(** The shape of the looked-up rows. *)
Lemma embedding_shape {A} b p d n (x : list (list A)) (ids : list (list nat))
    (weight : Matrix) (P : A -> nat -> Prop) :
  length x = b -> Forall (fun xb => length xb = p) x -> shape2 n d weight ->
  Forall2 (Forall2 P) x ids ->
  (forall v k, P v k -> (k < n)%nat) ->
  shape3 b p d (embedding ids weight)
  /\ length ids = b /\ Forall (fun r => length r = p) ids.
Proof.
  intros Hb Hx HW H2 Hlt.
  assert (Hlen : length ids = b) by (by rewrite <- (Forall2_length _ _ _ H2)).
  assert (Hrows : Forall (fun idb => length idb = p /\ Forall (fun k => (k < n)%nat) idb) ids).
  { apply Forall_forall. intros idb Hin. apply list_elem_of_lookup in Hin as [i Hi].
    destruct (Forall2_lookup_r _ _ _ _ _ H2 Hi) as (xb & Hxb & Hbb).
    eapply Forall_lookup_1 in Hx; eauto. simpl in Hx. split.
    - by rewrite <- (Forall2_length _ _ _ Hbb).
    - apply Forall_forall. intros k Hk.
      apply list_elem_of_lookup in Hk as [j Hj].
      destruct (Forall2_lookup_r _ _ _ _ _ Hbb Hj) as (v & _ & HP). eauto. }
  split_and!; [| done |].
  - split; [unfold embedding; by rewrite length_fmap|].
    unfold embedding. apply Forall_fmap. eapply Forall_impl; [exact Hrows|].
    intros idb [Hp Hk]. split; [by rewrite length_fmap|].
    apply Forall_fmap. eapply Forall_impl; [exact Hk|].
    intros k Hkn. simpl. by eapply row_length.
  - eapply Forall_impl; [exact Hrows|]. by intros ? [? _].
Qed.

(** The selection, the lookup and the shapes of a snap, for any score
    tensor and any selection that returns the first best entry. *)
Lemma select_generic (arg1 : list R -> outcome nat) (pref strictly : R -> R -> Prop)
    b p d n (scores : Tensor3) (weight : Matrix) :
  (forall l, l <> [] ->
     exists k m, arg1 l = Ok k /\ l !! k = Some m
       /\ (forall j y, l !! j = Some y -> pref m y)
       /\ (forall j y, (j < k)%nat -> l !! j = Some y -> strictly m y)) ->
  shape3 b p n scores -> shape2 n d weight -> (0 < n)%nat ->
  exists ids,
    traverse (traverse arg1) scores = Ok ids
    /\ shape3 b p d (embedding ids weight)
    /\ length ids = b /\ Forall (fun r => length r = p) ids
    /\ selects_by pref strictly scores weight (embedding ids weight) ids.
Proof.
  intros Harg [Hb Hs] HW Hn.
  assert (Hne : forall s : Vector, length s = n -> s <> [])
    by (intros s Hl ->; simpl in Hl; lia).
  destruct (traverse_total (traverse arg1) scores) as [ids Hids].
  { eapply Forall_impl; [exact Hs|]. intros sb [_ Hsb]. simpl.
    apply traverse_total. eapply Forall_impl; [exact Hsb|]. intros s Hl. simpl.
    destruct (Harg s (Hne s Hl)) as (k & _ & Hk & _). eauto. }
  exists ids. split; [done|].
  assert (H2 : Forall2 (Forall2 (fun s k => length s = n /\ arg1 s = Ok k)) scores ids).
  { apply traverse_Ok in Hids.
    eapply Forall2_impl;
      [apply (Forall2_strengthen _ (shape2 p n) _ _ Hids Hs)|].
    intros sb idb [[_ Hsb] Hrow]. simpl in Hrow. apply traverse_Ok in Hrow.
    by apply Forall2_strengthen. }
  assert (Hsel : forall s k, length s = n /\ arg1 s = Ok k ->
     exists m, s !! k = Some m
       /\ (forall c y, s !! c = Some y -> pref m y)
       /\ (forall c y, (c < k)%nat -> s !! c = Some y -> strictly m y)).
  { intros s k [Hl Hk]. destruct (Harg s (Hne s Hl)) as (k' & m & Hk' & Hm & Hrest).
    rewrite Hk in Hk'. injection Hk' as <-. eauto. }
  assert (Hlt : forall s k, length s = n /\ arg1 s = Ok k -> (k < n)%nat).
  { intros s k Hsk. destruct (Hsel s k Hsk) as (m & Hm & _).
    apply lookup_lt_Some in Hm. destruct Hsk. lia. }
  destruct (embedding_shape b p d n scores ids weight
              (fun s k => length s = n /\ arg1 s = Ok k)) as (Hshape & Hl & Hp);
    [done | | done | done | done |].
  { eapply Forall_impl; [exact Hs|]. by intros sb [? _]. }
  split_and!; [done | done | done |].
  intros i j sb s Hi Hj.
  destruct (Forall2_lookup2 _ _ _ _ _ _ _ H2 Hi Hj) as (idb & k & Hidb & Hk & Hok).
  destruct (Hsel s k Hok) as (m & Hm & Hbest & Hfirst).
  exists idb, (map (row weight) idb), k, m.
  split_and!; [done | done | | | | done | done | done].
  - destruct HW as [HW _]. rewrite HW. by eapply Hlt.
  - unfold embedding. by rewrite list_lookup_fmap, Hidb.
  - by rewrite list_lookup_fmap, Hk.
Qed.

(** X22.  The snap functions select by the scores they computed.  On an
    input of shape (b, p, d) and a codebook of shape (n, d) with at least one
    code, both snap functions return; the output has the shape of the input
    and the indices the shape (b, p); at every position the index lies in
    [0, n), the output is the codebook row of that index, and that index is
    the first one whose entry in the score tensor ([torch.cdist] for the
    Euclidean snap, [torch.matmul] for the inner-product snap) is smallest,
    respectively largest. *)
Theorem snap_selects_computed (b p d n : nat) (x : Tensor3) (codebook : Param Matrix) :
  shape3 b p d x -> shape2 n d (data codebook) -> (0 < n)%nat ->
  (exists scores ctx out ids,
     cdist x (data codebook) = Ok scores /\ shape3 b p n scores
     /\ EuclideanSnapFunction.forward x codebook = Ok (ctx, (out, ids))
     /\ shape3 b p d out /\ length ids = b /\ Forall (fun r => length r = p) ids
     /\ selects_by Rle Rlt scores (data codebook) out ids)
  /\ (exists scores ctx out ids,
     matmul_T x (data codebook) = Ok scores /\ shape3 b p n scores
     /\ InnerProductSnapFunction.forward x codebook = Ok (ctx, (out, ids))
     /\ shape3 b p d out /\ length ids = b /\ Forall (fun r => length r = p) ids
     /\ selects_by Rge Rgt scores (data codebook) out ids).
Proof.
  intros Hx HW Hn.
  assert (Hlen : length (data codebook) <> 0%nat) by (destruct HW; lia).
  assert (Hcodes : length (data codebook) = n) by (by destruct HW).
  split.
  - pose proof (scores_shape dist b p d n x (data codebook) Hx Hcodes) as Hscores.
    destruct (select_generic argmin1 Rle Rlt b p d n _ (data codebook)
                argmin1_spec Hscores HW Hn) as (ids & Hids & Hrest).
    unfold EuclideanSnapFunction.forward.
    rewrite (cdist_shapes b p d n x (data codebook) Hx HW).
    unfold argmin. simpl. rewrite decide_False by done. rewrite Hids. simpl.
    eexists _, _, _, _. split; [done|]. split; [done|]. split; [done|]. exact Hrest.
  - pose proof (scores_shape dot b p d n x (data codebook) Hx Hcodes) as Hscores.
    destruct (select_generic argmax1 Rge Rgt b p d n
                (map (map (fun v => map (fun c => dot v c) (data codebook))) x)
                (data codebook)) as (ids & Hids & Hrest); [| done | done | done |].
    { intros l Hl. destruct (argmax1_spec l Hl) as (k & m & ? & ? & Hall & Hfirst).
      exists k, m. split_and!; [done | done | |].
      - intros j y Hj. apply Rle_ge. eauto.
      - intros j y Hlt Hj. apply Rlt_gt. eauto. }
    unfold InnerProductSnapFunction.forward.
    rewrite (matmul_T_shapes b p d n x (data codebook) Hx HW).
    unfold argmax. simpl. rewrite decide_False by done. rewrite Hids. simpl.
    eexists _, _, _, _. split; [done|]. split; [done|]. split; [done|]. exact Hrest.
Qed.

Lemma snap_selects_computed_witness :
  let probes := {| data := [[1; 0]; [0; 1]]%R; requires_grad := true |} in
  exists scores ctx out ids,
    cdist [[[1; 0]; [0; 1]]]%R (data probes) = Ok scores
    /\ EuclideanSnapFunction.forward [[[1; 0]; [0; 1]]]%R probes = Ok (ctx, (out, ids))
    /\ selects_by Rle Rlt scores (data probes) out ids.
Proof.
  intros probes.
  destruct (snap_selects_computed 1 2 2 2 [[[1; 0]; [0; 1]]]%R probes)
    as [(scores & ctx & out & ids & Hscores & _ & Hrun & _ & _ & _ & Hsel) _].
  - split; [reflexivity | repeat constructor].
  - split; [reflexivity | repeat constructor].
  - lia.
  - exists scores, ctx, out, ids. split; [exact Hscores|]. split; [exact Hrun | exact Hsel].
Defined.

(** ** Sums *)

Lemma tabulate_lookup {A} (n : nat) (f : nat -> A) (i : nat) :
  (i < n)%nat -> tabulate n f !! i = Some (f i).
Proof.
  intros Hi. unfold tabulate. rewrite list_lookup_fmap, lookup_seq_lt by done.
  done.
Qed.

Lemma tabulate_length {A} (n : nat) (f : nat -> A) : length (tabulate n f) = n.
Proof. unfold tabulate. by rewrite length_fmap, length_seq. Qed.

Lemma tabulate_ext {A} (n : nat) (f g : nat -> A) :
  (forall i, (i < n)%nat -> f i = g i) -> tabulate n f = tabulate n g.
Proof.
  intros H. unfold tabulate. apply list_fmap_ext.
  intros i x Hx. apply lookup_seq in Hx as [-> Hlt]. by apply H.
Qed.

(** A list is the table of its entries. *)
Lemma list_as_tabulate {A} (l : list A) (dflt : A) :
  l = tabulate (length l) (fun i => nth i l dflt).
Proof.
  apply list_eq. intros i. destruct (decide (i < length l)%nat) as [Hi|Hi].
  - rewrite tabulate_lookup by done.
    destruct (lookup_lt_is_Some_2 l i Hi) as [x Hx]. rewrite Hx.
    f_equal. symmetry. by apply nth_lookup_Some with (d := dflt).
  - rewrite !lookup_ge_None_2; [done | rewrite tabulate_length; lia | lia].
Qed.

Lemma big_sum_ext (n : nat) (f g : nat -> R) :
  (forall i, (i < n)%nat -> f i = g i) -> big_sum n f = big_sum n g.
Proof. intros H. unfold big_sum. by rewrite (tabulate_ext n f g). Qed.

Lemma sum_fmap_scale (s : R) (l : list R) :
  Torch.sum (map (fun a => a / s)%R l) = (Torch.sum l / s)%R.
Proof.
  unfold Torch.sum. induction l as [|a l IH]; csimpl; [lra | rewrite IH; lra].
Qed.

Lemma big_sum_scale (n : nat) (f : nat -> R) (s : R) :
  big_sum n (fun c => f c / s)%R = (big_sum n f / s)%R.
Proof.
  unfold big_sum, tabulate. rewrite <- sum_fmap_scale, <- list_fmap_compose. done.
Qed.

Lemma sum_nonneg (l : list R) : Forall (fun a => 0 <= a)%R l -> (0 <= Torch.sum l)%R.
Proof.
  induction 1 as [|a l Ha _ IH]; unfold Torch.sum in *; simpl; lra.
Qed.

Lemma sum_pos (l : list R) :
  l <> [] -> Forall (fun a => 0 < a)%R l -> (0 < Torch.sum l)%R.
Proof.
  intros Hne H. destruct H as [|a l Ha Hl]; [done|].
  assert (0 <= Torch.sum l)%R.
  { apply sum_nonneg. eapply Forall_impl; [exact Hl|]. intros; simpl in *; lra. }
  unfold Torch.sum in *; simpl. lra.
Qed.

Lemma big_sum_pos (n : nat) (f : nat -> R) :
  (0 < n)%nat -> (forall c, (c < n)%nat -> (0 < f c)%R) -> (0 < big_sum n f)%R.
Proof.
  intros Hn Hf. unfold big_sum. apply sum_pos.
  - intros Hnil. apply (f_equal length) in Hnil. rewrite tabulate_length in Hnil.
    simpl in Hnil. lia.
  - apply Forall_forall. intros a Ha. apply list_elem_of_lookup in Ha as [i Hi].
    assert (i < n)%nat as Hlt.
    { apply lookup_lt_Some in Hi. by rewrite tabulate_length in Hi. }
    rewrite tabulate_lookup in Hi by done. injection Hi as <-. by apply Hf.
Qed.

(** Normalised non-negative weights with a positive sum are convex. *)
Lemma normalised_convex (n : nat) (f : nat -> R) :
  (forall c, (c < n)%nat -> (0 <= f c)%R) -> (0 < big_sum n f)%R ->
  convex n (fun c => f c / big_sum n f)%R.
Proof.
  intros Hf Hs. split.
  - intros c Hc. apply Rmult_le_pos; [by apply Hf|].
    left. by apply Rinv_0_lt_compat.
  - rewrite big_sum_scale. field. lra.
Qed.

(** ** Sums of rows *)

Lemma sum_rows_length (d : nat) (m : Matrix) :
  Forall (fun r => length r = d) m -> length (sum_rows d m) = d.
Proof.
  induction 1 as [|r m Hr _ IH]; simpl.
  - unfold zeros. by rewrite length_replicate.
  - rewrite length_zip_with. fold (sum_rows d m). lia.
Qed.

Lemma sum_rows_nth (d : nat) (m : Matrix) (k : nat) :
  Forall (fun r => length r = d) m -> (k < d)%nat ->
  nth k (sum_rows d m) 0%R = Torch.sum (map (fun r => nth k r 0%R) m).
Proof.
  intros Hm Hk. induction Hm as [|r m Hr Hm IH]; csimpl.
  - unfold zeros. apply nth_lookup_Some with (d := 0%R).
    by rewrite lookup_replicate_2.
  - fold (sum_rows d m). unfold Torch.sum in *; csimpl. rewrite <- IH.
    pose proof (sum_rows_length d m Hm) as Hlen.
    destruct (lookup_lt_is_Some_2 r k) as [a Ha]; [lia|].
    destruct (lookup_lt_is_Some_2 (sum_rows d m) k) as [s Hs]; [lia|].
    rewrite (nth_lookup_Some _ _ 0%R _ Ha), (nth_lookup_Some _ _ 0%R _ Hs).
    apply nth_lookup_Some with (d := 0%R).
    by rewrite lookup_zip_with, Ha, Hs.
Qed.

(** The combination that [sum_rows] and [scale_rows] compute, entry by
    entry. *)
Lemma combination_entry (d : nat) (w : nat -> R) (weight : Matrix) (k : nat) :
  Forall (fun r => length r = d) weight -> (k < d)%nat ->
  nth k (sum_rows d (scale_rows (tabulate (length weight) w) weight)) 0%R
  = combination w weight k.
Proof.
  intros HW Hk.
  assert (Hscaled : scale_rows (tabulate (length weight) w) weight
    = tabulate (length weight) (fun c => map (Rmult (w c)) (row weight c))).
  { apply list_eq. intros c. unfold scale_rows. rewrite lookup_zip_with.
    destruct (decide (c < length weight)%nat) as [Hc|Hc].
    - rewrite !tabulate_lookup by done.
      destruct (lookup_lt_is_Some_2 weight c Hc) as [r Hr]. rewrite Hr. simpl.
      by rewrite (row_lookup _ _ _ Hr).
    - rewrite !(lookup_ge_None_2 (tabulate _ _)) by (rewrite tabulate_length; lia).
      done. }
  rewrite Hscaled, sum_rows_nth; [| |done].
  - unfold combination, big_sum, tabulate. rewrite <- list_fmap_compose.
    f_equal. apply list_fmap_ext. intros i c Hc. apply lookup_seq in Hc as [Hc Hlt].
    simpl in Hc. subst c.
    simpl. destruct (lookup_lt_is_Some_2 weight i Hlt) as [r Hr].
    rewrite (row_lookup _ _ _ Hr).
    assert (length r = d) as Hlen by (eapply Forall_lookup_1 in HW; eauto).
    destruct (lookup_lt_is_Some_2 r k) as [a Ha]; [lia|].
    rewrite (nth_lookup_Some _ _ 0%R _ Ha).
    apply nth_lookup_Some with (d := 0%R). by rewrite list_lookup_fmap, Ha.
  - apply Forall_forall. intros r Hr. apply list_elem_of_lookup in Hr as [c Hc].
    assert (c < length weight)%nat as Hlt.
    { apply lookup_lt_Some in Hc. by rewrite tabulate_length in Hc. }
    rewrite tabulate_lookup in Hc by done. injection Hc as <-.
    rewrite length_fmap. destruct (lookup_lt_is_Some_2 weight c Hlt) as [r Hr].
    rewrite (row_lookup _ _ _ Hr). eapply Forall_lookup_1 in HW; eauto.
Qed.

(** ** The usage counter *)

Lemma count_insert (c : gmap nat Z) (i j : nat) (v : Z) :
  Counter.count (<[i := v]> c) j = if decide (i = j) then v else Counter.count c j.
Proof.
  unfold Counter.count. rewrite lookup_insert. by destruct (decide (i = j)).
Qed.

Lemma occurrences_nil c : occurrences c [] = 0%Z.
Proof. done. Qed.

Lemma occurrences_cons c i l :
  occurrences c (i :: l) = ((if decide (i = c) then 1 else 0) + occurrences c l)%Z.
Proof.
  unfold occurrences. rewrite filter_cons. destruct (decide (i = c)); simpl; lia.
Qed.

Lemma occurrences_app c l1 l2 :
  occurrences c (l1 ++ l2) = (occurrences c l1 + occurrences c l2)%Z.
Proof. unfold occurrences. rewrite filter_app, length_app. lia. Qed.

(** [update] adds to every count the number of occurrences in the list. *)
Lemma count_update (l : list nat) : forall (c : gmap nat Z) (j : nat),
  Counter.count (Counter.update c l) j = (Counter.count c j + occurrences j l)%Z.
Proof.
  unfold Counter.update.
  induction l as [|i l IH]; intros c j; simpl.
  - rewrite occurrences_nil. lia.
  - rewrite IH, count_insert, occurrences_cons.
    destruct (decide (i = j)) as [->|]; lia.
Qed.

(** ** The forward pass of the codebook layer *)

Ltac run_monad :=
  unfold mbind, M_bind, mret, M_ret, get, lift, modify, raise, zoom,
    fmap, outcome_fmap, outcome_bind, outcome_ret in *; simpl in *.

Lemma forward_hard (self : CodebookLayer.t) (x out : Tensor3) (ids : list (list nat)) :
  CodebookLayer.soft_snap self = false ->
  apply (CodebookLayer.snap_fn self) x (CodebookLayer.codebook self) = Ok (out, ids) ->
  CodebookLayer.forward x self
  = (CodebookLayer.set_counts
       (Counter.update (CodebookLayer.counts self) (concat ids)) self, Ok out).
Proof.
  intros Hsoft Happly. unfold CodebookLayer.forward. run_monad.
  by rewrite Hsoft, Happly.
Qed.

Lemma forward_soft (self : CodebookLayer.t) (x : Tensor3) :
  CodebookLayer.soft_snap self = true ->
  CodebookLayer.forward x self
  = (self, CodebookLayer.soft_output (CodebookLayer.dim self) x
             (data (CodebookLayer.codebook self))).
Proof.
  intros Hsoft. unfold CodebookLayer.forward. run_monad. by rewrite Hsoft.
Qed.

Lemma same_width_batch d n (x : Tensor3) (weight : Matrix) :
  batch_of d x -> shape2 n d weight -> same_width x weight.
Proof. intros (b & p & Hx) Hw. by eapply same_width_shapes. Qed.

Lemma same_width_batches d n (xs : list Tensor3) (weight : Matrix) :
  Forall (batch_of d) xs -> shape2 n d weight ->
  Forall (fun x => same_width x weight) xs.
Proof.
  intros Hxs Hw. eapply Forall_impl; [exact Hxs|].
  intros x Hx. by eapply same_width_batch.
Qed.

(** The soft average on a batch of the codebook's width. *)
Lemma soft_output_run (D d n : nat) (x : Tensor3) (weight : Matrix) :
  batch_of d x -> shape2 n d weight ->
  CodebookLayer.soft_output D x weight
  = Ok (map (map (sum_rows D))
          (map (map (fun w => scale_rows w weight))
             (softmax (map (map (fun v => map (fun c => dot v c) weight)) x)))).
Proof.
  intros Hx Hw. unfold CodebookLayer.soft_output, matmul_T.
  by rewrite decide_True by (by eapply same_width_batch).
Qed.

(** Both snap functions return on a batch of the codebook's width, for a
    codebook that has a code. *)
Lemma apply_total (snap_fn : SnapFunction) (x : Tensor3) (codebook : Param Matrix) :
  same_width x (data codebook) ->
  data codebook <> [] -> exists out ids, apply snap_fn x codebook = Ok (out, ids).
Proof.
  intros Hwidth Hne.
  assert (length (data codebook) <> 0%nat) as Hlen.
  { destruct (data codebook); [done | simpl; lia]. }
  assert (forall v (score : Vector -> Vector -> R), map (score v) (data codebook) <> [])
    as Hscores.
  { intros v score Hnil. by apply fmap_nil_inv in Hnil. }
  destruct snap_fn; unfold apply.
  - destruct (traverse_scores argmin1 dist x (data codebook)) as (ids & Hids & _).
    { intros v. destruct (argmin1_spec _ (Hscores v dist)) as (k & _ & Hk & _). eauto. }
    unfold EuclideanSnapFunction.forward, argmin, cdist.
    rewrite decide_True by done. csimpl.
    rewrite decide_False by done. rewrite Hids. run_monad. eauto.
  - destruct (traverse_scores argmax1 dot x (data codebook)) as (ids & Hids & _).
    { intros v. destruct (argmax1_spec _ (Hscores v dot)) as (k & _ & Hk & _). eauto. }
    unfold InnerProductSnapFunction.forward, argmax, matmul_T.
    rewrite decide_True by done. csimpl.
    rewrite decide_False by done. rewrite Hids. run_monad. eauto.
Qed.

Lemma selections_set_counts (self : CodebookLayer.t) (c : gmap nat Z) (x : Tensor3) :
  selections (CodebookLayer.set_counts c self) x = selections self x.
Proof. done. Qed.

Lemma total_selected_set_counts c (self : CodebookLayer.t) (cs : gmap nat Z) xs :
  total_selected c (CodebookLayer.set_counts cs self) xs = total_selected c self xs.
Proof. done. Qed.

(** Hard forward calls in a row: every call returns, the codebook stays, and
    each count grows by the number of positions that selected the code. *)
Lemma forward_each_counts (xs : list Tensor3) : forall self : CodebookLayer.t,
  CodebookLayer.soft_snap self = false ->
  data (CodebookLayer.codebook self) <> [] ->
  Forall (fun x => same_width x (data (CodebookLayer.codebook self))) xs ->
  exists counts' outs,
    forward_each xs self = (CodebookLayer.set_counts counts' self, Ok outs)
    /\ length outs = length xs
    /\ forall c, Counter.count counts' c
         = (Counter.count (CodebookLayer.counts self) c + total_selected c self xs)%Z.
Proof.
  induction xs as [|x xs IH]; intros self Hsoft Hne Hwidth.
  - exists (CodebookLayer.counts self), []. split_and!; [by destruct self | done |].
    intros c. unfold total_selected. simpl. lia.
  - apply Forall_cons in Hwidth as [Hx Hwidth].
    destruct (apply_total (CodebookLayer.snap_fn self) x _ Hx Hne)
      as (out & ids & Happly).
    pose proof (forward_hard self x out ids Hsoft Happly) as Hfwd.
    set (self1 := CodebookLayer.set_counts
                    (Counter.update (CodebookLayer.counts self) (concat ids)) self) in *.
    destruct (IH self1) as (counts' & outs & Hrest & Hlen & Hcounts);
      [done | done | done |].
    exists counts', (out :: outs). split_and!.
    + simpl. unfold mbind at 1, M_bind. rewrite Hfwd.
      unfold mbind at 1, M_bind. rewrite Hrest. done.
    + simpl. lia.
    + intros c. rewrite Hcounts. subst self1. simpl.
      rewrite count_update, total_selected_set_counts.
      assert (total_selected c self (x :: xs)
              = (occurrences c (concat ids) + total_selected c self xs)%Z) as ->.
      { unfold total_selected. csimpl. unfold selections at 1. by rewrite Happly. }
      lia.
Qed.

(** ** Expiration *)

Lemma underused_fold (counts : gmap nat Z) (threshold : Z) (l : list nat) :
  forall (acc : gset nat) (i : nat),
    i ∈ foldl (fun acc i =>
                 if match counts !! i with
                    | None => true
                    | Some c => bool_decide (c < threshold)%Z
                    end
                 then acc ∪ {[ i ]} else acc) acc l
    <-> i ∈ acc \/ (i ∈ l /\ is_underused counts threshold i).
Proof.
  induction l as [|j l IH]; intros acc i; simpl.
  - rewrite elem_of_nil. tauto.
  - rewrite IH, elem_of_cons. unfold is_underused.
    destruct (counts !! j) as [c|] eqn:Hj; [case_bool_decide|];
      rewrite ?elem_of_union, ?elem_of_singleton;
      (split; [intros [[?| ->]|[? ?]] || intros [?|[? ?]]; rewrite ?Hj; tauto|]);
      (intros [?|[[->|?] Hu]]; try rewrite Hj in Hu; tauto).
Qed.

(** The underused codes are the codes of the codebook that pass the test. *)
Lemma elem_of_underused (self : CodebookLayer.t) (threshold : Z) (i : nat) :
  i ∈ CodebookLayer.underused self threshold
  <-> (i < length (data (CodebookLayer.codebook self)))%nat
      /\ is_underused (CodebookLayer.counts self) threshold i.
Proof.
  unfold CodebookLayer.underused. rewrite underused_fold, elem_of_seq.
  split; [intros [?|[? ?]]; [set_solver | split; [lia | done]]|].
  intros [? ?]. right. split; [lia | done].
Qed.

(** Row assignment through distinct indices: the other rows stay, row
    [idx !! u] becomes [rows !! u]. *)
Lemma index_put_rows (idx : list nat) : forall (weight rows : Matrix),
  NoDup idx -> length rows = length idx ->
  let weight' := foldl (fun w ir => <[ir.1 := ir.2]> w) weight (zip idx rows) in
  length weight' = length weight
  /\ (forall i, i ∉ idx -> weight' !! i = weight !! i)
  /\ (forall u i, idx !! u = Some i -> (i < length weight)%nat ->
        weight' !! i = rows !! u).
Proof.
  induction idx as [|i0 idx IH]; intros weight rows Hnd Hlen; simpl.
  - split_and!; [done | done | intros u i Hu; by rewrite lookup_nil in Hu].
  - destruct rows as [|r rows]; [done|]. simpl in *.
    apply NoDup_cons in Hnd as [Hnotin Hnd].
    destruct (IH (<[i0 := r]> weight) rows Hnd) as (Hl & Hother & Hput); [lia|].
    split_and!.
    + by rewrite Hl, length_insert.
    + intros i Hi. apply not_elem_of_cons in Hi as [Hne Hi].
      rewrite Hother by done. by rewrite list_lookup_insert_ne.
    + intros u i Hu Hlt. destruct u as [|u]; simpl in *.
      * injection Hu as ->. rewrite Hother by done.
        by rewrite list_lookup_insert_eq.
      * apply Hput; [done | by rewrite length_insert].
Qed.

Lemma index_put_Ok (weight : Matrix) (idx : list nat) (rows : Matrix) :
  idx <> [] -> Forall (fun i => (i < length weight)%nat) idx ->
  CodebookLayer.index_put weight idx rows
  = Ok (foldl (fun w ir => <[ir.1 := ir.2]> w) weight (zip idx rows)).
Proof.
  intros Hne Hall. unfold CodebookLayer.index_put.
  destruct idx as [|i idx]; [done|].
  assert (forallb (fun i => bool_decide (i < length weight)%nat) (i :: idx) = true) as ->;
    [|done].
  apply forallb_forall. intros j Hj. apply bool_decide_eq_true.
  apply list_elem_of_In in Hj. eapply Forall_forall in Hall; eauto.
Qed.

Lemma elements_underused_lt (self : CodebookLayer.t) (threshold : Z) :
  Forall (fun i => (i < length (data (CodebookLayer.codebook self)))%nat)
         (elements (CodebookLayer.underused self threshold)).
Proof.
  apply Forall_forall. intros i Hi. apply elem_of_elements, elem_of_underused in Hi.
  tauto.
Qed.

(** What [expire_codes] does, in one equation per case. *)
Lemma expire_codes_run (rand : nat -> nat -> R) (threshold : Z) (self : CodebookLayer.t) :
  let weight := data (CodebookLayer.codebook self) in
  let U := CodebookLayer.underused self threshold in
  CodebookLayer.expire_codes rand threshold self
  = (if decide (U = ∅) then self
     else CodebookLayer.set_codebook
            {| data := foldl (fun w ir => <[ir.1 := ir.2]> w) weight
                         (zip (elements U) (new_codes rand self threshold));
               requires_grad := requires_grad (CodebookLayer.codebook self) |} self,
     Ok tt).
Proof.
  intros weight U. unfold CodebookLayer.expire_codes, new_codes. run_monad.
  fold weight U. destruct (decide (U = ∅)) as [HU|HU].
  - rewrite HU, elements_empty. done.
  - rewrite index_put_Ok; [done | | apply elements_underused_lt].
    intros Hnil. apply HU. apply elements_empty_inv in Hnil.
    by apply leibniz_equiv.
Qed.

(** The rows that [expire_codes] writes: row [u] is the combination of the
    codebook with the normalised weights of draw [u]. *)
Lemma new_codes_row (rand : nat -> nat -> R) (d m : nat) (weight : Matrix) (u : nat) :
  Forall (fun r => length r = d) weight -> (u < m)%nat ->
  exists r,
    einsum_uc_cd d
      (normalize_rows (tabulate m (fun u => tabulate (length weight) (rand u))))
      weight !! u = Some r
    /\ length r = d
    /\ forall k, (k < d)%nat ->
         nth k r 0%R = combination (drawn_weight rand (length weight) u) weight k.
Proof.
  intros HW Hu. unfold einsum_uc_cd, normalize_rows.
  rewrite !list_lookup_fmap, tabulate_lookup by done. simpl.
  eexists. split; [done|].
  assert (map (fun a => (a / Torch.sum (tabulate (length weight) (rand u)))%R)
              (tabulate (length weight) (rand u))
          = tabulate (length weight) (drawn_weight rand (length weight) u)) as ->.
  { unfold tabulate. rewrite <- list_fmap_compose. done. }
  split.
  - apply sum_rows_length. unfold scale_rows.
    apply Forall_forall. intros r Hr. apply list_elem_of_lookup in Hr as [c Hc].
    rewrite lookup_zip_with in Hc.
    destruct (tabulate _ _ !! c) as [a|]; [|done]. simpl in Hc.
    destruct (weight !! c) as [rc|] eqn:Hrc; [|done]. injection Hc as <-.
    rewrite length_fmap. eapply Forall_lookup_1 in HW; eauto.
  - intros k Hk. by apply combination_entry.
Qed.

Lemma new_codes_length (rand : nat -> nat -> R) (self : CodebookLayer.t) (threshold : Z) :
  length (new_codes rand self threshold)
  = length (elements (CodebookLayer.underused self threshold)).
Proof.
  unfold new_codes, einsum_uc_cd, normalize_rows.
  by rewrite !length_fmap, tabulate_length.
Qed.

Lemma set_codebook_same (self : CodebookLayer.t) :
  CodebookLayer.set_codebook
    {| data := data (CodebookLayer.codebook self);
       requires_grad := requires_grad (CodebookLayer.codebook self) |} self = self.
Proof. destruct self as [[? ?] ? ? ? ? ?]. done. Qed.

(** [expire_codes] never raises, and writes rows of [new_codes] to the
    underused codes only. *)
Lemma expire_codes_rows (rand : nat -> nat -> R) (threshold : Z) (self : CodebookLayer.t) :
  let weight := data (CodebookLayer.codebook self) in
  let U := CodebookLayer.underused self threshold in
  exists weight',
    CodebookLayer.expire_codes rand threshold self
    = (CodebookLayer.set_codebook
         {| data := weight';
            requires_grad := requires_grad (CodebookLayer.codebook self) |} self,
       Ok tt)
    /\ length weight' = length weight
    /\ (forall i, i ∉ U -> weight' !! i = weight !! i)
    /\ (forall i, i ∈ U ->
          exists u, (u < size U)%nat
            /\ weight' !! i = new_codes rand self threshold !! u)
    /\ (U = ∅ -> weight' = weight).
Proof.
  intros weight U. rewrite expire_codes_run. fold weight U.
  destruct (decide (U = ∅)) as [HU|HU].
  - exists weight. subst weight. rewrite set_codebook_same.
    split_and!; [done | done | done | | done].
    intros i Hi. rewrite HU in Hi. set_solver.
  - destruct (index_put_rows (elements U) weight (new_codes rand self threshold))
      as (Hlen & Hother & Hput);
      [apply NoDup_elements | apply new_codes_length |].
    eexists. split_and!; [done | done | | | done].
    + intros i Hi. apply Hother. by rewrite elem_of_elements.
    + intros i Hi. pose proof Hi as Hin.
      apply elem_of_elements, list_elem_of_lookup in Hin as [u Hu].
      exists u. split; [by apply lookup_lt_Some in Hu|].
      apply (Hput u i Hu). apply elem_of_underused in Hi. tauto.
Qed.

Lemma expire_codes_counts (rand : nat -> nat -> R) (threshold : Z) (self : CodebookLayer.t) :
  CodebookLayer.counts (CodebookLayer.expire_codes rand threshold self).1
  = CodebookLayer.counts self.
Proof.
  destruct (expire_codes_rows rand threshold self) as (weight' & -> & _). done.
Qed.

Lemma expire_codes_underused (rand : nat -> nat -> R) (threshold : Z) (self : CodebookLayer.t) :
  CodebookLayer.underused (CodebookLayer.expire_codes rand threshold self).1 threshold
  = CodebookLayer.underused self threshold.
Proof.
  destruct (expire_codes_rows rand threshold self) as (weight' & -> & Hlen & _).
  unfold CodebookLayer.underused. simpl. by rewrite Hlen.
Qed.

(** X23.  [expire_codes] as the code has it.  It never raises.  It overwrites
    every code that has no recorded use, whatever the threshold is, and every
    code whose recorded count is below the threshold; each of them gets a
    combination of the rows the codebook had before the call, with the
    normalised weights of one draw, and these weights are convex when the
    draws are non-negative and the draw has a positive sum.  Every other code
    keeps its row, the shape of the codebook stays, and when no code is
    underused the layer is left as it was. *)
Theorem expire_codes_recycles (rand : nat -> nat -> R) (threshold : Z)
    (self : CodebookLayer.t) (n d : nat) :
  shape2 n d (data (CodebookLayer.codebook self)) ->
  CodebookLayer.dim self = d ->
  (forall u c, (0 <= rand u c)%R) ->
  (forall u, (u < size (CodebookLayer.underused self threshold))%nat ->
     (0 < big_sum n (rand u))%R) ->
  exists self',
    CodebookLayer.expire_codes rand threshold self = (self', Ok tt)
    /\ shape2 n d (data (CodebookLayer.codebook self'))
    /\ (forall i, i ∈ CodebookLayer.underused self threshold
          <-> (i < n)%nat /\ is_underused (CodebookLayer.counts self) threshold i)
    /\ (forall i, i ∈ CodebookLayer.underused self threshold ->
          exists u, (u < size (CodebookLayer.underused self threshold))%nat
            /\ convex n (drawn_weight rand n u)
            /\ forall k, (k < d)%nat ->
                 nth k (row (data (CodebookLayer.codebook self')) i) 0%R
                 = combination (drawn_weight rand n u)
                     (data (CodebookLayer.codebook self)) k)
    /\ (forall i, i ∉ CodebookLayer.underused self threshold ->
          data (CodebookLayer.codebook self') !! i
          = data (CodebookLayer.codebook self) !! i)
    /\ (CodebookLayer.underused self threshold = ∅ -> self' = self).
Proof.
  intros [Hn Hd] Hdim Hrand Hsum.
  destruct (expire_codes_rows rand threshold self)
    as (weight' & Hrun & Hlen & Hother & Hput & Hempty).
  eexists. split; [exact Hrun|]. simpl.
  assert (Hrow : forall i, i ∈ CodebookLayer.underused self threshold ->
    exists u r, (u < size (CodebookLayer.underused self threshold))%nat
      /\ weight' !! i = Some r /\ length r = d
      /\ forall k, (k < d)%nat ->
           nth k r 0%R = combination (drawn_weight rand n u)
                           (data (CodebookLayer.codebook self)) k).
  { intros i Hi. destruct (Hput i Hi) as (u & Hu & Hi').
    destruct (new_codes_row rand d (size (CodebookLayer.underused self threshold))
                (data (CodebookLayer.codebook self)) u Hd Hu) as (r & Hr & Hlr & Hk).
    exists u, r. rewrite Hi'. unfold new_codes. rewrite Hdim, Hr.
    split_and!; [done | done | done |]. by rewrite <- Hn. }
  split_and!.
  - split; [lia|]. apply Forall_lookup. intros i r Hi.
    destruct (decide (i ∈ CodebookLayer.underused self threshold)) as [Hin|Hin].
    + destruct (Hrow i Hin) as (u & r' & _ & Hr' & Hlr & _). congruence.
    + rewrite Hother in Hi by done. eapply Forall_lookup_1 in Hd; eauto.
  - intros i. rewrite elem_of_underused, Hn. done.
  - intros i Hi. destruct (Hrow i Hi) as (u & r & Hu & Hr & _ & Hk).
    exists u. split_and!; [done | | ].
    + apply normalised_convex; [intros; apply Hrand | by apply Hsum].
    + intros k Hlt. rewrite (row_lookup _ _ _ Hr). by apply Hk.
  - done.
  - intros HU. rewrite (Hempty HU). apply set_codebook_same.
Qed.

Lemma expire_codes_recycles_witness :
  exists self',
    CodebookLayer.expire_codes half_draw 1 two_codes = (self', Ok tt)
    /\ shape2 2 1 (data (CodebookLayer.codebook self')).
Proof.
  destruct (expire_codes_recycles half_draw 1 two_codes 2 1)
    as (self' & Hrun & Hshape & _).
  - split; [reflexivity | repeat constructor].
  - reflexivity.
  - intros u c. unfold half_draw. lra.
  - intros u _. unfold big_sum, half_draw, tabulate, Torch.sum. simpl. lra.
  - exists self'. split; [exact Hrun | exact Hshape].
Defined.

(** C3.  The defect, on a layer that has seen no input.  With threshold 0, a
    code that was never selected has count 0, which is not below the
    threshold; [expire_codes] overwrites it all the same, against its
    docstring (it replaces the codes with activation count below the
    threshold; the threshold is the minimum count to not get replaced). *)
Lemma expire_codes_overwrites_unrecorded :
  (0 <= Counter.count (CodebookLayer.counts two_codes) 0)%Z
  /\ row (data (CodebookLayer.codebook
                  (CodebookLayer.expire_codes half_draw 0 two_codes).1)) 0
     <> row (data (CodebookLayer.codebook two_codes)) 0.
Proof.
  split; [done|].
  destruct (expire_codes_rows half_draw 0 two_codes)
    as (weight' & -> & _ & _ & Hput & _). simpl.
  assert (0%nat ∈ CodebookLayer.underused two_codes 0) as Hin.
  { apply elem_of_underused. split; [simpl; lia | done]. }
  destruct (Hput 0%nat Hin) as (u & Hu & Hrow).
  destruct (new_codes_row half_draw 1 (size (CodebookLayer.underused two_codes 0))
              (data (CodebookLayer.codebook two_codes)) u) as (r & Hr & _ & Hk);
    [repeat constructor | done |].
  unfold new_codes in Hrow. simpl in Hrow, Hr. rewrite Hr in Hrow.
  rewrite (row_lookup _ _ _ Hrow). intros Heq.
  specialize (Hk 0%nat ltac:(lia)). rewrite Heq in Hk.
  unfold combination, big_sum, drawn_weight, half_draw, tabulate, Torch.sum, row in Hk.
  simpl in Hk.
  assert (big_sum 2 (fun _ => 1 / 2) = 1)%R as Hs
    by (unfold big_sum, tabulate, Torch.sum; simpl; lra).
  rewrite Hs in Hk. lra.
Qed.

(** C10.  [expire_codes] leaves the usage counter as it was, so that a second
    call with the same threshold finds the same underused codes, overwrites
    each of them again with a row of its own draw, and leaves the other rows
    alone; the counter is still the one from before the first call. *)
Theorem expire_codes_keeps_counter (rand rand' : nat -> nat -> R) (threshold : Z)
    (self : CodebookLayer.t) :
  let self' := (CodebookLayer.expire_codes rand threshold self).1 in
  let self'' := (CodebookLayer.expire_codes rand' threshold self').1 in
  CodebookLayer.counts self' = CodebookLayer.counts self
  /\ CodebookLayer.underused self' threshold = CodebookLayer.underused self threshold
  /\ CodebookLayer.counts self'' = CodebookLayer.counts self
  /\ (forall i, i ∈ CodebookLayer.underused self threshold ->
        exists u, (u < size (CodebookLayer.underused self threshold))%nat
          /\ data (CodebookLayer.codebook self'') !! i
             = new_codes rand' self' threshold !! u)
  /\ (forall i, i ∉ CodebookLayer.underused self threshold ->
        data (CodebookLayer.codebook self'') !! i
        = data (CodebookLayer.codebook self') !! i).
Proof.
  intros self' self''.
  pose proof (expire_codes_counts rand threshold self) as Hc1.
  pose proof (expire_codes_underused rand threshold self) as Hu1.
  pose proof (expire_codes_counts rand' threshold self') as Hc2.
  fold self' in Hc1, Hu1. fold self'' in Hc2.
  destruct (expire_codes_rows rand' threshold self')
    as (weight'' & Hrun & _ & Hother & Hput & _).
  assert (data (CodebookLayer.codebook self'') = weight'') as Hdata.
  { subst self''. by rewrite Hrun. }
  rewrite Hu1 in Hother, Hput.
  split_and!; [done | done | congruence | |].
  - intros i Hi. rewrite Hdata. by apply Hput.
  - intros i Hi. rewrite Hdata. by apply Hother.
Qed.

(** C6.  A row of hard-mode forward calls on a layer with at least one code,
    on batches of the width of the codebook: every call returns, and
    afterwards the count of every code is its count from before plus the
    number of positions, over all the calls, at which the code was selected;
    from an empty counter it is that number.  The counter is touched by
    nothing else: a soft-mode forward call and [expire_codes] leave it as it
    was. *)
Theorem usage_counter_accumulates (self : CodebookLayer.t) (xs : list Tensor3)
    (n d : nat) :
  CodebookLayer.soft_snap self = false ->
  data (CodebookLayer.codebook self) <> [] ->
  shape2 n d (data (CodebookLayer.codebook self)) ->
  Forall (batch_of d) xs ->
  (exists self' outs,
     forward_each xs self = (self', Ok outs)
     /\ length outs = length xs
     /\ CodebookLayer.codebook self' = CodebookLayer.codebook self
     /\ (forall c, Counter.count (CodebookLayer.counts self') c
           = (Counter.count (CodebookLayer.counts self) c
              + total_selected c self xs)%Z)
     /\ (CodebookLayer.counts self = ∅ ->
         forall c, Counter.count (CodebookLayer.counts self') c
           = total_selected c self xs))
  /\ (forall (x : Tensor3) (soft : CodebookLayer.t),
        CodebookLayer.soft_snap soft = true ->
        CodebookLayer.counts (CodebookLayer.forward x soft).1
        = CodebookLayer.counts soft)
  /\ (forall rand threshold (any : CodebookLayer.t),
        CodebookLayer.counts (CodebookLayer.expire_codes rand threshold any).1
        = CodebookLayer.counts any).
Proof.
  intros Hsoft Hne HW Hxs. split_and!.
  - destruct (forward_each_counts xs self Hsoft Hne)
      as (counts' & outs & Hrun & Hlen & Hcounts).
    { by eapply same_width_batches. }
    eexists _, outs. split_and!; [exact Hrun | done | done | exact Hcounts |].
    intros Hempty c. simpl. rewrite Hcounts, Hempty.
    unfold Counter.count at 1. rewrite lookup_empty. simpl. lia.
  - intros x soft Hs. by rewrite forward_soft.
  - intros. apply expire_codes_counts.
Qed.

(** The codebook of orthogonal unit vectors, probed with its own rows. *)
Lemma usage_counter_accumulates_witness :
  exists self' outs,
    forward_each [[[[1; 0]; [0; 1]]]; [[[0; 1]]]]%R
      (CodebookLayer.__init__ (fun r c => if decide (r = c) then 1 else 0)%R 2 2
         false InnerProductSnapFunction_cls) = (self', Ok outs)
    /\ length outs = 2%nat.
Proof.
  destruct (usage_counter_accumulates
              (CodebookLayer.__init__ (fun r c => if decide (r = c) then 1 else 0)%R 2 2
                 false InnerProductSnapFunction_cls)
              [[[[1; 0]; [0; 1]]]; [[[0; 1]]]]%R 2 2)
    as [(self' & outs & Hrun & Hlen & _) _].
  - reflexivity.
  - discriminate.
  - split; [reflexivity | repeat constructor].
  - repeat constructor.
    + exists 1%nat, 2%nat. split; [reflexivity | repeat constructor].
    + exists 1%nat, 1%nat. split; [reflexivity | repeat constructor].
  - exists self', outs. split; [exact Hrun | exact Hlen].
Defined.

(** ** Soft mode *)

Lemma sum_rows_of (f : Vector -> R) (weight : Matrix) :
  Torch.sum (map f weight) = big_sum (length weight) (fun c => f (row weight c)).
Proof.
  unfold big_sum. f_equal. apply list_eq. intros c.
  rewrite list_lookup_fmap. destruct (decide (c < length weight)%nat) as [Hc|Hc].
  - rewrite tabulate_lookup by done.
    destruct (lookup_lt_is_Some_2 weight c Hc) as [r Hr].
    by rewrite Hr, (row_lookup _ _ _ Hr).
  - rewrite (lookup_ge_None_2 weight) by lia.
    rewrite lookup_ge_None_2; [done | rewrite tabulate_length; lia].
Qed.

(** The softmax of the scores of [v] is the table of the weights of the
    specification. *)
Lemma softmax1_scores (v : Vector) (weight : Matrix) :
  softmax1 (map (fun c => dot v c) weight)
  = tabulate (length weight) (spec_softmax_weight v weight).
Proof.
  unfold softmax1. rewrite <- !list_fmap_compose.
  rewrite (sum_rows_of (fun c => exp (dot v c))).
  apply list_eq. intros c. rewrite list_lookup_fmap.
  destruct (decide (c < length weight)%nat) as [Hc|Hc].
  - rewrite tabulate_lookup by done.
    destruct (lookup_lt_is_Some_2 weight c Hc) as [r Hr].
    rewrite Hr. simpl. unfold spec_softmax_weight. by rewrite (row_lookup _ _ _ Hr).
  - rewrite (lookup_ge_None_2 weight) by lia.
    rewrite lookup_ge_None_2; [done | rewrite tabulate_length; lia].
Qed.

Lemma spec_softmax_convex (v : Vector) (weight : Matrix) :
  weight <> [] -> convex (length weight) (spec_softmax_weight v weight).
Proof.
  intros Hne. apply (normalised_convex (length weight)
                       (fun c => exp (dot v (row weight c)))).
  - intros c _. left. apply exp_pos.
  - apply big_sum_pos; [destruct weight; [done | simpl; lia]|].
    intros c _. apply exp_pos.
Qed.




(** ** The backward pass *)

(** C4.  Whenever the backward pass of a snap function returns, the gradient
    it returns for the inputs is the incoming gradient of the outputs,
    whatever that gradient is and whatever codes the forward pass selected;
    it returns whenever the codebook takes part in the graph, and the forward
    pass of either class followed by the backward pass hands the incoming
    gradient through. *)
Theorem backward_straight_through (grad_outputs : Tensor3)
    (grad_codebook_ids : option (list (list R))) :
  (forall ctx grad_inputs grad_codebook,
     BaseSnapFunction.backward ctx grad_outputs grad_codebook_ids
       = Ok (grad_inputs, grad_codebook) ->
     grad_inputs = grad_outputs)
  /\ (forall ctx, requires_grad (saved_codebook ctx) = true ->
        exists grad_codebook,
          BaseSnapFunction.backward ctx grad_outputs grad_codebook_ids
          = Ok (grad_outputs, grad_codebook))
  /\ (forall (b p d n : nat) (x : Tensor3) (codebook : Param Matrix),
        shape3 b p d x -> shape2 n d (data codebook) ->
        data codebook <> [] -> requires_grad codebook = true ->
        (exists ctx out ids grad_codebook,
           EuclideanSnapFunction.forward x codebook = Ok (ctx, (out, ids))
           /\ EuclideanSnapFunction.backward ctx grad_outputs grad_codebook_ids
              = Ok (grad_outputs, grad_codebook))
        /\ (exists ctx out ids grad_codebook,
           InnerProductSnapFunction.forward x codebook = Ok (ctx, (out, ids))
           /\ InnerProductSnapFunction.backward ctx grad_outputs grad_codebook_ids
              = Ok (grad_outputs, grad_codebook))).
Proof.
  assert (Hback : forall ctx, requires_grad (saved_codebook ctx) = true ->
    exists grad_codebook,
      BaseSnapFunction.backward ctx grad_outputs grad_codebook_ids
      = Ok (grad_outputs, grad_codebook)).
  { intros ctx Hreq. unfold BaseSnapFunction.backward, autograd_grad.
    rewrite Hreq. run_monad. eauto. }
  split_and!; [| exact Hback |].
  - intros ctx gi gc. unfold BaseSnapFunction.backward, autograd_grad.
    destruct (requires_grad (saved_codebook ctx)); run_monad; [|done].
    by intros [= <- _].
  - intros b p d n x codebook Hx HW Hne Hreq.
    pose proof (same_width_shapes b p d n x (data codebook) Hx HW) as Hwidth.
    split.
    + destruct (apply_total EuclideanSnapFunction_cls x codebook Hwidth Hne)
        as (out & ids & Happly).
      unfold apply in Happly.
      destruct (EuclideanSnapFunction.forward x codebook) as [[ctx [out' ids']]|] eqn:Hf;
        [|done].
      assert (saved_codebook ctx = codebook) as Hsaved.
      { unfold EuclideanSnapFunction.forward in Hf.
        destruct (cdist _ _); run_monad; [|done].
        destruct (argmin _ _); run_monad; [|done]. by injection Hf as <- _ _. }
      destruct (Hback ctx) as [gc Hgc]; [by rewrite Hsaved|].
      by exists ctx, out', ids', gc.
    + destruct (apply_total InnerProductSnapFunction_cls x codebook Hwidth Hne)
        as (out & ids & Happly).
      unfold apply in Happly.
      destruct (InnerProductSnapFunction.forward x codebook) as [[ctx [out' ids']]|] eqn:Hf;
        [|done].
      assert (saved_codebook ctx = codebook) as Hsaved.
      { unfold InnerProductSnapFunction.forward in Hf.
        destruct (matmul_T _ _); run_monad; [|done].
        destruct (argmax _ _); run_monad; [|done]. by injection Hf as <- _ _. }
      destruct (Hback ctx) as [gc Hgc]; [by rewrite Hsaved|].
      by exists ctx, out', ids', gc.
Qed.

Lemma backward_straight_through_witness :
  exists ctx out ids grad_codebook,
    EuclideanSnapFunction.forward [[[1; 0]]]%R
      {| data := [[1; 0]; [0; 1]]%R; requires_grad := true |} = Ok (ctx, (out, ids))
    /\ EuclideanSnapFunction.backward ctx [[[5; 7]]]%R None
       = Ok ([[[5; 7]]]%R, grad_codebook).
Proof.
  destruct (backward_straight_through [[[5; 7]]]%R None) as (_ & _ & Hboth).
  destruct (Hboth 1%nat 1%nat 2%nat 2%nat [[[1; 0]]]%R
              {| data := [[1; 0]; [0; 1]]%R; requires_grad := true |})
    as [Heuclid _].
  - split; [reflexivity | repeat constructor].
  - split; [reflexivity | repeat constructor].
  - discriminate.
  - reflexivity.
  - exact Heuclid.
Defined.

(** ** Parameters of the backbone *)

Lemma LayerModule_induction {Args Aux} (P : LayerModule Args Aux -> Prop) :
  (forall l, P (Plain l)) ->
  (forall w, P (TransformerLayerWrapper.transformer_layer w) -> P (Wrapped w)) ->
  forall m, P m.
Proof.
  intros HP HW. fix IH 1. intros [l|w].
  - apply HP.
  - apply HW. destruct w as [inner c s]. simpl. apply IH.
Qed.

Lemma module_set_flags_flags {Args Aux} (b : bool) (m : LayerModule Args Aux) :
  Forall (fun f => f = b) (module_flags (module_set_flags b m)).
Proof.
  induction m as [l|w IH] using LayerModule_induction; simpl.
  - rewrite <- list_fmap_compose. apply Forall_fmap, Forall_true. done.
  - apply Forall_app. split; [exact IH | by repeat constructor].
Qed.

(** After [set_flags b] every parameter of the backbone has flag [b]. *)
Lemma set_flags_flags {Args Aux} (b : bool) (model : Backbone Args Aux) :
  Forall (fun f => f = b) (parameters_flags (set_flags b model)).
Proof.
  unfold parameters_flags, set_flags. simpl. apply Forall_app. split.
  - rewrite <- list_fmap_compose. apply Forall_fmap, Forall_true. done.
  - apply Forall_concat. rewrite <- list_fmap_compose.
    apply Forall_fmap, Forall_true. intros m. apply module_set_flags_flags.
Qed.

(** ** The constructor of the composer *)

Lemma normalize_at_in_range (n : Z) (l : list Z) (i : nat) (v : Z) :
  (Z.of_nat i < n)%Z -> l !! i = Some v ->
  CodebookModel.normalize_at n l i = Ok (<[i := norm_index n v]> l).
Proof.
  intros Hi Hv. unfold CodebookModel.normalize_at, norm_index.
  rewrite bool_decide_eq_true_2 by lia. rewrite Hv.
  case_bool_decide; [done|]. by rewrite list_insert_id.
Qed.

Lemma normalize_at_out_of_range (n : Z) (l : list Z) (i : nat) :
  (n <= Z.of_nat i)%Z -> CodebookModel.normalize_at n l i = Raise AssertionError.
Proof.
  intros Hi. unfold CodebookModel.normalize_at.
  rewrite bool_decide_eq_false_2 by lia. done.
Qed.

(** The rounds for the positions of [mid], in a list [pre ++ mid ++ post]. *)
Lemma normalize_loop_from (n : Z) (mid : list Z) : forall pre post : list Z,
  (Z.of_nat (length pre + length mid) <= Z.max 0 n)%Z ->
  CodebookModel.normalize_loop n (pre ++ mid ++ post) (seq (length pre) (length mid))
  = Ok (pre ++ map (norm_index n) mid ++ post).
Proof.
  induction mid as [|v mid IH]; intros pre post Hlen; simpl.
  - done.
  - simpl in Hlen. rewrite (normalize_at_in_range n _ _ v).
    + run_monad. rewrite insert_app_r_alt, Nat.sub_diag by done. simpl.
      replace (pre ++ norm_index n v :: mid ++ post)
        with ((pre ++ [norm_index n v]) ++ mid ++ post) by (by rewrite <- app_assoc).
      replace (S (length pre)) with (length (pre ++ [norm_index n v]))
        by (rewrite length_app; simpl; lia).
      rewrite IH; [by rewrite <- app_assoc|].
      rewrite length_app. simpl. lia.
    + lia.
    + by rewrite lookup_app_r, Nat.sub_diag.
Qed.

(** The assertion of the loop looks at the position: it holds in every round
    exactly when the list is no longer than the backbone has layers. *)
Lemma normalize_loop_Ok (n : Z) (l : list Z) :
  (Z.of_nat (length l) <= Z.max 0 n)%Z ->
  CodebookModel.normalize_loop n l (seq 0 (length l)) = Ok (map (norm_index n) l).
Proof.
  intros Hlen. pose proof (normalize_loop_from n l [] [] Hlen) as H.
  simpl in H. by rewrite !app_nil_r in H.
Qed.

Lemma normalize_loop_app (n : Z) (r1 r2 : list nat) : forall l : list Z,
  CodebookModel.normalize_loop n l (r1 ++ r2)
  = l' ← CodebookModel.normalize_loop n l r1; CodebookModel.normalize_loop n l' r2.
Proof.
  induction r1 as [|i r1 IH]; intros l; simpl; [done|].
  run_monad. destruct (CodebookModel.normalize_at n l i); [apply IH | done].
Qed.

(** On a list longer than the backbone has layers the assertion fails,
    whatever the indices in the list are. *)
Lemma normalize_loop_too_long (n : Z) (l : list Z) :
  (Z.max 0 n < Z.of_nat (length l))%Z ->
  CodebookModel.normalize_loop n l (seq 0 (length l)) = Raise AssertionError.
Proof.
  intros Hlen. set (k := Z.to_nat (Z.max 0 n)).
  assert (k < length l)%nat as Hk by lia.
  replace (length l) with (k + S (length l - S k))%nat at 1 by lia.
  rewrite seq_app, normalize_loop_app. simpl.
  rewrite <- (take_drop k l) at 1.
  pose proof (normalize_loop_from n (take k l) [] (drop k l)) as Hpre.
  rewrite length_take_le in Hpre by lia. simpl in Hpre.
  rewrite Hpre by lia. run_monad.
  rewrite normalize_at_out_of_range by lia. done.
Qed.

Lemma normalize_loop_no_ValueError (n : Z) (range : list nat) : forall l : list Z,
  CodebookModel.normalize_loop n l range <> Raise ValueError.
Proof.
  induction range as [|i range IH]; intros l; simpl; [done|].
  unfold CodebookModel.normalize_at. run_monad.
  case_bool_decide; [|done].
  destruct (l !! i); [|done]. case_bool_decide; apply IH.
Qed.

(** The constructor, in one equation. *)
Lemma init_run {Args Aux} (model : Backbone Args Aux) (num_codes : nat)
    (layers_to_snap : list Z) (similarity_metric : string) :
  CodebookModel.__init__ num_codes layers_to_snap similarity_metric model
  = match CodebookModel.normalize_loop (num_hidden_layers model) layers_to_snap
            (seq 0 (length layers_to_snap)) with
    | Raise e => (model, Raise e)
    | Ok l =>
        (set_flags false model,
         if decide (similarity_metric = "euclidean") then
           Ok {| CodebookModel.num_codes := num_codes;
                 CodebookModel.layers_to_snap := CodebookModel.sorted l;
                 CodebookModel.codebook_params := [];
                 CodebookModel.model_params := [];
                 CodebookModel.all_codebooks := [];
                 CodebookModel.snap_fn := EuclideanSnapFunction_cls |}
         else if decide (similarity_metric = "inner_product") then
           Ok {| CodebookModel.num_codes := num_codes;
                 CodebookModel.layers_to_snap := CodebookModel.sorted l;
                 CodebookModel.codebook_params := [];
                 CodebookModel.model_params := [];
                 CodebookModel.all_codebooks := [];
                 CodebookModel.snap_fn := InnerProductSnapFunction_cls |}
         else Raise ValueError)
    end.
Proof.
  unfold CodebookModel.__init__, CodebookModel.num_layers,
    CodebookModel.freeze_model_params. run_monad.
  destruct (CodebookModel.normalize_loop _ _ _); [|done].
  repeat case_decide; done.
Qed.

(** C9.  When the constructor raises [ValueError], the metric is not one of
    the two recognised ones, and the backbone the caller handed over is left
    with [requires_grad] off on every parameter: the failed construction has
    frozen it.  This is what happens for every unrecognised metric when the
    assertion of the loop holds. *)
Theorem init_not_atomic {Args Aux : Type} (model : Backbone Args Aux)
    (num_codes : nat) (layers_to_snap : list Z) (similarity_metric : string) :
  (forall model',
     CodebookModel.__init__ num_codes layers_to_snap similarity_metric model
       = (model', Raise ValueError) ->
     similarity_metric <> "euclidean" /\ similarity_metric <> "inner_product"
     /\ model' = set_flags false model
     /\ Forall (fun f => f = false) (parameters_flags model'))
  /\ ((Z.of_nat (length layers_to_snap) <= Z.max 0 (num_hidden_layers model))%Z ->
      similarity_metric <> "euclidean" -> similarity_metric <> "inner_product" ->
      CodebookModel.__init__ num_codes layers_to_snap similarity_metric model
        = (set_flags false model, Raise ValueError)).
Proof.
  rewrite init_run. split.
  - intros model'.
    destruct (CodebookModel.normalize_loop _ _ _) as [l|e] eqn:Hloop.
    + repeat case_decide; try done. intros [= <-].
      split_and!; [done | done | done | apply set_flags_flags].
    + intros [= _ ->]. by apply normalize_loop_no_ValueError in Hloop.
  - intros Hlen H1 H2. rewrite normalize_loop_Ok by done.
    by rewrite !decide_False by done.
Qed.

Lemma init_not_atomic_witness :
  parameters_flags six_layers = replicate 7 true
  /\ exists model',
       CodebookModel.__init__ 16 [0%Z] "cosine" six_layers = (model', Raise ValueError)
       /\ parameters_flags model' = replicate 7 false.
Proof.
  split; [reflexivity|].
  exists (set_flags false six_layers). split; [|reflexivity].
  apply (init_not_atomic six_layers 16 [0%Z] "cosine").
  - vm_compute. discriminate.
  - discriminate.
  - discriminate.
Defined.

(** ** Adding the codebooks *)

Lemma add_codebooks_fold {Args Aux} (init : nat -> nat -> nat -> R) (hidden : nat)
    (count : nat) : forall (start : nat) (self : CodebookModel.t)
                           (layers : list (LayerModule Args Aux)),
  (start + count <= length layers)%nat ->
  exists self' layers',
    foldl (fun st i => CodebookModel.add_codebook_at init hidden i st)
          (self, layers) (seq start count) = (self', layers')
    /\ CodebookModel.layers_to_snap self' = CodebookModel.layers_to_snap self
    /\ CodebookModel.num_codes self' = CodebookModel.num_codes self
    /\ CodebookModel.snap_fn self' = CodebookModel.snap_fn self
    /\ CodebookModel.all_codebooks self'
       = CodebookModel.all_codebooks self
         ++ filter (fun i => CodebookModel.selected self i = true) (seq start count)
    /\ length layers' = length layers
    /\ forall i m, layers !! i = Some m ->
         layers' !! i
         = Some (if decide (start <= i < start + count)%nat
                 then wrapped_at init hidden self i m else m).
Proof.
  induction count as [|count IH]; intros start self layers Hlen.
  - exists self, layers. simpl. rewrite app_nil_r.
    split_and!; try done. intros i m Hm. rewrite decide_False by lia. done.
  - simpl.
    destruct (lookup_lt_is_Some_2 layers start) as [m0 Hm0]; [lia|].
    set (self1 := {| CodebookModel.num_codes := CodebookModel.num_codes self;
                     CodebookModel.layers_to_snap := CodebookModel.layers_to_snap self;
                     CodebookModel.codebook_params := CodebookModel.codebook_params self;
                     CodebookModel.model_params := CodebookModel.model_params self ++ [start];
                     CodebookModel.all_codebooks := CodebookModel.all_codebooks self;
                     CodebookModel.snap_fn := CodebookModel.snap_fn self |}).
    assert (Hsel1 : forall i, CodebookModel.selected self1 i = CodebookModel.selected self i)
      by done.
    rewrite Hsel1, Hm0. rewrite filter_cons.
    destruct (decide (CodebookModel.selected self start = true)) as [Hsel|Hsel];
      [|apply not_true_is_false in Hsel]; rewrite Hsel.
    + match goal with |- context [foldl _ (?s, ?ls) _] =>
        destruct (IH (S start) s ls) as (self' & layers' & Hrun & H1 & H2 & H3 & H4 & H5 & H6)
      end; [rewrite length_insert; lia|].
      exists self', layers'. rewrite Hrun. simpl in *.
      split_and!; try done.
      * rewrite H4. by rewrite <- app_assoc.
      * by rewrite H5, length_insert.
      * intros i m Hm. destruct (decide (i = start)) as [->|Hne].
        -- rewrite (H6 start (wrapped_at init hidden self start m0)).
           ++ rewrite decide_False by lia. rewrite decide_True by lia.
              rewrite Hm0 in Hm. by injection Hm as ->.
           ++ rewrite list_lookup_insert_eq by (by eapply lookup_lt_Some).
              unfold wrapped_at. by rewrite Hsel.
        -- rewrite (H6 i m) by (by rewrite list_lookup_insert_ne).
           unfold wrapped_at. repeat case_decide; try lia; done.
    + destruct (IH (S start) self1 layers) as (self' & layers' & Hrun & H1 & H2 & H3 & H4 & H5 & H6);
        [lia|].
      exists self', layers'. rewrite Hrun. simpl in *.
      split_and!; try done.
      intros i m Hm. rewrite (H6 i m Hm).
        destruct (decide (i = start)) as [->|Hne].
        -- rewrite decide_False by lia. rewrite decide_True by lia.
           unfold wrapped_at. by rewrite Hsel.
        -- unfold wrapped_at. rewrite !Hsel1. repeat case_decide; try lia; done.
Qed.

(** [add_codebooks] returns; it wraps the layers at the selected positions
    and registers each of them once. *)
Lemma add_codebooks_run {Args Aux} (init : nat -> nat -> nat -> R)
    (self : CodebookModel.t) (model : Backbone Args Aux) :
  exists self' layers',
    CodebookModel.add_codebooks init self model = (set_layer layers' model, Ok self')
    /\ CodebookModel.layers_to_snap self' = CodebookModel.layers_to_snap self
    /\ CodebookModel.all_codebooks self'
       = CodebookModel.all_codebooks self
         ++ filter (fun i => CodebookModel.selected self i = true)
              (seq 0 (length (layer model)))
    /\ length layers' = length (layer model)
    /\ forall i m, layer model !! i = Some m ->
         layers' !! i = Some (wrapped_at init (hidden_size model) self i m).
Proof.
  destruct (add_codebooks_fold init (hidden_size model) (length (layer model)) 0
              self (layer model)) as (self' & layers' & Hrun & H1 & _ & _ & H4 & H5 & H6);
    [lia|].
  exists self', layers'. unfold CodebookModel.add_codebooks. run_monad.
  rewrite Hrun. split_and!; try done.
  intros i m Hm. rewrite (H6 i m Hm). rewrite decide_True; [done|].
  apply lookup_lt_Some in Hm. lia.
Qed.

Lemma selected_spec (self : CodebookModel.t) (i : nat) :
  CodebookModel.selected self i = true
  <-> Z.of_nat i ∈ CodebookModel.layers_to_snap self.
Proof. unfold CodebookModel.selected. apply bool_decide_eq_true. Qed.

(** The concrete constructors: [CodebookModel.__init__], then
    [add_codebooks]. *)
Lemma concrete_init_run {Args Aux} (init : nat -> nat -> nat -> R)
    (model : Backbone Args Aux) (num_codes : nat) (layers_to_snap : list Z)
    (similarity_metric : string) (self : CodebookModel.t) :
  CodebookModel.__init__ num_codes layers_to_snap similarity_metric model
    = (set_flags false model, Ok self) ->
  CodebookModel.all_codebooks self = [] ->
  exists self' model',
    BertCodebookModel.__init__ init num_codes layers_to_snap similarity_metric model
      = (model', Ok self')
    /\ GPT2CodebookModel.__init__ init num_codes layers_to_snap similarity_metric model
      = (model', Ok self')
    /\ CodebookModel.layers_to_snap self' = CodebookModel.layers_to_snap self
    /\ NoDup (CodebookModel.all_codebooks self')
    /\ forall i, i ∈ CodebookModel.all_codebooks self'
         <-> (i < length (layer model))%nat
             /\ Z.of_nat i ∈ CodebookModel.layers_to_snap self.
Proof.
  intros Hinit Hreg.
  destruct (add_codebooks_run init self (set_flags false model))
    as (self' & layers' & Hadd & Hsnap & Hall & _ & _).
  exists self', (set_layer layers' (set_flags false model)).
  unfold BertCodebookModel.__init__, GPT2CodebookModel.__init__.
  unfold mbind, M_bind. rewrite Hinit, Hadd.
  rewrite Hreg in Hall. simpl in Hall. rewrite length_fmap in Hall.
  split_and!; [done | done | done | |].
  - rewrite Hall. apply NoDup_filter, NoDup_seq.
  - intros i. rewrite Hall, list_elem_of_filter, elem_of_seq, selected_spec.
    split; [intros [? ?]; split; [lia | done] | intros [? ?]; split; [done | lia]].
Qed.

(** C2, as the code has it.  When the list of indices is no longer than the
    backbone has layers and the metric is a recognised one, the constructor
    returns; every negative index has the number of layers added to it; the
    list it keeps is sorted in ascending order and is a permutation of the
    normalised indices, so that an index given twice is kept twice.  It is
    the registry of the concrete constructors that has one entry per selected
    layer. *)
Theorem layers_to_snap_normalized_sorted {Args Aux : Type}
    (init : nat -> nat -> nat -> R) (model : Backbone Args Aux) (num_codes : nat)
    (layers_to_snap : list Z) (similarity_metric : string) :
  (Z.of_nat (length layers_to_snap) <= Z.max 0 (num_hidden_layers model))%Z ->
  similarity_metric = "euclidean" \/ similarity_metric = "inner_product" ->
  exists self,
    CodebookModel.__init__ num_codes layers_to_snap similarity_metric model
      = (set_flags false model, Ok self)
    /\ CodebookModel.layers_to_snap self
       = CodebookModel.sorted (map (norm_index (num_hidden_layers model)) layers_to_snap)
    /\ Sorted Z.le (CodebookModel.layers_to_snap self)
    /\ CodebookModel.layers_to_snap self
       ≡ₚ map (norm_index (num_hidden_layers model)) layers_to_snap
    /\ exists self' model',
         BertCodebookModel.__init__ init num_codes layers_to_snap similarity_metric model
           = (model', Ok self')
         /\ CodebookModel.layers_to_snap self' = CodebookModel.layers_to_snap self
         /\ NoDup (CodebookModel.all_codebooks self')
         /\ forall i, i ∈ CodebookModel.all_codebooks self'
              <-> (i < length (layer model))%nat
                  /\ Z.of_nat i ∈ CodebookModel.layers_to_snap self.
Proof.
  intros Hlen Hmetric.
  pose proof (init_run model num_codes layers_to_snap similarity_metric) as Hrun.
  rewrite normalize_loop_Ok in Hrun by done.
  assert (exists self,
    CodebookModel.__init__ num_codes layers_to_snap similarity_metric model
      = (set_flags false model, Ok self)
    /\ CodebookModel.layers_to_snap self
       = CodebookModel.sorted (map (norm_index (num_hidden_layers model)) layers_to_snap)
    /\ CodebookModel.all_codebooks self = []) as (self & Hinit & Hsnap & Hreg).
  { rewrite Hrun. destruct Hmetric as [-> | ->]; simpl; eauto. }
  exists self. split_and!; [done | done | | |].
  - rewrite Hsnap. apply Sorted_merge_sort; apply _.
  - rewrite Hsnap. apply merge_sort_Permutation.
  - destruct (concrete_init_run init model num_codes layers_to_snap similarity_metric
                self Hinit Hreg) as (self' & model' & Hbert & _ & Hrest).
    eauto.
Qed.

Lemma layers_to_snap_normalized_sorted_witness :
  exists self,
    CodebookModel.__init__ 16 [-1; -2]%Z "euclidean" six_layers
      = (set_flags false six_layers, Ok self)
    /\ CodebookModel.layers_to_snap self = [4; 5]%Z.
Proof.
  destruct (layers_to_snap_normalized_sorted no_draw six_layers 16 [-1; -2]%Z "euclidean")
    as (self & Hinit & Hsnap & _).
  - vm_compute. discriminate.
  - left. reflexivity.
  - exists self. split; [exact Hinit | exact Hsnap].
Defined.

(** C2, counterexample to the claim as stated.  On a backbone of six layers
    the indices 5 and -1 name the same layer; the list the constructor keeps
    has it twice. *)
Lemma duplicate_indices_kept :
  exists self,
    (CodebookModel.__init__ 16 [5; -1]%Z "euclidean" six_layers).2 = Ok self
    /\ CodebookModel.layers_to_snap self = [5; 5]%Z
    /\ ~ NoDup (CodebookModel.layers_to_snap self).
Proof.
  eexists. split; [vm_compute; reflexivity|]. split; [reflexivity|].
  simpl. intros Hnd. apply NoDup_cons in Hnd as [Hnotin _]. apply Hnotin. left.
Qed.

(** C1, the code at the failing input.  On a backbone of six layers the
    index 10 is not the index of a layer, and neither is -10 once the number
    of layers is added to it; both constructors accept them, keep them in the
    list and add no codebook. *)
Lemma out_of_range_index_accepted :
  ~ (0 <= 10 < num_hidden_layers six_layers)%Z
  /\ ~ (0 <= norm_index (num_hidden_layers six_layers) (-10)
          < num_hidden_layers six_layers)%Z
  /\ (exists self,
        (CodebookModel.__init__ 16 [10]%Z "euclidean" six_layers).2 = Ok self
        /\ CodebookModel.layers_to_snap self = [10]%Z)
  /\ (exists self,
        (BertCodebookModel.__init__ no_draw 16 [10]%Z "euclidean" six_layers).2 = Ok self
        /\ CodebookModel.layers_to_snap self = [10]%Z
        /\ CodebookModel.all_codebooks self = [])
  /\ (exists self,
        (GPT2CodebookModel.__init__ no_draw 16 [-10]%Z "euclidean" six_layers).2 = Ok self
        /\ CodebookModel.layers_to_snap self = [-4]%Z
        /\ CodebookModel.all_codebooks self = []).
Proof.
  split_and!.
  - vm_compute. intros [_ H]. discriminate.
  - vm_compute. intros [H _]. by apply H.
  - eexists. split; [vm_compute; reflexivity | reflexivity].
  - eexists. split; [vm_compute; reflexivity | split; reflexivity].
  - eexists. split; [vm_compute; reflexivity | split; reflexivity].
Qed.

(** ** The wrapper *)

Section WrapperForward.
Context {Args Aux Inner : Type}.
Variable call_inner : Args -> M Inner (list (Output Aux)).
Variable self : TransformerLayerWrapper.t Inner.
Variable args : Args.

(** With [snap] off the wrapper hands back what the wrapped layer returned,
    an exception included, and leaves its codebook layer alone. *)
Lemma wrapper_forward_disabled (inner' : Inner) (r : outcome (list (Output Aux))) :
  call_inner args (TransformerLayerWrapper.transformer_layer self) = (inner', r) ->
  TransformerLayerWrapper.snap self = false ->
  TransformerLayerWrapper.forward call_inner args self
  = (TransformerLayerWrapper.set_transformer_layer inner' self, r).
Proof.
  intros Hinner Hsnap. unfold TransformerLayerWrapper.forward. run_monad.
  rewrite Hinner. destruct r; simpl; [|done]. by rewrite Hsnap.
Qed.

(** With [snap] on the first element goes through the codebook layer and the
    other elements are handed back as they are. *)
Lemma wrapper_forward_enabled (inner' : Inner) (h : Tensor3)
    (rest : list (Output Aux)) (c' : CodebookLayer.t) (res : outcome Tensor3) :
  call_inner args (TransformerLayerWrapper.transformer_layer self)
    = (inner', Ok (Act h :: rest)) ->
  TransformerLayerWrapper.snap self = true ->
  CodebookLayer.forward h (TransformerLayerWrapper.codebook_layer self) = (c', res) ->
  TransformerLayerWrapper.forward call_inner args self
  = (TransformerLayerWrapper.set_codebook_layer c'
       (TransformerLayerWrapper.set_transformer_layer inner' self),
     (fun o => Act o :: rest) <$> res).
Proof.
  intros Hinner Hsnap Hcb. unfold TransformerLayerWrapper.forward. run_monad.
  rewrite Hinner. simpl. rewrite Hsnap. simpl.
  unfold TransformerLayerWrapper.snap_first. run_monad. rewrite Hcb.
  by destruct res.
Qed.

(** Whatever the wrapped layer returns, a wrapper that returns with [snap]
    on has changed the first element only. *)
Lemma wrapper_forward_arity (inner' : Inner) (r : outcome (list (Output Aux)))
    (self' : TransformerLayerWrapper.t Inner) (outs' : list (Output Aux)) :
  call_inner args (TransformerLayerWrapper.transformer_layer self) = (inner', r) ->
  TransformerLayerWrapper.snap self = true ->
  TransformerLayerWrapper.forward call_inner args self = (self', Ok outs') ->
  exists outs, r = Ok outs /\ length outs' = length outs /\ tail outs' = tail outs
    /\ exists h o, head outs = Some (Act h) /\ head outs' = Some (Act o).
Proof.
  intros Hinner Hsnap. destruct r as [[|[h|a|a] rest]|e].
  - unfold TransformerLayerWrapper.forward. run_monad.
    rewrite Hinner. simpl. rewrite Hsnap. done.
  - destruct (CodebookLayer.forward h (TransformerLayerWrapper.codebook_layer self))
      as [c' res] eqn:Hcb.
    rewrite (wrapper_forward_enabled inner' h rest c' res Hinner Hsnap Hcb).
    destruct res as [o|]; simpl; [|done]. intros [= _ <-].
    exists (Act h :: rest). split_and!; [done | done | done |]. by exists h, o.
  - unfold TransformerLayerWrapper.forward. run_monad.
    rewrite Hinner. simpl. rewrite Hsnap. done.
  - unfold TransformerLayerWrapper.forward. run_monad.
    rewrite Hinner. simpl. rewrite Hsnap. done.
  - unfold TransformerLayerWrapper.forward. run_monad.
    rewrite Hinner. simpl. done.
Qed.
End WrapperForward.

(** Calling a wrapper with [snap] off returns what calling the wrapped module
    returns. *)
Lemma call_disabled {Args Aux} (w : TransformerLayerWrapper.t (LayerModule Args Aux))
    (args : Args) :
  TransformerLayerWrapper.snap w = false ->
  (call (Wrapped w) args).2 = (call (TransformerLayerWrapper.transformer_layer w) args).2
  /\ exists w', (call (Wrapped w) args).1 = Wrapped w'
       /\ TransformerLayerWrapper.codebook_layer w'
          = TransformerLayerWrapper.codebook_layer w.
Proof.
  intros Hsnap. simpl.
  destruct (call (TransformerLayerWrapper.transformer_layer w) args) as [inner' r] eqn:Hc.
  rewrite (wrapper_forward_disabled (fun a inner => call inner a) w args inner' r Hc Hsnap).
  simpl. eauto.
Qed.

(** The composed model with every codebook disabled: each module of the
    layer list returns what the module it was built from returns. *)
Lemma disabled_model_layers {Args Aux} (init : nat -> nat -> nat -> R)
    (self : CodebookModel.t) (model : Backbone Args Aux) :
  exists self1 model1 model2,
    CodebookModel.add_codebooks init self model = (model1, Ok self1)
    /\ CodebookModel.disable_codebooks self1 model1 = (model2, Ok tt)
    /\ length (layer model2) = length (layer model)
    /\ forall i m0, layer model !! i = Some m0 ->
         exists m2, layer model2 !! i = Some m2
           /\ forall args, (call m2 args).2 = (call m0 args).2.
Proof.
  destruct (add_codebooks_run init self model)
    as (self1 & layers1 & Hadd & Hsnap & _ & Hlen & Hlayers).
  eexists self1, _, _. split; [exact Hadd|]. split; [reflexivity|]. simpl.
  split; [by rewrite length_imap|].
  intros i m0 Hm0. rewrite list_lookup_imap, (Hlayers i m0 Hm0). simpl.
  eexists. split; [done|]. intros args.
  unfold CodebookModel.set_snap_at, wrapped_at.
  assert (CodebookModel.selected self1 i = CodebookModel.selected self i) as ->.
  { unfold CodebookModel.selected. by rewrite Hsnap. }
  destruct (CodebookModel.selected self i); [|done].
  apply call_disabled. done.
Qed.

(** C8.  A wrapper whose [snap] flag is off returns the output of the wrapped
    layer as it is and leaves its codebook layer alone, so that in the
    composed model with every codebook disabled each layer returns what the
    layer of the backbone returns.  A wrapper whose flag is on replaces
    element 0 of the tuple with the output of its codebook layer and hands
    the other elements back unchanged: the tuple keeps its length. *)
Theorem wrapper_pass_through {Args Aux : Type} :
  (forall (Inner : Type) (call_inner : Args -> M Inner (list (Output Aux)))
          (self : TransformerLayerWrapper.t Inner) (args : Args)
          (inner' : Inner) (r : outcome (list (Output Aux))),
     call_inner args (TransformerLayerWrapper.transformer_layer self) = (inner', r) ->
     (TransformerLayerWrapper.snap self = false ->
      TransformerLayerWrapper.forward call_inner args self
      = (TransformerLayerWrapper.set_transformer_layer inner' self, r))
     /\ (TransformerLayerWrapper.snap self = true ->
         (forall h rest c' res,
            r = Ok (Act h :: rest) ->
            CodebookLayer.forward h (TransformerLayerWrapper.codebook_layer self)
              = (c', res) ->
            TransformerLayerWrapper.forward call_inner args self
            = (TransformerLayerWrapper.set_codebook_layer c'
                 (TransformerLayerWrapper.set_transformer_layer inner' self),
               (fun o => Act o :: rest) <$> res))
         /\ (forall self' outs',
               TransformerLayerWrapper.forward call_inner args self = (self', Ok outs') ->
               exists outs, r = Ok outs /\ length outs' = length outs
                 /\ tail outs' = tail outs
                 /\ exists h o, head outs = Some (Act h) /\ head outs' = Some (Act o))))
  /\ (forall (init : nat -> nat -> nat -> R) (self : CodebookModel.t)
             (model : Backbone Args Aux),
        exists self1 model1 model2,
          CodebookModel.add_codebooks init self model = (model1, Ok self1)
          /\ CodebookModel.disable_codebooks self1 model1 = (model2, Ok tt)
          /\ length (layer model2) = length (layer model)
          /\ forall i m0, layer model !! i = Some m0 ->
               exists m2, layer model2 !! i = Some m2
                 /\ forall args, (call m2 args).2 = (call m0 args).2).
Proof.
  split.
  - intros Inner call_inner self args inner' r Hinner. split; [|intros Hsnap; split].
    + by apply wrapper_forward_disabled.
    + intros h rest c' res ->. by apply wrapper_forward_enabled.
    + intros self' outs'. by apply (wrapper_forward_arity _ _ _ inner').
  - apply disabled_model_layers.
Qed.

Lemma wrapper_pass_through_witness :
  let w := TransformerLayerWrapper.set_snap false
             (TransformerLayerWrapper.__init__ (no_draw 0) (Plain a_layer) 2 16
                EuclideanSnapFunction_cls) in
  TransformerLayerWrapper.forward (fun a inner => call inner a) tt w
  = (w, layer_forward a_layer tt).
Proof.
  intros w.
  destruct (@wrapper_pass_through unit unit) as [Hwrapper _].
  destruct (Hwrapper (LayerModule unit unit) (fun a inner => call inner a) w tt
              (Plain a_layer) (layer_forward a_layer tt)) as [Hoff _].
  - reflexivity.
  - apply Hoff. reflexivity.
Defined.

(** ** Worked examples *)

(** Among equal best entries the first one is taken. *)
Example argmax1_first_of_equals : argmax1 [1; 3; 2; 3]%R = Ok 1%nat.
Proof.
  unfold argmax1, scan, gtb. repeat case_bool_decide; try lra. reflexivity.
Qed.

Example argmin1_first_of_equals : argmin1 [2; 1; 1]%R = Ok 1%nat.
Proof.
  unfold argmin1, scan, ltb. repeat case_bool_decide; try lra. reflexivity.
Qed.

(** A codebook of orthogonal unit vectors, probed with each of them in turn,
    selects exactly that row, under either metric. *)
Example probe_inner_product :
  apply InnerProductSnapFunction_cls [[[1; 0]; [0; 1]]]%R
    {| data := [[1; 0]; [0; 1]]%R; requires_grad := true |}
  = Ok ([[[1; 0]; [0; 1]]]%R, [[0; 1]]%nat).
Proof.
  unfold apply, InnerProductSnapFunction.forward, argmax, matmul_T. simpl.
  unfold argmax1, scan, gtb, dot, Torch.sum. simpl.
  repeat case_bool_decide; try lra. reflexivity.
Qed.

Example probe_euclidean :
  apply EuclideanSnapFunction_cls [[[1; 0]; [0; 1]]]%R
    {| data := [[1; 0]; [0; 1]]%R; requires_grad := true |}
  = Ok ([[[1; 0]; [0; 1]]]%R, [[0; 1]]%nat).
Proof.
  assert (dist [1; 0] [1; 0] = 0 /\ dist [0; 1] [0; 1] = 0)%R as [Ha Hb].
  { unfold dist, Torch.sum. simpl. split.
    - replace ((1 - 1) * (1 - 1) + ((0 - 0) * (0 - 0) + 0))%R with 0%R by lra.
      apply sqrt_0.
    - replace ((0 - 0) * (0 - 0) + ((1 - 1) * (1 - 1) + 0))%R with 0%R by lra.
      apply sqrt_0. }
  assert (0 < dist [1; 0] [0; 1] /\ 0 < dist [0; 1] [1; 0])%R as [Hc Hd].
  { unfold dist, Torch.sum. simpl. split; apply sqrt_lt_R0; lra. }
  unfold apply, EuclideanSnapFunction.forward, argmin, cdist. simpl.
  unfold argmin1, scan, ltb. rewrite Ha, Hb.
  repeat case_bool_decide; try lra. reflexivity.
Qed.

(** Three selections, two of them of code 0. *)
Example update_counts :
  Counter.count (Counter.update ∅ [0; 1; 0]%nat) 0 = 2%Z
  /\ Counter.count (Counter.update ∅ [0; 1; 0]%nat) 1 = 1%Z
  /\ Counter.update ∅ [0; 1; 0]%nat !! 2%nat = None.
Proof. split_and!; reflexivity. Qed.

(** A backbone of four layers, sixteen codes, layers 0 and -1: the registry
    has the two keys 0 and 3. *)
Example registry_of_four_layers :
  let four_layers : Backbone unit unit :=
    {| other_parameters := []; layer := replicate 4 (Plain a_layer);
       num_hidden_layers := 4; hidden_size := 8 |} in
  exists self,
    (GPT2CodebookModel.__init__ no_draw 16 [0; -1]%Z "euclidean" four_layers).2 = Ok self
    /\ CodebookModel.layers_to_snap self = [0; 3]%Z
    /\ CodebookModel.all_codebooks self = [0; 3]%nat.
Proof.
  eexists. split; [vm_compute; reflexivity | split; reflexivity].
Qed.

(** Seven valid indices on a backbone of six layers: the assertion on the
    position fails, although every index names a layer. *)
Example seven_indices_rejected :
  (CodebookModel.__init__ 16 [0; 1; 2; 3; 4; 5; 0]%Z "euclidean" six_layers).2
  = Raise AssertionError.
Proof. vm_compute. reflexivity. Qed.

(** * Further properties *)

(** ** The counter along forward calls *)

Lemma update_app (c : gmap nat Z) (l1 l2 : list nat) :
  Counter.update c (l1 ++ l2) = Counter.update (Counter.update c l1) l2.
Proof. unfold Counter.update. apply foldl_app. Qed.

Lemma update_lookup_None (l : list nat) : forall (c : gmap nat Z) (i : nat),
  Counter.update c l !! i = None <-> c !! i = None /\ i ∉ l.
Proof.
  unfold Counter.update.
  induction l as [|j l IH]; intros c i; simpl.
  - rewrite elem_of_nil. tauto.
  - rewrite IH, lookup_insert_None, not_elem_of_cons. split.
    + intros [[? ?] ?]. auto.
    + intros [? [? ?]]. auto.
Qed.

Lemma lookup_count (c : gmap nat Z) (i : nat) (v : Z) :
  c !! i = Some v -> Counter.count c i = v.
Proof. unfold Counter.count. by intros ->. Qed.

Lemma occurrences_nonneg c l : (0 <= occurrences c l)%Z.
Proof. unfold occurrences. lia. Qed.

Lemma occurrences_zero c l : occurrences c l = 0%Z <-> c ∉ l.
Proof.
  induction l as [|i l IH].
  - rewrite occurrences_nil, elem_of_nil. tauto.
  - rewrite occurrences_cons, not_elem_of_cons.
    pose proof (occurrences_nonneg c l).
    destruct (decide (i = c)) as [->|Hne]; [split; [lia | tauto]|].
    rewrite <- IH. split; [intros; split; [congruence | lia] | intros [_ ?]; lia].
Qed.

(** Both snap functions return indices within the codebook, one per
    position. *)
Lemma apply_ids (snap_fn : SnapFunction) (x : Tensor3) (codebook : Param Matrix) :
  same_width x (data codebook) ->
  data codebook <> [] ->
  exists ids,
    apply snap_fn x codebook = Ok (embedding ids (data codebook), ids)
    /\ Forall2 (Forall2 (fun (v : Vector) (k : nat) =>
                           (k < length (data codebook))%nat)) x ids.
Proof.
  intros Hwidth Hne.
  assert (length (data codebook) <> 0%nat) as Hlen.
  { destruct (data codebook); [done | simpl; lia]. }
  assert (forall v (score : Vector -> Vector -> R), map (score v) (data codebook) <> [])
    as Hscores.
  { intros v score Hnil. by apply fmap_nil_inv in Hnil. }
  destruct snap_fn; unfold apply.
  - destruct (traverse_scores argmin1 dist x (data codebook)) as (ids & Hids & H2).
    { intros v. destruct (argmin1_spec _ (Hscores v dist)) as (k & _ & Hk & _). eauto. }
    exists ids. unfold EuclideanSnapFunction.forward, argmin, cdist.
    rewrite decide_True by done. csimpl.
    rewrite decide_False by done. rewrite Hids. run_monad. split; [done|].
    eapply Forall2_impl; [exact H2|]. intros xb idb Hb.
    eapply Forall2_impl; [exact Hb|]. intros v k Hk. simpl in Hk.
    destruct (argmin1_spec _ (Hscores v dist)) as (k' & m & Hk' & Hm & _).
    rewrite Hk in Hk'. injection Hk' as <-.
    apply lookup_lt_Some in Hm. by rewrite length_fmap in Hm.
  - destruct (traverse_scores argmax1 dot x (data codebook)) as (ids & Hids & H2).
    { intros v. destruct (argmax1_spec _ (Hscores v dot)) as (k & _ & Hk & _). eauto. }
    exists ids. unfold InnerProductSnapFunction.forward, argmax, matmul_T.
    rewrite decide_True by done. csimpl.
    rewrite decide_False by done. rewrite Hids. run_monad. split; [done|].
    eapply Forall2_impl; [exact H2|]. intros xb idb Hb.
    eapply Forall2_impl; [exact Hb|]. intros v k Hk. simpl in Hk.
    destruct (argmax1_spec _ (Hscores v dot)) as (k' & m & Hk' & Hm & _).
    rewrite Hk in Hk'. injection Hk' as <-.
    apply lookup_lt_Some in Hm. by rewrite length_fmap in Hm.
Qed.

Lemma Forall2_concat_flat {A B} (P : A -> B -> Prop) (x : list (list A))
    (y : list (list B)) :
  Forall2 (Forall2 P) x y -> Forall2 P (concat x) (concat y).
Proof.
  induction 1 as [|xb yb x y Hb _ IH]; simpl; [constructor|].
  by apply Forall2_app.
Qed.

(** The selections of a batch: one code of the codebook per position. *)
Lemma selections_spec (self : CodebookLayer.t) (x : Tensor3) :
  same_width x (data (CodebookLayer.codebook self)) ->
  data (CodebookLayer.codebook self) <> [] ->
  length (selections self x) = positions x
  /\ Forall (fun k => (k < length (data (CodebookLayer.codebook self)))%nat)
            (selections self x).
Proof.
  intros Hwidth Hne.
  destruct (apply_ids (CodebookLayer.snap_fn self) x _ Hwidth Hne) as (ids & Hrun & H2).
  unfold selections. rewrite Hrun. apply Forall2_concat_flat in H2.
  split.
  - unfold positions. symmetry. by eapply Forall2_length.
  - apply Forall_forall. intros k Hk. apply list_elem_of_lookup in Hk as [j Hj].
    destruct (Forall2_lookup_r _ _ _ _ _ H2 Hj) as (v & _ & Hlt). done.
Qed.

Lemma all_selections_lt (self : CodebookLayer.t) (xs : list Tensor3) :
  Forall (fun x => same_width x (data (CodebookLayer.codebook self))) xs ->
  data (CodebookLayer.codebook self) <> [] ->
  Forall (fun k => (k < length (data (CodebookLayer.codebook self)))%nat)
         (all_selections self xs).
Proof.
  intros Hwidth Hne. unfold all_selections. apply Forall_concat, Forall_fmap.
  eapply Forall_impl; [exact Hwidth|]. intros x Hx. by apply selections_spec.
Qed.

Lemma all_selections_length (self : CodebookLayer.t) (xs : list Tensor3) :
  Forall (fun x => same_width x (data (CodebookLayer.codebook self))) xs ->
  data (CodebookLayer.codebook self) <> [] ->
  length (all_selections self xs) = sum_list (map positions xs).
Proof.
  intros Hwidth Hne. unfold all_selections.
  induction Hwidth as [|x xs Hx _ IH]; csimpl; [done|].
  rewrite length_app, IH. f_equal. by apply selections_spec.
Qed.

Lemma total_selected_occurrences c (self : CodebookLayer.t) (xs : list Tensor3) :
  total_selected c self xs = occurrences c (all_selections self xs).
Proof.
  unfold total_selected, all_selections. induction xs as [|x xs IH]; csimpl.
  - by rewrite occurrences_nil.
  - by rewrite occurrences_app, IH.
Qed.

(** Hard forward calls in a row feed the counter with all the selections. *)
Lemma forward_each_update (xs : list Tensor3) : forall self : CodebookLayer.t,
  CodebookLayer.soft_snap self = false ->
  data (CodebookLayer.codebook self) <> [] ->
  Forall (fun x => same_width x (data (CodebookLayer.codebook self))) xs ->
  exists outs,
    forward_each xs self
    = (CodebookLayer.set_counts
         (Counter.update (CodebookLayer.counts self) (all_selections self xs)) self,
       Ok outs)
    /\ length outs = length xs.
Proof.
  induction xs as [|x xs IH]; intros self Hsoft Hne Hwidth.
  - exists []. split; [by destruct self | done].
  - apply Forall_cons in Hwidth as [Hx Hwidth].
    destruct (apply_total (CodebookLayer.snap_fn self) x _ Hx Hne)
      as (out & ids & Happly).
    pose proof (forward_hard self x out ids Hsoft Happly) as Hfwd.
    set (self1 := CodebookLayer.set_counts
                    (Counter.update (CodebookLayer.counts self) (concat ids)) self) in *.
    destruct (IH self1) as (outs & Hrest & Hlen); [done | done | done |].
    exists (out :: outs). split; [|simpl; lia].
    simpl. unfold mbind at 1, M_bind. rewrite Hfwd.
    unfold mbind at 1, M_bind. rewrite Hrest. simpl.
    unfold all_selections. csimpl. rewrite update_app.
    unfold selections at 2. rewrite Happly. done.
Qed.

Lemma update_counter_ok (n : nat) (l : list nat) : forall c : gmap nat Z,
  counter_ok n c -> Forall (fun k => (k < n)%nat) l ->
  counter_ok n (Counter.update c l).
Proof.
  unfold Counter.update.
  induction l as [|k l IH]; intros c Hc Hl; simpl; [done|].
  apply Forall_cons in Hl as [Hk Hl]. apply IH; [|done].
  intros i v Hi. apply lookup_insert_Some in Hi as [[<- <-]|[_ Hi]]; [|by apply Hc].
  split; [done|]. unfold Counter.count.
  destruct (c !! k) as [w|] eqn:Hw; simpl; [|lia].
  destruct (Hc k w Hw). lia.
Qed.

Lemma count_total_insert (n : nat) (c : gmap nat Z) (k : nat) :
  (k < n)%nat ->
  count_total n (<[k := (Counter.count c k + 1)%Z]> c) = (count_total n c + 1)%Z.
Proof.
  unfold count_total. intros Hk.
  assert (forall start len,
    foldr Z.add 0%Z
      (map (Counter.count (<[k := (Counter.count c k + 1)%Z]> c)) (seq start len))
    = (foldr Z.add 0%Z (map (Counter.count c) (seq start len))
       + (if decide (start <= k < start + len)%nat then 1 else 0))%Z) as Hgen.
  { intros start len. revert start. induction len as [|len IH]; intros start; csimpl.
    - rewrite decide_False by lia. lia.
    - rewrite IH, count_insert.
      destruct (decide (k = start)) as [->|Hne].
      + rewrite decide_False by lia. rewrite decide_True by lia. lia.
      + repeat case_decide; lia. }
  rewrite Hgen. rewrite decide_True by lia. done.
Qed.

Lemma count_total_update (n : nat) (l : list nat) : forall c : gmap nat Z,
  Forall (fun k => (k < n)%nat) l ->
  count_total n (Counter.update c l) = (count_total n c + Z.of_nat (length l))%Z.
Proof.
  unfold Counter.update.
  induction l as [|k l IH]; intros c Hl; simpl; [lia|].
  apply Forall_cons in Hl as [Hk Hl].
  rewrite IH by done. rewrite count_total_insert by done. lia.
Qed.

(** X1.  The counter along hard forward calls on batches of the width of the
    codebook: it keeps holding codes of the codebook only, each with a
    positive count, and the counts of all the codes together grow by the
    number of positions of the batches: every position is counted once,
    under exactly one code. *)
Theorem counter_invariant (self : CodebookLayer.t) (xs : list Tensor3) (n d : nat) :
  CodebookLayer.soft_snap self = false ->
  data (CodebookLayer.codebook self) <> [] ->
  shape2 n d (data (CodebookLayer.codebook self)) ->
  Forall (batch_of d) xs ->
  counter_ok (length (data (CodebookLayer.codebook self))) (CodebookLayer.counts self) ->
  exists self' outs,
    forward_each xs self = (self', Ok outs)
    /\ counter_ok (length (data (CodebookLayer.codebook self)))
         (CodebookLayer.counts self')
    /\ count_total (length (data (CodebookLayer.codebook self)))
         (CodebookLayer.counts self')
       = (count_total (length (data (CodebookLayer.codebook self)))
            (CodebookLayer.counts self)
          + Z.of_nat (sum_list (map positions xs)))%Z.
Proof.
  intros Hsoft Hne HW Hxs Hok.
  pose proof (same_width_batches d n xs _ Hxs HW) as Hwidth.
  destruct (forward_each_update xs self Hsoft Hne Hwidth) as (outs & Hrun & _).
  eexists _, outs. split; [exact Hrun|]. simpl.
  pose proof (all_selections_lt self xs Hwidth Hne) as Hlt.
  split; [by apply update_counter_ok|].
  rewrite count_total_update by done. by rewrite all_selections_length.
Qed.

Lemma counter_invariant_witness :
  let probes := CodebookLayer.__init__ (fun r c => if decide (r = c) then 1 else 0)%R
                  2 2 false InnerProductSnapFunction_cls in
  exists self' outs,
    forward_each [[[[1; 0]; [0; 1]]]; [[[0; 1]]]]%R probes = (self', Ok outs)
    /\ count_total 2 (CodebookLayer.counts self') = 3%Z.
Proof.
  intros probes.
  destruct (counter_invariant probes [[[[1; 0]; [0; 1]]]; [[[0; 1]]]]%R 2 2)
    as (self' & outs & Hrun & _ & Htotal).
  - reflexivity.
  - discriminate.
  - split; [reflexivity | repeat constructor].
  - repeat constructor.
    + exists 1%nat, 2%nat. split; [reflexivity | repeat constructor].
    + exists 1%nat, 1%nat. split; [reflexivity | repeat constructor].
  - intros i v Hi. subst probes. simpl in Hi. rewrite lookup_empty in Hi.
    discriminate.
  - exists self', outs. split; [exact Hrun | exact Htotal].
Defined.

(** ** Expiration after forward calls *)

Lemma is_underused_update_empty (l : list nat) (threshold : Z) (c : nat) :
  is_underused (Counter.update ∅ l) threshold c
  <-> occurrences c l = 0%Z \/ (occurrences c l < threshold)%Z.
Proof.
  unfold is_underused.
  pose proof (count_update l ∅ c) as Hcount.
  unfold Counter.count at 2 in Hcount. rewrite lookup_empty in Hcount. simpl in Hcount.
  destruct (Counter.update ∅ l !! c) as [v|] eqn:Hv.
  - rewrite (lookup_count _ _ _ Hv) in Hcount. subst v.
    assert (occurrences c l <> 0%Z) as Hnz.
    { rewrite occurrences_zero. intros Hnotin.
      assert (Counter.update ∅ l !! c = None) as Hnone
        by (apply update_lookup_None; by rewrite lookup_empty).
      congruence. }
    split; [auto | intros [?|?]; [done | lia]].
  - apply update_lookup_None in Hv as [_ Hnotin].
    apply occurrences_zero in Hnotin. tauto.
Qed.

(** X2.  Hard forward calls on batches of the width of the codebook, on a
    layer with at least one code and an empty counter, then [expire_codes]:
    the underused codes are the codes that were never selected, whatever the
    threshold is, and the codes selected fewer times than the threshold; a
    code selected at least once and at least [threshold] times keeps its
    row. *)
Theorem expire_after_hard_forward (rand : nat -> nat -> R) (threshold : Z)
    (self : CodebookLayer.t) (xs : list Tensor3) (n d : nat) :
  CodebookLayer.soft_snap self = false ->
  data (CodebookLayer.codebook self) <> [] ->
  shape2 n d (data (CodebookLayer.codebook self)) ->
  Forall (batch_of d) xs ->
  CodebookLayer.counts self = ∅ ->
  exists self' outs,
    forward_each xs self = (self', Ok outs)
    /\ (forall c, c ∈ CodebookLayer.underused self' threshold
          <-> (c < length (data (CodebookLayer.codebook self)))%nat
              /\ (total_selected c self xs = 0%Z
                  \/ (total_selected c self xs < threshold)%Z))
    /\ (forall c, (0 < total_selected c self xs)%Z ->
          (threshold <= total_selected c self xs)%Z ->
          data (CodebookLayer.codebook
                  (CodebookLayer.expire_codes rand threshold self').1) !! c
          = data (CodebookLayer.codebook self) !! c).
Proof.
  intros Hsoft Hne HW Hxs Hempty.
  pose proof (same_width_batches d n xs _ Hxs HW) as Hwidth.
  destruct (forward_each_update xs self Hsoft Hne Hwidth) as (outs & Hrun & _).
  eexists _, outs. split; [exact Hrun|].
  set (self' := CodebookLayer.set_counts _ self).
  assert (Hunder : forall c, c ∈ CodebookLayer.underused self' threshold
    <-> (c < length (data (CodebookLayer.codebook self)))%nat
        /\ (total_selected c self xs = 0%Z \/ (total_selected c self xs < threshold)%Z)).
  { intros c. rewrite elem_of_underused. subst self'. simpl.
    by rewrite Hempty, is_underused_update_empty, total_selected_occurrences. }
  split; [exact Hunder|].
  intros c Hpos Hge.
  destruct (expire_codes_rows rand threshold self') as (weight' & -> & _ & Hother & _).
  simpl. apply (Hother c). rewrite Hunder. lia.
Qed.

Lemma expire_after_hard_forward_witness :
  let probes := CodebookLayer.__init__ (fun r c => if decide (r = c) then 1 else 0)%R
                  2 2 false InnerProductSnapFunction_cls in
  exists self' outs,
    forward_each [[[[1; 0]; [0; 1]]]]%R probes = (self', Ok outs)
    /\ forall c, c ∈ CodebookLayer.underused self' 1
         <-> (c < 2)%nat
             /\ (total_selected c probes [[[[1; 0]; [0; 1]]]]%R = 0%Z
                 \/ (total_selected c probes [[[[1; 0]; [0; 1]]]]%R < 1)%Z).
Proof.
  intros probes.
  destruct (expire_after_hard_forward half_draw 1 probes [[[[1; 0]; [0; 1]]]]%R 2 2)
    as (self' & outs & Hrun & Hunder & _).
  - reflexivity.
  - discriminate.
  - split; [reflexivity | repeat constructor].
  - repeat constructor. exists 1%nat, 2%nat. split; [reflexivity | repeat constructor].
  - reflexivity.
  - exists self', outs. split; [exact Hrun | exact Hunder].
Defined.

(** Soft forward calls leave the layer as it was, whether they return or
    raise. *)
Lemma forward_each_soft_frame (xs : list Tensor3) (self : CodebookLayer.t) :
  CodebookLayer.soft_snap self = true -> (forward_each xs self).1 = self.
Proof.
  intros Hsoft. induction xs as [|x xs IH]; simpl; [done|].
  unfold mbind at 1, M_bind. rewrite (forward_soft self x Hsoft).
  destruct (CodebookLayer.soft_output _ x _) as [out|e]; [|done].
  unfold mbind at 1, M_bind.
  destruct (forward_each xs self) as [self' [outs|e]]; simpl in *; done.
Qed.

Lemma forward_each_soft (xs : list Tensor3) (self : CodebookLayer.t) (n : nat) :
  CodebookLayer.soft_snap self = true ->
  shape2 n (CodebookLayer.dim self) (data (CodebookLayer.codebook self)) ->
  Forall (batch_of (CodebookLayer.dim self)) xs ->
  exists outs, forward_each xs self = (self, Ok outs) /\ length outs = length xs.
Proof.
  intros Hsoft HW. induction 1 as [|x xs Hx _ (outs & IH & Hlen)]; simpl.
  - by exists [].
  - eexists. unfold mbind at 1, M_bind. rewrite (forward_soft self x Hsoft).
    rewrite (soft_output_run _ _ n x _ Hx HW).
    unfold mbind at 1, M_bind. rewrite IH. split; [done|]. simpl. lia.
Qed.

(** X3.  A layer in soft mode never feeds its counter.  Soft forward calls
    leave the layer as it was, whether they return or raise, and on batches
    of the width of the codebook they return, one output per batch.  So
    after any soft forward calls on a layer whose counter is empty, every
    code of the codebook is underused for every threshold, zero and negative
    ones included, and [expire_codes] writes a new row over each of them. *)
Theorem expire_after_soft_forward (rand : nat -> nat -> R) (threshold : Z)
    (self : CodebookLayer.t) (xs : list Tensor3) :
  CodebookLayer.soft_snap self = true ->
  CodebookLayer.counts self = ∅ ->
  let after := (forward_each xs self).1 in
  after = self
  /\ (forall n,
        shape2 n (CodebookLayer.dim self) (data (CodebookLayer.codebook self)) ->
        Forall (batch_of (CodebookLayer.dim self)) xs ->
        exists outs,
          forward_each xs self = (self, Ok outs) /\ length outs = length xs)
  /\ (forall c, c ∈ CodebookLayer.underused after threshold
        <-> (c < length (data (CodebookLayer.codebook self)))%nat)
  /\ (forall c, (c < length (data (CodebookLayer.codebook self)))%nat ->
        exists u,
          (u < length (data (CodebookLayer.codebook self)))%nat
          /\ data (CodebookLayer.codebook
                     (CodebookLayer.expire_codes rand threshold after).1) !! c
             = new_codes rand self threshold !! u).
Proof.
  intros Hsoft Hempty after.
  assert (Hframe : after = self) by (by apply forward_each_soft_frame).
  rewrite Hframe. clear after Hframe.
  split; [done|]. split; [intros n HW Hxs; by eapply forward_each_soft|].
  assert (Hall : forall c, c ∈ CodebookLayer.underused self threshold
    <-> (c < length (data (CodebookLayer.codebook self)))%nat).
  { intros c. rewrite elem_of_underused. unfold is_underused.
    rewrite Hempty, lookup_empty. tauto. }
  split; [exact Hall|].
  intros c Hc.
  destruct (expire_codes_rows rand threshold self) as (weight' & -> & _ & _ & Hput & _).
  simpl. destruct (Hput c) as (u & Hu & Hrow); [by apply Hall|].
  exists u. split; [|done].
  assert (size (CodebookLayer.underused self threshold)
          = length (data (CodebookLayer.codebook self))) as <-; [|done].
  assert (CodebookLayer.underused self threshold
          = list_to_set (seq 0 (length (data (CodebookLayer.codebook self))))) as ->.
  { apply set_eq. intros i. rewrite Hall, elem_of_list_to_set, elem_of_seq. lia. }
  rewrite size_list_to_set by apply NoDup_seq. by rewrite length_seq.
Qed.

Lemma expire_after_soft_forward_witness :
  let soft := CodebookLayer.__init__ (fun r c => if decide (r = c) then 1 else 0)%R
                2 2 true EuclideanSnapFunction_cls in
  exists outs,
    forward_each [[[[1; 0]]]]%R soft = (soft, Ok outs)
    /\ forall c, c ∈ CodebookLayer.underused soft 0 <-> (c < 2)%nat.
Proof.
  intros soft.
  destruct (expire_after_soft_forward half_draw 0 soft [[[[1; 0]]]]%R)
    as (Hframe & Hrun & Hall & _).
  - reflexivity.
  - reflexivity.
  - destruct (Hrun 2%nat) as (outs & Houts & _).
    + split; [reflexivity | repeat constructor].
    + repeat constructor. exists 1%nat, 1%nat.
      split; [reflexivity | repeat constructor].
    + exists outs. split; [exact Houts|]. intros c. specialize (Hall c).
      rewrite Hframe in Hall. exact Hall.
Defined.

(** ** A codebook without codes *)

(** X4.  An input of shape (b, p, dim), [dim] being the width of the
    codebook.  On a codebook without codes a hard-mode forward call raises
    [IndexError] and leaves the layer as it was, while a soft-mode call
    returns the zero vector of length [dim] at every position; with at least
    one code the call returns in both modes. *)
Theorem forward_without_codes (self : CodebookLayer.t) (x : Tensor3) (n : nat) :
  batch_of (CodebookLayer.dim self) x ->
  shape2 n (CodebookLayer.dim self) (data (CodebookLayer.codebook self)) ->
  ((n = 0)%nat ->
     (CodebookLayer.soft_snap self = false ->
        CodebookLayer.forward x self = (self, Raise IndexError))
     /\ (CodebookLayer.soft_snap self = true ->
        CodebookLayer.forward x self
        = (self, Ok (map (map (fun _ => zeros (CodebookLayer.dim self))) x))))
  /\ ((0 < n)%nat ->
      exists out, (CodebookLayer.forward x self).2 = Ok out).
Proof.
  intros Hx HW.
  pose proof (same_width_batch _ _ _ _ Hx HW) as Hwidth.
  split.
  - intros Hn.
    assert (Hnil : data (CodebookLayer.codebook self) = []).
    { destruct HW as [Hlen _]. rewrite Hn in Hlen. by apply nil_length_inv. }
    split; intros Hsoft.
    + unfold CodebookLayer.forward. run_monad. rewrite Hsoft. simpl.
      unfold apply, EuclideanSnapFunction.forward, InnerProductSnapFunction.forward,
        cdist, matmul_T.
      rewrite !decide_True by done. csimpl. unfold argmin, argmax.
      rewrite Hnil. by destruct (CodebookLayer.snap_fn self).
    + rewrite (forward_soft self x Hsoft).
      rewrite (soft_output_run _ _ n x _ Hx HW). f_equal. f_equal. rewrite Hnil.
      unfold softmax.
      rewrite <- !list_fmap_compose. apply list_fmap_ext. intros i xb _. simpl.
      rewrite <- !list_fmap_compose. apply list_fmap_ext. intros j v _. done.
  - intros Hn.
    assert (Hne : data (CodebookLayer.codebook self) <> []).
    { destruct HW as [Hlen _]. intros Hnil. rewrite Hnil in Hlen. simpl in Hlen. lia. }
    destruct (CodebookLayer.soft_snap self) eqn:Hsoft.
    + rewrite (forward_soft self x Hsoft), (soft_output_run _ _ n x _ Hx HW). eauto.
    + destruct (apply_total (CodebookLayer.snap_fn self) x _ Hwidth Hne)
        as (out & ids & Happly).
      rewrite (forward_hard self x out ids Hsoft Happly). eauto.
Qed.

Lemma forward_without_codes_witness :
  CodebookLayer.forward [[[1; 2]]]%R
    (CodebookLayer.__init__ (fun _ _ => 0%R) 2 0 false EuclideanSnapFunction_cls)
  = (CodebookLayer.__init__ (fun _ _ => 0%R) 2 0 false EuclideanSnapFunction_cls,
     Raise IndexError).
Proof.
  destruct (forward_without_codes
              (CodebookLayer.__init__ (fun _ _ => 0%R) 2 0 false EuclideanSnapFunction_cls)
              [[[1; 2]]]%R 0) as [Hnone _].
  - exists 1%nat, 1%nat. split; [reflexivity | repeat constructor].
  - split; [reflexivity | constructor].
  - destruct Hnone as [Hhard _]; [reflexivity|].
    apply Hhard. reflexivity.
Defined.

(** ** The gradient of the codebook *)

Lemma nth_lookup_default {A} (l : list A) (k : nat) (dflt x : A) :
  l !! k = Some x -> nth k l dflt = x.
Proof. intros H. by apply nth_lookup_Some with (d := dflt). Qed.

Lemma shape2_row_nth n d (m : Matrix) c :
  shape2 n d m -> (c < n)%nat -> exists r, m !! c = Some r /\ length r = d.
Proof.
  intros [Hn Hd] Hc. destruct (lookup_lt_is_Some_2 m c) as [r Hr]; [lia|].
  exists r. split; [done|]. eapply Forall_lookup_1 in Hd; eauto.
Qed.

(** The fold of [scatter_add]: what it adds to an accumulator of the shape
    of the codebook. *)
Lemma scatter_fold n d (ids : list nat) : forall (gs : list Vector) (acc : Matrix),
  shape2 n d acc -> Forall (fun i => (i < n)%nat) ids ->
  Forall (fun v => length v = d) gs ->
  let r := foldl (fun acc ig => alter (zip_with Rplus ig.2) ig.1 acc) acc (zip ids gs) in
  shape2 n d r
  /\ forall c k, (c < n)%nat -> (k < d)%nat ->
       nth k (row r c) 0%R = (nth k (row acc c) 0 + routed ids gs c k)%R.
Proof.
  induction ids as [|i ids IH]; intros gs acc Hacc Hids Hgs; simpl.
  - split; [done|]. intros c k _ _. unfold routed, Torch.sum. simpl. lra.
  - destruct gs as [|g gs]; simpl.
    { split; [done|]. intros c k _ _. unfold routed, Torch.sum. simpl. lra. }
    apply Forall_cons in Hids as [Hi Hids]. apply Forall_cons in Hgs as [Hg Hgs].
    destruct (shape2_row_nth n d acc i Hacc Hi) as (ri & Hri & Hlri).
    assert (shape2 n d (alter (zip_with Rplus g) i acc)) as Hacc1.
    { destruct Hacc as [Hn Hd]. split; [by rewrite length_alter|].
      apply Forall_lookup. intros c r Hr.
      destruct (decide (c = i)) as [->|Hne].
      - rewrite list_lookup_alter_eq, Hri in Hr. simpl in Hr. injection Hr as <-.
        rewrite length_zip_with. lia.
      - rewrite list_lookup_alter_ne in Hr by done.
        eapply Forall_lookup_1 in Hd; eauto. }
    destruct (IH gs _ Hacc1 Hids Hgs) as [Hshape Hentries].
    split; [exact Hshape|]. intros c k Hc Hk. rewrite (Hentries c k Hc Hk).
    unfold routed at 2. csimpl. unfold Torch.sum. csimpl.
    fold (Torch.sum (map (fun ig : nat * Vector =>
            if decide (ig.1 = c) then nth k ig.2 0%R else 0%R) (zip ids gs))).
    fold (routed ids gs c k).
    destruct (decide (i = c)) as [->|Hne].
    + unfold row at 1 2. rewrite list_lookup_alter_eq, Hri. simpl.
      destruct (lookup_lt_is_Some_2 g k) as [a Ha]; [lia|].
      destruct (lookup_lt_is_Some_2 ri k) as [b Hb]; [lia|].
      rewrite (nth_lookup_default _ _ _ _ Ha), (nth_lookup_default _ _ _ _ Hb).
      rewrite (nth_lookup_default (zip_with Rplus g ri) k 0%R (a + b)%R)
        by (by rewrite lookup_zip_with, Ha, Hb).
      lra.
    + unfold row at 1 2. rewrite list_lookup_alter_ne by done. lra.
Qed.

Lemma zeros_like_shape n d (m : Matrix) : shape2 n d m -> shape2 n d (zeros_like m).
Proof.
  intros [Hn Hd]. unfold zeros_like. split; [by rewrite length_fmap|].
  apply Forall_fmap. eapply Forall_impl; [exact Hd|]. intros r Hr. simpl.
  by rewrite length_fmap.
Qed.

Lemma zeros_like_entry n d (m : Matrix) c k :
  shape2 n d m -> (c < n)%nat -> (k < d)%nat -> nth k (row (zeros_like m) c) 0%R = 0%R.
Proof.
  intros Hm Hc Hk. destruct (shape2_row_nth n d m c Hm Hc) as (r & Hr & Hlr).
  unfold row, zeros_like. rewrite list_lookup_fmap, Hr. simpl.
  destruct (lookup_lt_is_Some_2 r k) as [a Ha]; [lia|].
  apply nth_lookup_default. by rewrite list_lookup_fmap, Ha.
Qed.

Lemma routed_not_selected (ids : list nat) : forall (gs : list Vector) (c k : nat),
  c ∉ ids -> routed ids gs c k = 0%R.
Proof.
  induction ids as [|i ids IH]; intros gs c k Hc.
  - done.
  - destruct gs as [|g gs]; [done|]. apply not_elem_of_cons in Hc as [Hne Hc].
    unfold routed, Torch.sum. csimpl.
    fold (Torch.sum (map (fun ig : nat * Vector =>
            if decide (ig.1 = c) then nth k ig.2 0%R else 0%R) (zip ids gs))).
    fold (routed ids gs c k). rewrite (IH gs c k Hc).
    rewrite decide_False by done. lra.
Qed.

(** X5.  The gradient that the backward pass returns for the codebook has the
    shape of the codebook; the row of a code is the sum of the incoming
    gradients of the positions that selected it, and the row of a code that
    no position selected is zero. *)
Theorem codebook_gradient_routed (ctx : Ctx) (grad_outputs : Tensor3)
    (grad_codebook_ids : option (list (list R))) (n d : nat) :
  requires_grad (saved_codebook ctx) = true ->
  shape2 n d (data (saved_codebook ctx)) ->
  Forall2 (fun gb ib => length gb = length ib) grad_outputs
          (lookup_ids (saved_outputs ctx)) ->
  Forall (fun i => (i < n)%nat) (concat (lookup_ids (saved_outputs ctx))) ->
  Forall (fun v => length v = d) (concat grad_outputs) ->
  exists grad_codebook,
    BaseSnapFunction.backward ctx grad_outputs grad_codebook_ids
      = Ok (grad_outputs, grad_codebook)
    /\ shape2 n d grad_codebook
    /\ (forall c k, (c < n)%nat -> (k < d)%nat ->
          nth k (row grad_codebook c) 0%R
          = routed (concat (lookup_ids (saved_outputs ctx))) (concat grad_outputs) c k)
    /\ (forall c, (c < n)%nat -> c ∉ concat (lookup_ids (saved_outputs ctx)) ->
          row grad_codebook c = zeros d).
Proof.
  intros Hreq HW _ Hids Hgs.
  unfold BaseSnapFunction.backward, autograd_grad. rewrite Hreq. run_monad.
  eexists. split; [done|]. unfold scatter_add.
  destruct (scatter_fold n d (concat (lookup_ids (saved_outputs ctx)))
              (concat grad_outputs) (zeros_like (data (saved_codebook ctx))))
    as [Hshape Hentries]; [by apply zeros_like_shape | done | done |].
  assert (Hrouted : forall c k, (c < n)%nat -> (k < d)%nat ->
    nth k (row (foldl (fun acc ig => alter (zip_with Rplus ig.2) ig.1 acc)
                  (zeros_like (data (saved_codebook ctx)))
                  (zip (concat (lookup_ids (saved_outputs ctx))) (concat grad_outputs)))
             c) 0%R
    = routed (concat (lookup_ids (saved_outputs ctx))) (concat grad_outputs) c k).
  { intros c k Hc Hk. rewrite (Hentries c k Hc Hk).
    rewrite (zeros_like_entry n d) by done. lra. }
  split_and!; [done | done |].
  intros c Hc Hnot.
  destruct (shape2_row_nth n d _ c Hshape Hc) as (r & Hr & Hlr).
  rewrite (row_lookup _ _ _ Hr). apply list_eq. intros k. unfold zeros.
  destruct (decide (k < d)%nat) as [Hk|Hk].
  - rewrite lookup_replicate_2 by done.
    destruct (lookup_lt_is_Some_2 r k) as [a Ha]; [lia|]. rewrite Ha. f_equal.
    specialize (Hrouted c k Hc Hk). rewrite (row_lookup _ _ _ Hr) in Hrouted.
    rewrite (nth_lookup_default _ _ _ _ Ha) in Hrouted.
    by rewrite Hrouted, routed_not_selected.
  - rewrite !lookup_ge_None_2; [done | rewrite length_replicate; lia | lia].
Qed.

Lemma codebook_gradient_routed_witness :
  let ctx := {| saved_codebook := {| data := [[1; 0]; [0; 1]]%R; requires_grad := true |};
                saved_outputs := {| value := [[[0; 1]; [0; 1]]]%R;
                                    lookup_ids := [[1; 1]]%nat |} |} in
  exists grad_codebook,
    BaseSnapFunction.backward ctx [[[5; 7]; [1; 1]]]%R None
      = Ok ([[[5; 7]; [1; 1]]]%R, grad_codebook)
    /\ row grad_codebook 0 = zeros 2.
Proof.
  intros ctx.
  destruct (codebook_gradient_routed ctx [[[5; 7]; [1; 1]]]%R None 2 2)
    as (gc & Hrun & _ & _ & Hzero).
  - reflexivity.
  - split; [reflexivity | repeat constructor].
  - repeat constructor.
  - repeat constructor.
  - repeat constructor.
  - exists gc. split; [exact Hrun|]. apply Hzero; [lia|].
    simpl. intros Hin. apply elem_of_cons in Hin as [Hin|Hin]; [discriminate|].
    apply elem_of_cons in Hin as [Hin|Hin]; [discriminate|].
    by apply elem_of_nil in Hin.
Defined.

(** ** Convex combinations stay within the codebook *)

Lemma sum_le (l1 l2 : list R) :
  Forall2 Rle l1 l2 -> (Torch.sum l1 <= Torch.sum l2)%R.
Proof.
  unfold Torch.sum. induction 1 as [|a b l1 l2 Hab _ IH]; simpl; lra.
Qed.

Lemma big_sum_le (n : nat) (f g : nat -> R) :
  (forall c, (c < n)%nat -> (f c <= g c)%R) -> (big_sum n f <= big_sum n g)%R.
Proof.
  intros H. unfold big_sum, tabulate. apply sum_le.
  apply Forall2_fmap, Forall2_same_length_lookup_2; [done|].
  intros i c c' Hc Hc'. assert (c = c') as <- by congruence.
  apply lookup_seq in Hc as [-> Hlt]. by apply H.
Qed.

Lemma big_sum_mult_r (n : nat) (f : nat -> R) (s : R) :
  big_sum n (fun c => f c * s)%R = (big_sum n f * s)%R.
Proof.
  unfold big_sum, tabulate, Torch.sum.
  induction (seq 0 n) as [|c l IH]; csimpl; [lra | rewrite IH; lra].
Qed.

(** A convex combination of numbers within bounds is within the bounds. *)
Lemma convex_bounds (n : nat) (w a : nat -> R) (lo hi : R) :
  convex n w ->
  (forall c, (c < n)%nat -> (lo <= a c <= hi)%R) ->
  (lo <= big_sum n (fun c => w c * a c) <= hi)%R.
Proof.
  intros [Hw Hone] Ha. split.
  - replace lo with (big_sum n w * lo)%R by (rewrite Hone; lra).
    rewrite <- big_sum_mult_r. apply big_sum_le. intros c Hc.
    apply Rmult_le_compat_l; [by apply Hw | by apply Ha].
  - replace hi with (big_sum n w * hi)%R by (rewrite Hone; lra).
    rewrite <- big_sum_mult_r. apply big_sum_le. intros c Hc.
    apply Rmult_le_compat_l; [by apply Hw | by apply Ha].
Qed.

(** X7.  In soft mode, on an input of shape (b, p, dim), [dim] being the
    width of the codebook, every coordinate of every output vector lies
    between the smallest and the largest value the codebook rows have at
    that coordinate. *)
Theorem soft_output_within_codebook (self : CodebookLayer.t) (x : Tensor3) (n : nat)
    (k : nat) (lo hi : R) :
  CodebookLayer.soft_snap self = true ->
  shape2 n (CodebookLayer.dim self) (data (CodebookLayer.codebook self)) ->
  batch_of (CodebookLayer.dim self) x ->
  (0 < n)%nat -> (k < CodebookLayer.dim self)%nat ->
  (forall c, (c < n)%nat ->
     (lo <= nth k (row (data (CodebookLayer.codebook self)) c) 0 <= hi)%R) ->
  exists out,
    CodebookLayer.forward x self = (self, Ok out)
    /\ forall i j ob o, out !! i = Some ob -> ob !! j = Some o ->
         (lo <= nth k o 0 <= hi)%R.
Proof.
  intros Hsoft HW Hx Hpos Hk Hbounds. rewrite (forward_soft self x Hsoft).
  rewrite (soft_output_run _ _ n x _ Hx HW). destruct HW as [Hn Hd].
  eexists. split; [done|]. intros i j ob o Hi Hj.
  unfold softmax in Hi.
  rewrite <- !list_fmap_compose, list_lookup_fmap in Hi.
  destruct (x !! i) as [xb|]; [|done]. simpl in Hi. injection Hi as <-.
  rewrite <- !list_fmap_compose, list_lookup_fmap in Hj.
  destruct (xb !! j) as [v|]; [|done]. simpl in Hj. injection Hj as <-.
  rewrite softmax1_scores, combination_entry by done.
  unfold combination. rewrite Hn. apply convex_bounds; [|done].
  rewrite <- Hn. apply spec_softmax_convex. intros Hnil. rewrite Hnil in Hn.
  simpl in Hn. lia.
Qed.

Lemma soft_output_within_codebook_witness :
  let soft := CodebookLayer.__init__ (fun r c => if decide (r = c) then 1 else 0)%R
                2 2 true EuclideanSnapFunction_cls in
  exists out ob o,
    CodebookLayer.forward [[[5; -3]]]%R soft = (soft, Ok out)
    /\ out !! 0%nat = Some ob /\ ob !! 0%nat = Some o
    /\ (0 <= nth 0 o 0 <= 1)%R.
Proof.
  intros soft.
  destruct (soft_output_within_codebook soft [[[5; -3]]]%R 2 0 0%R 1%R)
    as (out & Hrun & Hbounds).
  - reflexivity.
  - split; [reflexivity | repeat constructor].
  - exists 1%nat, 1%nat. split; [reflexivity | repeat constructor].
  - lia.
  - simpl. lia.
  - intros c Hc. destruct c as [|[|c]]; [| |lia]; simpl; split; lra.
  - pose proof Hrun as Hout. rewrite forward_soft in Hout by reflexivity.
    injection Hout as Hout.
    set (o := sum_rows 2 (scale_rows
                (softmax1 (map (fun c => dot [5; -3]%R c) [[1; 0]; [0; 1]]%R))
                [[1; 0]; [0; 1]]%R)).
    assert (out !! 0%nat = Some [o]) as Hob by (by rewrite <- Hout).
    exists out, [o], o. split; [exact Hrun|]. split; [exact Hob|].
    split; [reflexivity|]. apply (Hbounds 0%nat 0%nat [o] o Hob). reflexivity.
Defined.

(** X8.  The rows that [expire_codes] writes stay within the codebook it found:
    when the draws are non-negative and every drawn row has a positive sum,
    every coordinate of every row after the call lies between the smallest
    and the largest value the rows had at that coordinate before. *)
Theorem expire_codes_within_codebook (rand : nat -> nat -> R) (threshold : Z)
    (self : CodebookLayer.t) (n d k : nat) (lo hi : R) :
  shape2 n d (data (CodebookLayer.codebook self)) ->
  CodebookLayer.dim self = d -> (k < d)%nat ->
  (forall u c, (0 <= rand u c)%R) ->
  (forall u, (u < size (CodebookLayer.underused self threshold))%nat ->
     (0 < big_sum n (rand u))%R) ->
  (forall c, (c < n)%nat ->
     (lo <= nth k (row (data (CodebookLayer.codebook self)) c) 0 <= hi)%R) ->
  forall c, (c < n)%nat ->
    (lo <= nth k (row (data (CodebookLayer.codebook
                               (CodebookLayer.expire_codes rand threshold self).1)) c) 0
     <= hi)%R.
Proof.
  intros [Hn Hd] Hdim Hk Hrand Hsum Hbounds c Hc.
  destruct (expire_codes_rows rand threshold self)
    as (weight' & -> & _ & Hother & Hput & _). simpl.
  destruct (decide (c ∈ CodebookLayer.underused self threshold)) as [Hin|Hin].
  - destruct (Hput c Hin) as (u & Hu & Hrow).
    destruct (new_codes_row rand d (size (CodebookLayer.underused self threshold))
                (data (CodebookLayer.codebook self)) u Hd Hu) as (r & Hr & _ & Hentry).
    unfold new_codes in Hrow. rewrite Hdim, Hr in Hrow.
    rewrite (row_lookup _ _ _ Hrow), (Hentry k Hk).
    unfold combination. rewrite Hn. apply convex_bounds; [|done].
    apply normalised_convex; [intros; apply Hrand | by apply Hsum].
  - unfold row. rewrite (Hother c Hin). by apply Hbounds.
Qed.

Lemma expire_codes_within_codebook_witness :
  (1 <= nth 0 (row (data (CodebookLayer.codebook
                            (CodebookLayer.expire_codes half_draw 1 two_codes).1)) 0) 0
   <= 3)%R.
Proof.
  apply (expire_codes_within_codebook half_draw 1 two_codes 2 1 0 1%R 3%R).
  - split; [reflexivity | repeat constructor].
  - reflexivity.
  - lia.
  - intros u c. unfold half_draw. lra.
  - intros u _. unfold big_sum, half_draw, tabulate, Torch.sum. simpl. lra.
  - intros c Hc. destruct c as [|[|c]]; [| |lia]; simpl; split; lra.
  - lia.
Defined.

(** ** The outcomes of the constructor *)

Lemma normalize_loop_raises (n : Z) (range : list nat) : forall (l : list Z) (e : exn),
  CodebookModel.normalize_loop n l range = Raise e ->
  e = AssertionError \/ e = IndexError.
Proof.
  induction range as [|i range IH]; intros l e; simpl; [done|].
  unfold CodebookModel.normalize_at. run_monad.
  case_bool_decide; [|intros [= <-]; by left].
  destruct (l !! i); [|intros [= <-]; by right]. case_bool_decide; apply IH.
Qed.

Lemma normalize_loop_cases (n : Z) (l : list Z) :
  ((Z.of_nat (length l) <= Z.max 0 n)%Z
   /\ CodebookModel.normalize_loop n l (seq 0 (length l)) = Ok (map (norm_index n) l))
  \/ ((Z.max 0 n < Z.of_nat (length l))%Z
      /\ CodebookModel.normalize_loop n l (seq 0 (length l)) = Raise AssertionError).
Proof.
  destruct (decide (Z.of_nat (length l) <= Z.max 0 n)%Z) as [Hle|Hgt].
  - left. split; [done | by apply normalize_loop_Ok].
  - right. split; [lia | apply normalize_loop_too_long; lia].
Qed.

(** X9.  The constructor of the composer ends in one of three ways.  It raises
    [AssertionError] exactly when the list of indices is longer than the
    backbone has layers, whatever the indices and the metric are, and then
    the backbone is left as it was, not frozen.  Otherwise it freezes the
    backbone, and raises [ValueError] exactly when the metric is not a
    recognised one.  It raises nothing else. *)
Theorem init_outcomes {Args Aux : Type} (model : Backbone Args Aux) (num_codes : nat)
    (layers_to_snap : list Z) (similarity_metric : string) :
  let run := CodebookModel.__init__ num_codes layers_to_snap similarity_metric model in
  let too_long :=
    (Z.max 0 (num_hidden_layers model) < Z.of_nat (length layers_to_snap))%Z in
  let recognised :=
    similarity_metric = "euclidean" \/ similarity_metric = "inner_product" in
  (run.2 = Raise AssertionError <-> too_long)
  /\ (too_long -> run.1 = model)
  /\ (~ too_long -> run.1 = set_flags false model)
  /\ (run.2 = Raise ValueError <-> ~ too_long /\ ~ recognised)
  /\ ((exists self, run.2 = Ok self) <-> ~ too_long /\ recognised)
  /\ (forall e, run.2 = Raise e -> e = AssertionError \/ e = ValueError).
Proof.
  intros run too_long recognised. subst run too_long recognised.
  rewrite init_run.
  destruct (normalize_loop_cases (num_hidden_layers model) layers_to_snap)
    as [[Hle ->]|[Hgt ->]]; simpl.
  - destruct (decide (similarity_metric = "euclidean")) as [He|He];
      [|destruct (decide (similarity_metric = "inner_product")) as [Hi|Hi]].
    + split_and!; try done; try lia.
      * split; [done | lia].
      * split; [done | intros [_ Hn]; destruct Hn; by left].
      * split; [intros _; split; [lia | by left] | eauto].
    + split_and!; try done; try lia.
      * split; [done | lia].
      * split; [done | intros [_ Hn]; destruct Hn; by right].
      * split; [intros _; split; [lia | by right] | eauto].
    + split_and!; try done; try lia.
      * split; [done | lia].
      * split; [intros _; split; [lia | by intros [?|?]] | done].
      * split; [by intros [? ?] | by intros [_ [?|?]]].
      * intros e [= <-]. by right.
  - split_and!; try done; try lia.
    + split; [done | intros [? _]; lia].
    + split; [by intros [? ?] | intros [? _]; lia].
    + intros e [= <-]. by left.
Qed.

(** ** What the concrete constructors build *)

Lemma add_codebooks_fold_params {Args Aux} (init : nat -> nat -> nat -> R)
    (hidden : nat) (count : nat) :
  forall (start : nat) (self : CodebookModel.t) (layers : list (LayerModule Args Aux)),
  (start + count <= length layers)%nat ->
  forall self' layers',
    foldl (fun st i => CodebookModel.add_codebook_at init hidden i st)
          (self, layers) (seq start count) = (self', layers') ->
    CodebookModel.model_params self'
    = CodebookModel.model_params self ++ seq start count
    /\ CodebookModel.codebook_params self'
       = CodebookModel.codebook_params self
         ++ filter (fun i => CodebookModel.selected self i = true) (seq start count).
Proof.
  induction count as [|count IH]; intros start self layers Hlen self' layers'.
  - simpl. intros [= <- <-]. by rewrite !app_nil_r.
  - simpl.
    destruct (lookup_lt_is_Some_2 layers start) as [m0 Hm0]; [lia|].
    set (self1 := {| CodebookModel.num_codes := CodebookModel.num_codes self;
                     CodebookModel.layers_to_snap := CodebookModel.layers_to_snap self;
                     CodebookModel.codebook_params := CodebookModel.codebook_params self;
                     CodebookModel.model_params := CodebookModel.model_params self ++ [start];
                     CodebookModel.all_codebooks := CodebookModel.all_codebooks self;
                     CodebookModel.snap_fn := CodebookModel.snap_fn self |}).
    assert (Hsel1 : forall i, CodebookModel.selected self1 i = CodebookModel.selected self i)
      by done.
    rewrite Hsel1, Hm0. rewrite filter_cons.
    destruct (decide (CodebookModel.selected self start = true)) as [Hsel|Hsel];
      [|apply not_true_is_false in Hsel]; rewrite Hsel.
    + intros Hrun. apply IH in Hrun as [Hm Hc]; [|rewrite length_insert; lia].
      simpl in Hm, Hc. rewrite Hm, Hc, <- !app_assoc. done.
    + intros Hrun. apply IH in Hrun as [Hm Hc]; [|lia].
      simpl in Hm, Hc. rewrite Hm, Hc, <- !app_assoc. done.
Qed.

Lemma filter_seq_sorted (P : nat -> Prop) `{forall i, Decision (P i)} (start len : nat) :
  StronglySorted lt (filter P (seq start len)).
Proof.
  revert start. induction len as [|len IH]; intros start; simpl; [constructor|].
  rewrite filter_cons. case_decide; [|apply IH].
  constructor; [apply IH|]. apply Forall_forall. intros i Hi.
  apply list_elem_of_filter in Hi as [_ Hi]. apply elem_of_seq in Hi. lia.
Qed.

(** X10.  [add_codebooks] on a composer whose lists are still empty.  The layer
    list keeps its length and the backbone its other fields.  A layer at a
    position that is not selected stays the module it was.  A layer at a
    selected position is replaced by a wrapper around it with [snap] on and a
    new codebook layer in hard mode: [num_codes] rows of [hidden_size]
    columns each that require grad, the snap function of the composer, and an
    empty usage counter.  The registry and the codebook parameters list the
    selected positions in ascending order, each once, and the model
    parameters list every position. *)
Theorem add_codebooks_structure {Args Aux : Type} (init : nat -> nat -> nat -> R)
    (self : CodebookModel.t) (model : Backbone Args Aux) :
  CodebookModel.all_codebooks self = [] ->
  CodebookModel.codebook_params self = [] ->
  CodebookModel.model_params self = [] ->
  exists self' layers',
    CodebookModel.add_codebooks init self model = (set_layer layers' model, Ok self')
    /\ length layers' = length (layer model)
    /\ (forall i m, layer model !! i = Some m ->
          CodebookModel.selected self i = false -> layers' !! i = Some m)
    /\ (forall i m, layer model !! i = Some m ->
          CodebookModel.selected self i = true ->
          exists w,
            layers' !! i = Some (Wrapped w)
            /\ TransformerLayerWrapper.transformer_layer w = m
            /\ TransformerLayerWrapper.snap w = true
            /\ CodebookLayer.soft_snap (TransformerLayerWrapper.codebook_layer w) = false
            /\ CodebookLayer.counts (TransformerLayerWrapper.codebook_layer w) = ∅
            /\ CodebookLayer.snap_fn (TransformerLayerWrapper.codebook_layer w)
               = CodebookModel.snap_fn self
            /\ CodebookLayer.dim (TransformerLayerWrapper.codebook_layer w)
               = hidden_size model
            /\ requires_grad
                 (CodebookLayer.codebook (TransformerLayerWrapper.codebook_layer w))
               = true
            /\ shape2 (CodebookModel.num_codes self) (hidden_size model)
                 (data (CodebookLayer.codebook
                          (TransformerLayerWrapper.codebook_layer w))))
    /\ CodebookModel.all_codebooks self'
       = filter (fun i => CodebookModel.selected self i = true)
           (seq 0 (length (layer model)))
    /\ CodebookModel.codebook_params self' = CodebookModel.all_codebooks self'
    /\ StronglySorted lt (CodebookModel.all_codebooks self')
    /\ CodebookModel.model_params self' = seq 0 (length (layer model))
    /\ CodebookModel.layers_to_snap self' = CodebookModel.layers_to_snap self.
Proof.
  intros Hreg Hcb Hmp.
  destruct (add_codebooks_fold init (hidden_size model) (length (layer model)) 0
              self (layer model)) as (self' & layers' & Hrun & H1 & _ & _ & H4 & H5 & H6);
    [lia|].
  destruct (add_codebooks_fold_params init (hidden_size model) (length (layer model)) 0
              self (layer model) ltac:(lia) self' layers' Hrun) as [Hm Hc].
  rewrite Hreg in H4. rewrite Hcb in Hc. rewrite Hmp in Hm. simpl in H4, Hc, Hm.
  exists self', layers'. split.
  { unfold CodebookModel.add_codebooks. run_monad. by rewrite Hrun. }
  split_and!; try done.
  - intros i m Hm0 Hsel. rewrite (H6 i m Hm0). unfold wrapped_at. rewrite Hsel.
    by case_decide.
  - intros i m Hm0 Hsel. rewrite (H6 i m Hm0). unfold wrapped_at. rewrite Hsel.
    rewrite decide_True by (apply lookup_lt_Some in Hm0; lia).
    eexists. split; [done|]. simpl. split_and!; try done.
    split; [apply tabulate_length|].
    apply Forall_forall. intros r Hr. apply list_elem_of_lookup in Hr as [j Hj].
    assert (j < CodebookModel.num_codes self)%nat as Hlt.
    { apply lookup_lt_Some in Hj. by rewrite tabulate_length in Hj. }
    rewrite tabulate_lookup in Hj by done. injection Hj as <-.
    apply tabulate_length.
  - by rewrite Hc, H4.
  - rewrite H4. apply filter_seq_sorted.
Qed.

Lemma add_codebooks_structure_witness :
  exists self' layers',
    CodebookModel.add_codebooks no_draw
      {| CodebookModel.num_codes := 16; CodebookModel.layers_to_snap := [1; 4]%Z;
         CodebookModel.codebook_params := []; CodebookModel.model_params := [];
         CodebookModel.all_codebooks := [];
         CodebookModel.snap_fn := EuclideanSnapFunction_cls |} six_layers
      = (set_layer layers' six_layers, Ok self')
    /\ CodebookModel.all_codebooks self' = [1; 4]%nat
    /\ CodebookModel.model_params self' = [0; 1; 2; 3; 4; 5]%nat.
Proof.
  destruct (add_codebooks_structure no_draw
    {| CodebookModel.num_codes := 16; CodebookModel.layers_to_snap := [1; 4]%Z;
       CodebookModel.codebook_params := []; CodebookModel.model_params := [];
       CodebookModel.all_codebooks := [];
       CodebookModel.snap_fn := EuclideanSnapFunction_cls |} six_layers)
    as (self' & layers' & Hrun & _ & _ & _ & Hall & _ & _ & Hmp & _);
    [reflexivity | reflexivity | reflexivity |].
  exists self', layers'. split; [exact Hrun|]. split; [|exact Hmp].
  rewrite Hall. reflexivity.
Defined.

Lemma concrete_init_inv {Args Aux} (init : nat -> nat -> nat -> R)
    (model model' : Backbone Args Aux) (num_codes : nat) (layers_to_snap : list Z)
    (similarity_metric : string) (self' : CodebookModel.t) :
  BertCodebookModel.__init__ init num_codes layers_to_snap similarity_metric model
    = (model', Ok self') ->
  exists self,
    CodebookModel.add_codebooks init self (set_flags false model) = (model', Ok self')
    /\ CodebookModel.all_codebooks self = []
    /\ CodebookModel.layers_to_snap self
       = CodebookModel.sorted (map (norm_index (num_hidden_layers model)) layers_to_snap).
Proof.
  unfold BertCodebookModel.__init__. unfold mbind at 1, M_bind. rewrite init_run.
  destruct (normalize_loop_cases (num_hidden_layers model) layers_to_snap)
    as [[_ ->]|[_ ->]]; [|done].
  repeat case_decide; try done; intros Hadd; eexists; (split; [exact Hadd|]); done.
Qed.

Lemma init_Ok {Args Aux} (model : Backbone Args Aux) (num_codes : nat)
    (layers_to_snap : list Z) (similarity_metric : string) :
  (Z.of_nat (length layers_to_snap) <= Z.max 0 (num_hidden_layers model))%Z ->
  similarity_metric = "euclidean" \/ similarity_metric = "inner_product" ->
  exists self,
    CodebookModel.__init__ num_codes layers_to_snap similarity_metric model
      = (set_flags false model, Ok self)
    /\ CodebookModel.all_codebooks self = []
    /\ CodebookModel.layers_to_snap self
       = CodebookModel.sorted (map (norm_index (num_hidden_layers model)) layers_to_snap).
Proof.
  intros Hlen Hmetric. rewrite init_run, normalize_loop_Ok by done.
  destruct Hmetric as [-> | ->]; simpl; eauto.
Qed.

(** X11.  What a concrete constructor leaves trainable.  When it returns, every
    parameter the backbone had before has [requires_grad] off, and the weight
    of every codebook it added has it on: the layer at a selected position is
    a wrapper whose wrapped module is frozen and whose codebook requires
    grad, the layer at any other position is frozen as a whole.  The two
    concrete constructors do the same. *)
Theorem constructed_trainable {Args Aux : Type} (init : nat -> nat -> nat -> R)
    (model model' : Backbone Args Aux) (num_codes : nat) (layers_to_snap : list Z)
    (similarity_metric : string) (self' : CodebookModel.t) :
  BertCodebookModel.__init__ init num_codes layers_to_snap similarity_metric model
    = (model', Ok self') ->
  GPT2CodebookModel.__init__ init num_codes layers_to_snap similarity_metric model
    = (model', Ok self')
  /\ Forall (fun p => requires_grad p = false) (other_parameters model')
  /\ length (layer model') = length (layer model)
  /\ forall i m', layer model' !! i = Some m' ->
       (CodebookModel.selected self' i = false ->
          Forall (fun f => f = false) (module_flags m'))
       /\ (CodebookModel.selected self' i = true ->
          exists w,
            m' = Wrapped w
            /\ Forall (fun f => f = false)
                 (module_flags (TransformerLayerWrapper.transformer_layer w))
            /\ requires_grad
                 (CodebookLayer.codebook (TransformerLayerWrapper.codebook_layer w))
               = true).
Proof.
  intros Hrun. split; [exact Hrun|].
  destruct (concrete_init_inv init model model' num_codes layers_to_snap
              similarity_metric self' Hrun) as (self & Hadd & _ & _).
  destruct (add_codebooks_run init self (set_flags false model))
    as (self1 & layers' & Hadd' & Hsnap & _ & Hlen & Hlayers).
  rewrite Hadd' in Hadd. injection Hadd as <- <-. simpl.
  split_and!.
  - apply Forall_fmap, Forall_true. done.
  - rewrite Hlen. simpl. by rewrite length_fmap.
  - intros i m' Hm'.
    assert (i < length (layer model))%nat as Hi.
    { apply lookup_lt_Some in Hm'. rewrite Hlen in Hm'. simpl in Hm'.
      by rewrite length_fmap in Hm'. }
    destruct (lookup_lt_is_Some_2 (layer model) i Hi) as [m Hm].
    rewrite (Hlayers i (module_set_flags false m)) in Hm'
      by (simpl; by rewrite list_lookup_fmap, Hm).
    injection Hm' as <-. unfold wrapped_at.
    assert (CodebookModel.selected self1 i = CodebookModel.selected self i) as ->.
    { unfold CodebookModel.selected. by rewrite Hsnap. }
    destruct (CodebookModel.selected self i); split; try done.
    + intros _. eexists. split; [done|]. simpl. split; [|done].
      apply module_set_flags_flags.
    + intros _. apply module_set_flags_flags.
Qed.

Lemma constructed_trainable_witness :
  exists model' self',
    BertCodebookModel.__init__ no_draw 16 [-1]%Z "inner_product" six_layers
      = (model', Ok self')
    /\ GPT2CodebookModel.__init__ no_draw 16 [-1]%Z "inner_product" six_layers
      = (model', Ok self')
    /\ parameters_flags model'
       = [false; false; false; false; false; false; false; true].
Proof.
  destruct (init_Ok six_layers 16 [-1]%Z "inner_product") as (self & Hinit & Hreg & _);
    [vm_compute; discriminate | by right |].
  destruct (concrete_init_run no_draw six_layers 16 [-1]%Z "inner_product" self Hinit Hreg)
    as (self' & model' & Hbert & _).
  exists model', self'. split; [exact Hbert|].
  split; [exact (proj1 (constructed_trainable no_draw six_layers model' 16 [-1]%Z
                          "inner_product" self' Hbert))|].
  assert (model' = (BertCodebookModel.__init__ no_draw 16 [-1]%Z "inner_product"
                      six_layers).1) as -> by (by rewrite Hbert).
  reflexivity.
Defined.

Lemma norm_index_valid (n v : Z) :
  (- n <= v < n)%Z -> (0 <= norm_index n v < n)%Z.
Proof. unfold norm_index. case_bool_decide; lia. Qed.

(** X12.  Valid indices get their codebooks.  When every index lies in
    [-num_layers, num_layers), the list is no longer than the backbone has
    layers, the layer list has [num_layers] entries and the metric is a
    recognised one, the constructor returns, the registry holds exactly the
    normalised indices, and the layer at each of them is a wrapper. *)
Theorem valid_indices_registered {Args Aux : Type} (init : nat -> nat -> nat -> R)
    (model : Backbone Args Aux) (num_codes : nat) (layers_to_snap : list Z)
    (similarity_metric : string) :
  Forall (fun v => (- num_hidden_layers model <= v < num_hidden_layers model)%Z)
         layers_to_snap ->
  (Z.of_nat (length layers_to_snap) <= Z.max 0 (num_hidden_layers model))%Z ->
  Z.of_nat (length (layer model)) = Z.max 0 (num_hidden_layers model) ->
  similarity_metric = "euclidean" \/ similarity_metric = "inner_product" ->
  exists model' self',
    BertCodebookModel.__init__ init num_codes layers_to_snap similarity_metric model
      = (model', Ok self')
    /\ (forall i, i ∈ CodebookModel.all_codebooks self'
          <-> exists v, v ∈ layers_to_snap
                /\ norm_index (num_hidden_layers model) v = Z.of_nat i)
    /\ (forall v, v ∈ layers_to_snap ->
          exists i w,
            Z.of_nat i = norm_index (num_hidden_layers model) v
            /\ layer model' !! i = Some (Wrapped w)).
Proof.
  intros Hvalid Hlen Hlayers Hmetric.
  destruct (init_Ok model num_codes layers_to_snap similarity_metric Hlen Hmetric)
    as (self & Hinit & Hreg & Hsnap).
  destruct (add_codebooks_run init self (set_flags false model))
    as (self' & layers' & Hadd & Hsnap' & Hall & Hlen' & Hwrapped).
  exists (set_layer layers' (set_flags false model)), self'.
  assert (Hsel : forall i, Z.of_nat i ∈ CodebookModel.layers_to_snap self
    <-> exists v, v ∈ layers_to_snap
          /\ norm_index (num_hidden_layers model) v = Z.of_nat i).
  { intros i. rewrite Hsnap. unfold CodebookModel.sorted.
    rewrite merge_sort_Permutation, list_elem_of_fmap.
    split; [intros (v & Heq & Hv) | intros (v & Hv & Heq)]; exists v; by rewrite Heq. }
  split_and!.
  - unfold BertCodebookModel.__init__. unfold mbind, M_bind. by rewrite Hinit, Hadd.
  - intros i. rewrite Hall, Hreg. simpl.
    rewrite list_elem_of_filter, elem_of_seq, selected_spec, length_fmap, Hsel.
    split; [tauto|]. intros (v & Hv & Hi). split; [eauto|].
    eapply Forall_forall in Hvalid; [|exact Hv].
    apply norm_index_valid in Hvalid. lia.
  - intros v Hv. eapply Forall_forall in Hvalid; [|exact Hv].
    apply norm_index_valid in Hvalid.
    set (i := Z.to_nat (norm_index (num_hidden_layers model) v)).
    assert (Z.of_nat i = norm_index (num_hidden_layers model) v) as Hi by lia.
    assert (i < length (layer model))%nat as Hlt by lia.
    destruct (lookup_lt_is_Some_2 (layer model) i Hlt) as [m Hm].
    eexists i, _. split; [done|]. simpl.
    rewrite (Hwrapped i (module_set_flags false m))
      by (simpl; by rewrite list_lookup_fmap, Hm).
    unfold wrapped_at.
    assert (CodebookModel.selected self i = true) as ->; [|done].
    apply selected_spec, Hsel. eauto.
Qed.

Lemma valid_indices_registered_witness :
  exists model' self',
    BertCodebookModel.__init__ no_draw 16 [-1; 0; 5]%Z "euclidean" six_layers
      = (model', Ok self')
    /\ forall i, i ∈ CodebookModel.all_codebooks self'
         <-> exists v, v ∈ [-1; 0; 5]%Z /\ norm_index 6 v = Z.of_nat i.
Proof.
  destruct (valid_indices_registered no_draw six_layers 16 [-1; 0; 5]%Z "euclidean")
    as (model' & self' & Hrun & Hreg & _).
  - repeat constructor; simpl; lia.
  - vm_compute. discriminate.
  - reflexivity.
  - by left.
  - exists model', self'. split; [exact Hrun | exact Hreg].
Defined.

(** ** Freezing and unfreezing *)

Lemma apply_set_requires_grad (snap_fn : SnapFunction) (x : Tensor3)
    (weight : Param Matrix) (b : bool) :
  apply snap_fn x (set_requires_grad b weight) = apply snap_fn x weight.
Proof.
  destruct snap_fn; unfold apply, EuclideanSnapFunction.forward,
    InnerProductSnapFunction.forward; simpl.
  - destruct (cdist _ _) as [logits|]; [|done]. simpl. by destruct (argmin _ _).
  - destruct (matmul_T _ _) as [logits|]; [|done]. simpl. by destruct (argmax _ _).
Qed.

Lemma layer_forward_flag (b : bool) (c : CodebookLayer.t) (x : Tensor3) :
  CodebookLayer.forward x (set_layer_flag b c)
  = (set_layer_flag b (CodebookLayer.forward x c).1, (CodebookLayer.forward x c).2).
Proof.
  unfold CodebookLayer.forward, set_layer_flag. run_monad.
  destruct (CodebookLayer.soft_snap c); simpl; [done|].
  rewrite apply_set_requires_grad.
  by destruct (apply _ _ _) as [[out ids]|].
Qed.

(** Calling a module after its flags were set is calling it before: the
    result is the same, and so is the module left behind, but for the
    flags. *)
Lemma call_set_flags {Args Aux} (b : bool) (args : Args) (m : LayerModule Args Aux) :
  call (module_set_flags b m) args
  = (module_set_flags b (call m args).1, (call m args).2).
Proof.
  induction m as [l|w IH] using LayerModule_induction; [done|].
  destruct w as [inner c s]. simpl in IH. simpl.
  unfold TransformerLayerWrapper.forward. run_monad. rewrite IH.
  destruct (call inner args) as [inner' [[|[h|a|a] rest]|e]]; simpl;
    destruct s; simpl; try done.
  unfold TransformerLayerWrapper.snap_first. run_monad.
  fold (set_layer_flag b c). rewrite layer_forward_flag.
  destruct (CodebookLayer.forward h c) as [c' [o|e]]; done.
Qed.

(** X13.  [freeze_model_params] and [unfreeze_model_params] reach every parameter
    below the backbone, the weights of the codebooks in its layer list
    included, and touch nothing but the flags: afterwards every layer
    returns what it returned before and is left as it was left before, with
    its counter, but for the flags. *)
Theorem freeze_keeps_behaviour {Args Aux : Type} (model : Backbone Args Aux) :
  let frozen := (CodebookModel.freeze_model_params model).1 in
  let thawed := (CodebookModel.unfreeze_model_params model).1 in
  Forall (fun f => f = false) (parameters_flags frozen)
  /\ Forall (fun f => f = true) (parameters_flags thawed)
  /\ length (layer frozen) = length (layer model)
  /\ length (layer thawed) = length (layer model)
  /\ forall i m, layer model !! i = Some m ->
       layer frozen !! i = Some (module_set_flags false m)
       /\ layer thawed !! i = Some (module_set_flags true m)
       /\ forall b args,
            call (module_set_flags b m) args
            = (module_set_flags b (call m args).1, (call m args).2).
Proof.
  intros frozen thawed. subst frozen thawed. simpl.
  split_and!; try apply set_flags_flags; try apply length_fmap.
  intros i m Hm. rewrite !list_lookup_fmap, Hm.
  split_and!; [done | done |]. intros b args. apply call_set_flags.
Qed.

(** ** Enabling and disabling *)

Lemma set_snap_at_twice {Args Aux} (self : CodebookModel.t) (b b' : bool) (i : nat)
    (m : LayerModule Args Aux) :
  CodebookModel.set_snap_at self b i (CodebookModel.set_snap_at self b' i m)
  = CodebookModel.set_snap_at self b i m.
Proof.
  unfold CodebookModel.set_snap_at.
  destruct (CodebookModel.selected self i); [|done]. by destruct m as [l|[inner c s]].
Qed.

Lemma imap_set_snap_twice {Args Aux} (self : CodebookModel.t) (b b' : bool)
    (ls : list (LayerModule Args Aux)) :
  imap (CodebookModel.set_snap_at self b) (imap (CodebookModel.set_snap_at self b') ls)
  = imap (CodebookModel.set_snap_at self b) ls.
Proof.
  apply list_eq. intros i. rewrite !list_lookup_imap.
  destruct (ls !! i); simpl; [|done]. by rewrite set_snap_at_twice.
Qed.

(** X14.  [enable_codebooks] and [disable_codebooks] change nothing but the [snap]
    flags of the wrappers at the selected positions, and the later call
    wins: enabling after disabling is enabling, disabling after enabling is
    disabling, and each is idempotent.  On the model that [add_codebooks] has
    just built, enabling changes nothing, so that disabling and enabling
    again gives that model back. *)
Theorem enable_disable_round_trip {Args Aux : Type} (init : nat -> nat -> nat -> R)
    (self : CodebookModel.t) (model : Backbone Args Aux) :
  let enable m := (CodebookModel.enable_codebooks self m).1 in
  let disable m := (CodebookModel.disable_codebooks self m).1 in
  enable (disable model) = enable model
  /\ disable (enable model) = disable model
  /\ enable (enable model) = enable model
  /\ disable (disable model) = disable model
  /\ (forall i m, layer model !! i = Some m ->
        CodebookModel.selected self i = false ->
        layer (enable model) !! i = Some m /\ layer (disable model) !! i = Some m)
  /\ (forall i l, layer model !! i = Some (Plain l) ->
        layer (enable model) !! i = Some (Plain l)
        /\ layer (disable model) !! i = Some (Plain l))
  /\ (forall i w, layer model !! i = Some (Wrapped w) ->
        CodebookModel.selected self i = true ->
        layer (enable model) !! i
          = Some (Wrapped (TransformerLayerWrapper.set_snap true w))
        /\ layer (disable model) !! i
          = Some (Wrapped (TransformerLayerWrapper.set_snap false w)))
  /\ (forall built self',
        CodebookModel.add_codebooks init self model = (built, Ok self') ->
        (CodebookModel.enable_codebooks self' built).1 = built
        /\ (CodebookModel.enable_codebooks self'
              (CodebookModel.disable_codebooks self' built).1).1 = built).
Proof.
  intros enable disable. subst enable disable. simpl.
  unfold CodebookModel.enable_codebooks, CodebookModel.disable_codebooks, modify.
  simpl. unfold set_layer. simpl.
  split_and!; try (by rewrite imap_set_snap_twice).
  - intros i m Hm Hsel. rewrite !list_lookup_imap, Hm. simpl.
    unfold CodebookModel.set_snap_at. by rewrite Hsel.
  - intros i l Hm. rewrite !list_lookup_imap, Hm. simpl.
    unfold CodebookModel.set_snap_at. by destruct (CodebookModel.selected self i).
  - intros i w Hm Hsel. rewrite !list_lookup_imap, Hm. simpl.
    unfold CodebookModel.set_snap_at. by rewrite Hsel.
  - intros built self' Hadd.
    destruct (add_codebooks_run init self model)
      as (self1 & layers' & Hadd' & Hsnap & _ & Hlen & Hlayers).
    rewrite Hadd' in Hadd. injection Hadd as <- <-. simpl.
    assert (imap (CodebookModel.set_snap_at self1 true) layers' = layers') as Hsame.
    { apply list_eq. intros i. rewrite list_lookup_imap.
      destruct (layers' !! i) as [m'|] eqn:Hm'; [|done]. simpl. f_equal.
      assert (i < length (layer model))%nat as Hi
        by (apply lookup_lt_Some in Hm'; lia).
      destruct (lookup_lt_is_Some_2 (layer model) i Hi) as [m Hm].
      rewrite (Hlayers i m Hm) in Hm'. injection Hm' as <-.
      unfold CodebookModel.set_snap_at, wrapped_at.
      assert (CodebookModel.selected self1 i = CodebookModel.selected self i) as ->.
      { unfold CodebookModel.selected. by rewrite Hsnap. }
      by destruct (CodebookModel.selected self i). }
    by rewrite imap_set_snap_twice, Hsame.
Qed.

(** ** Exceptions in the wrapper *)

(** X15.  An exception of the wrapped layer comes out of the wrapper as it is,
    whatever the [snap] flag says, and the codebook layer is not touched.
    With [snap] on, an empty tuple raises [IndexError], a first element that
    is a tensor of another rank than 3 raises [AssertionError] and a first
    element that is no tensor raises [AttributeError], again without touching
    the codebook layer; an exception of the codebook layer comes out with the
    other elements of the tuple dropped. *)
Theorem wrapper_exceptions {Args Aux Inner : Type}
    (call_inner : Args -> M Inner (list (Output Aux)))
    (self : TransformerLayerWrapper.t Inner) (args : Args) (inner' : Inner)
    (r : outcome (list (Output Aux))) :
  call_inner args (TransformerLayerWrapper.transformer_layer self) = (inner', r) ->
  let kept := TransformerLayerWrapper.set_transformer_layer inner' self in
  (forall e, r = Raise e ->
     TransformerLayerWrapper.forward call_inner args self = (kept, Raise e))
  /\ (TransformerLayerWrapper.snap self = true -> r = Ok [] ->
      TransformerLayerWrapper.forward call_inner args self = (kept, Raise IndexError))
  /\ (TransformerLayerWrapper.snap self = true ->
      forall a rest, r = Ok (OtherRank a :: rest) ->
      TransformerLayerWrapper.forward call_inner args self
      = (kept, Raise AssertionError))
  /\ (TransformerLayerWrapper.snap self = true ->
      forall a rest, r = Ok (Other a :: rest) ->
      TransformerLayerWrapper.forward call_inner args self
      = (kept, Raise AttributeError))
  /\ (TransformerLayerWrapper.snap self = true ->
      forall h rest c' e, r = Ok (Act h :: rest) ->
      CodebookLayer.forward h (TransformerLayerWrapper.codebook_layer self)
        = (c', Raise e) ->
      TransformerLayerWrapper.forward call_inner args self
      = (TransformerLayerWrapper.set_codebook_layer c' kept, Raise e)).
Proof.
  intros Hinner kept. subst kept. split_and!.
  - intros e ->. unfold TransformerLayerWrapper.forward. run_monad. by rewrite Hinner.
  - intros Hsnap ->. unfold TransformerLayerWrapper.forward. run_monad.
    rewrite Hinner. simpl. by rewrite Hsnap.
  - intros Hsnap a rest ->. unfold TransformerLayerWrapper.forward. run_monad.
    rewrite Hinner. simpl. by rewrite Hsnap.
  - intros Hsnap a rest ->. unfold TransformerLayerWrapper.forward. run_monad.
    rewrite Hinner. simpl. by rewrite Hsnap.
  - intros Hsnap h rest c' e -> Hcb.
    by rewrite (wrapper_forward_enabled call_inner self args inner' h rest c'
                  (Raise e) Hinner Hsnap Hcb).
Qed.

Lemma wrapper_exceptions_witness :
  let failing : Layer unit unit :=
    {| layer_forward := fun _ => Raise RuntimeError; layer_parameters := [] |} in
  let w := TransformerLayerWrapper.__init__ (no_draw 0) (Plain failing) 2 16
             EuclideanSnapFunction_cls in
  TransformerLayerWrapper.forward (fun a inner => call inner a) tt w
  = (w, Raise RuntimeError).
Proof.
  intros failing w.
  destruct (wrapper_exceptions (fun a inner => call inner a) w tt (Plain failing)
              (Raise RuntimeError)) as [Hraise _].
  - reflexivity.
  - apply (Hraise RuntimeError). reflexivity.
Defined.

(** ** The k-means embedding *)

Lemma load_each_loaded (batches : list KmeansEmbedding.Batch) :
  forall (self : KmeansEmbedding.t) (loaded : KmeansEmbedding.Batch),
  KmeansEmbedding.data self = Some loaded ->
  Forall (fun b => KmeansEmbedding.cols b = KmeansEmbedding.cols loaded) batches ->
  load_each batches self
  = (KmeansEmbedding.set_data
       (Some {| KmeansEmbedding.cols := KmeansEmbedding.cols loaded;
                KmeansEmbedding.rows :=
                  KmeansEmbedding.rows loaded
                  ++ concat (map KmeansEmbedding.rows batches) |}) self,
     Ok tt).
Proof.
  induction batches as [|b batches IH]; intros self loaded Hdata Hcols; csimpl.
  - rewrite app_nil_r. destruct self as [w d pw]. simpl in Hdata. subst d.
    by destruct loaded.
  - apply Forall_cons in Hcols as [Hb Hcols].
    unfold mbind at 1, M_bind. unfold KmeansEmbedding.load_data at 1. run_monad.
    rewrite Hdata. unfold KmeansEmbedding.cat. rewrite decide_True by done. simpl.
    rewrite (IH _ {| KmeansEmbedding.cols := KmeansEmbedding.cols loaded;
                     KmeansEmbedding.rows :=
                       KmeansEmbedding.rows loaded ++ KmeansEmbedding.rows b |});
      [|done|done].
    simpl. by rewrite <- app_assoc.
Qed.

(** X16.  [load_data] accumulates.  Batches of one width loaded one after the other
    into an embedding that holds no data leave it holding all their rows, in
    the order of loading, and do not touch the weight.  A batch of another
    width raises [RuntimeError] and leaves what was loaded before. *)
Theorem load_data_accumulates (self : KmeansEmbedding.t)
    (first : KmeansEmbedding.Batch) (batches : list KmeansEmbedding.Batch) :
  KmeansEmbedding.data self = None ->
  Forall (fun b => KmeansEmbedding.cols b = KmeansEmbedding.cols first) batches ->
  let loaded := (load_each (first :: batches) self).1 in
  load_each (first :: batches) self
  = (KmeansEmbedding.set_data
       (Some {| KmeansEmbedding.cols := KmeansEmbedding.cols first;
                KmeansEmbedding.rows :=
                  concat (map KmeansEmbedding.rows (first :: batches)) |}) self,
     Ok tt)
  /\ KmeansEmbedding.weight loaded = KmeansEmbedding.weight self
  /\ forall other,
       KmeansEmbedding.cols other <> KmeansEmbedding.cols first ->
       KmeansEmbedding.load_data other loaded = (loaded, Raise RuntimeError).
Proof.
  intros Hnone Hcols loaded.
  assert (load_each (first :: batches) self
    = (KmeansEmbedding.set_data
         (Some {| KmeansEmbedding.cols := KmeansEmbedding.cols first;
                  KmeansEmbedding.rows :=
                    concat (map KmeansEmbedding.rows (first :: batches)) |}) self,
       Ok tt)) as Hrun.
  { csimpl. unfold mbind at 1, M_bind. unfold KmeansEmbedding.load_data at 1.
    run_monad. rewrite Hnone. simpl.
    rewrite (load_each_loaded batches _ first); [done | done | done]. }
  subst loaded. rewrite Hrun. split_and!; [done | done |].
  intros other Hother. unfold KmeansEmbedding.load_data. run_monad.
  unfold KmeansEmbedding.cat. simpl. rewrite decide_False by done. done.
Qed.

Lemma load_data_accumulates_witness :
  let fresh := KmeansEmbedding.__init__ (fun _ _ => 0%R) 4 2 in
  load_each [ {| KmeansEmbedding.cols := 2; KmeansEmbedding.rows := [[1; 2]]%R |};
              {| KmeansEmbedding.cols := 2; KmeansEmbedding.rows := [[3; 4]; [5; 6]]%R |} ]
    fresh
  = (KmeansEmbedding.set_data
       (Some {| KmeansEmbedding.cols := 2;
                KmeansEmbedding.rows := [[1; 2]; [3; 4]; [5; 6]]%R |}) fresh,
     Ok tt).
Proof.
  intros fresh.
  destruct (load_data_accumulates fresh
              {| KmeansEmbedding.cols := 2; KmeansEmbedding.rows := [[1; 2]]%R |}
              [ {| KmeansEmbedding.cols := 2;
                   KmeansEmbedding.rows := [[3; 4]; [5; 6]]%R |} ])
    as [Hrun _].
  - reflexivity.
  - repeat constructor.
  - exact Hrun.
Defined.

(** X17.  [initialize] never changes the weight the embedding looks rows up in: it
    stores the cluster centres in the attribute [_weight].  Without loaded
    data it ends with [AttributeError] and changes nothing.  When the
    clustering raises, nothing changes either, and the data is still there.
    When the clustering returns, the loaded data is dropped, so that a second
    [initialize] ends with [AttributeError] and a later [load_data] starts
    from the new batch alone. *)
Theorem initialize_keeps_weight (kmeans : nat -> KmeansEmbedding.Batch -> outcome Matrix)
    (k : nat) (self : KmeansEmbedding.t) :
  KmeansEmbedding.weight (KmeansEmbedding.initialize kmeans k self).1
    = KmeansEmbedding.weight self
  /\ (KmeansEmbedding.data self = None ->
      KmeansEmbedding.initialize kmeans k self = (self, KmeansEmbedding.AttributeError))
  /\ (forall loaded e,
        KmeansEmbedding.data self = Some loaded -> kmeans k loaded = Raise e ->
        KmeansEmbedding.initialize kmeans k self = (self, KmeansEmbedding.Raised e))
  /\ (forall loaded centres,
        KmeansEmbedding.data self = Some loaded -> kmeans k loaded = Ok centres ->
        let after := (KmeansEmbedding.initialize kmeans k self).1 in
        KmeansEmbedding.initialize kmeans k self = (after, KmeansEmbedding.Done)
        /\ KmeansEmbedding._weight after = Some centres
        /\ KmeansEmbedding.data after = None
        /\ (forall k', KmeansEmbedding.initialize kmeans k' after
                       = (after, KmeansEmbedding.AttributeError))
        /\ (forall batch, KmeansEmbedding.load_data batch after
                          = (KmeansEmbedding.set_data (Some batch) after, Ok tt))).
Proof.
  unfold KmeansEmbedding.initialize. split_and!.
  - destruct (KmeansEmbedding.data self) as [loaded|]; [|done].
    by destruct (kmeans k loaded).
  - by intros ->.
  - by intros loaded e -> ->.
  - intros loaded centres -> ->. simpl. split_and!; done.
Qed.

(** ** The toy automaton *)

Lemma np_index_in_bounds (n : nat) (s : Z) :
  in_bounds n s -> ToyGraph.np_index n s = Ok (wrap n s) /\ (wrap n s < n)%nat.
Proof.
  unfold in_bounds, ToyGraph.np_index, wrap. intros Hs.
  rewrite decide_True by done. split; [done|].
  assert (0 <= s `mod` Z.of_nat n < Z.of_nat n)%Z by (apply Z.mod_pos_bound; lia).
  lia.
Qed.

Lemma np_index_out_of_bounds (n : nat) (s : Z) :
  ~ in_bounds n s -> ToyGraph.np_index n s = Raise IndexError.
Proof.
  unfold in_bounds, ToyGraph.np_index. intros Hs. by rewrite decide_False.
Qed.

Lemma wrap_nonneg (n : nat) (i : nat) : (i < n)%nat -> wrap n (Z.of_nat i) = i.
Proof. unfold wrap. intros Hi. rewrite Z.mod_small by lia. lia. Qed.

Lemma ncols_square (n : nat) (m : Matrix) : shape2 n n m -> ToyGraph.ncols m = n.
Proof.
  intros [Hn Hd]. unfold ToyGraph.ncols, row. destruct m as [|r m]; [done|].
  simpl. by apply Forall_cons in Hd as [? _].
Qed.

Lemma getitem2_in_bounds (self : ToyGraph.t) (n : nat) (a b : Z) :
  shape2 n n (ToyGraph.transition_matrix self) ->
  in_bounds n a -> in_bounds n b ->
  ToyGraph.getitem2 (ToyGraph.transition_matrix self) a b = Ok (probability self a b).
Proof.
  intros Hm Ha Hb. unfold ToyGraph.getitem2, probability.
  rewrite (ncols_square n) by done. destruct Hm as [Hn _]. rewrite Hn.
  destruct (np_index_in_bounds n a Ha) as [-> _].
  destruct (np_index_in_bounds n b Hb) as [-> _]. done.
Qed.

Lemma getitem2_out_of_bounds (self : ToyGraph.t) (n : nat) (a b : Z) :
  shape2 n n (ToyGraph.transition_matrix self) ->
  ~ in_bounds n a \/ ~ in_bounds n b ->
  ToyGraph.getitem2 (ToyGraph.transition_matrix self) a b = Raise IndexError.
Proof.
  intros Hm Hab. unfold ToyGraph.getitem2.
  rewrite (ncols_square n) by done. destruct Hm as [Hn _]. rewrite Hn.
  destruct (decide (in_bounds n a)) as [Ha|Ha].
  - destruct (np_index_in_bounds n a Ha) as [-> _]. destruct Hab as [?|Hb]; [done|].
    by rewrite (np_index_out_of_bounds n b Hb).
  - by rewrite (np_index_out_of_bounds n a Ha).
Qed.

Lemma transitions_lookup (traj : list Z) (i : nat) (a b : Z) :
  transitions traj !! i = Some (a, b) <-> traj !! i = Some a /\ traj !! S i = Some b.
Proof. unfold transitions. by rewrite lookup_zip_Some, lookup_tail. Qed.

Lemma transitions_length (traj : list Z) :
  length (transitions traj) = (length traj - 1)%nat.
Proof.
  unfold transitions. destruct traj as [|a traj]; [done|].
  rewrite length_zip. cbn [tail length]. lia.
Qed.

(** The loop of [verify_trajectory] from position [k] on: it stops at the
    first transition of probability zero. *)
Lemma verify_loop_spec (self : ToyGraph.t) (n : nat) (traj : list Z) :
  shape2 n n (ToyGraph.transition_matrix self) ->
  Forall (in_bounds n) traj ->
  forall len k, (k + len <= length traj - 1)%nat ->
    (exists i a b,
        (k <= i < k + len)%nat /\ transitions traj !! i = Some (a, b)
        /\ probability self a b = 0%R
        /\ (forall j ab, (k <= j < i)%nat -> transitions traj !! j = Some ab ->
              probability self ab.1 ab.2 <> 0%R)
        /\ ToyGraph.verify_loop self traj (seq k len)
           = Ok ([ToyGraph.FailIndex i; ToyGraph.States a b], false))
    \/ ((forall j ab, (k <= j < k + len)%nat -> transitions traj !! j = Some ab ->
           probability self ab.1 ab.2 <> 0%R)
        /\ ToyGraph.verify_loop self traj (seq k len) = Ok ([], true)).
Proof.
  intros Hm Hb. induction len as [|len IH]; intros k Hk; simpl.
  - right. split; [intros; lia | done].
  - destruct (lookup_lt_is_Some_2 traj k) as [a Ha]; [lia|].
    destruct (lookup_lt_is_Some_2 traj (S k)) as [b Hb']; [lia|].
    rewrite Ha, Hb'.
    rewrite (getitem2_in_bounds self n a b Hm)
      by (eapply Forall_lookup_1 in Hb; eauto).
    run_monad. case_bool_decide as Hzero.
    + left. exists k, a, b.
      split; [lia|]. split; [by apply transitions_lookup|]. split; [done|].
      split; [intros; lia | done].
    + destruct (IH (S k)) as [(i & a' & b' & Hi & Hab & Hp & Hbefore & Hrun)|[Hall Hrun]];
        [lia | |].
      * left. exists i, a', b'. split; [lia|]. do 2 (split; [done|]). split; [|done].
        intros j ab Hj Hjab. destruct (decide (j = k)) as [->|Hne].
        -- destruct ab as [a'' b'']. apply transitions_lookup in Hjab as [? ?].
           simpl. congruence.
        -- apply (Hbefore j); [lia | done].
      * right. split; [|done]. intros j ab Hj Hjab.
        destruct (decide (j = k)) as [->|Hne].
        -- destruct ab as [a'' b'']. apply transitions_lookup in Hjab as [? ?].
           simpl. congruence.
        -- apply (Hall j); [lia | done].
Qed.

(** X18.  [verify_trajectory].  A trajectory of fewer than two states is valid
    whatever its state is, a state of the automaton or not.  When the states
    are indices NumPy accepts, the call returns, and returns [True] exactly
    when every transition of the trajectory has a non-zero probability;
    otherwise it prints the position and the states of the first transition
    of probability zero.  A first transition from or to a state out of range
    raises [IndexError]. *)
Theorem verify_trajectory_spec (self : ToyGraph.t) (n : nat) (traj : list Z) :
  ((length traj <= 1)%nat -> ToyGraph.verify_trajectory self traj = Ok ([], true))
  /\ (shape2 n n (ToyGraph.transition_matrix self) ->
      (Forall (in_bounds n) traj ->
       exists printed ok,
         ToyGraph.verify_trajectory self traj = Ok (printed, ok)
         /\ (ok = true
             <-> Forall (fun ab => probability self ab.1 ab.2 <> 0%R) (transitions traj))
         /\ (ok = true -> printed = [])
         /\ (ok = false ->
             exists i a b,
               printed = [ToyGraph.FailIndex i; ToyGraph.States a b]
               /\ transitions traj !! i = Some (a, b)
               /\ probability self a b = 0%R
               /\ forall j ab, (j < i)%nat -> transitions traj !! j = Some ab ->
                    probability self ab.1 ab.2 <> 0%R))
      /\ (forall a b rest, traj = a :: b :: rest ->
            ~ in_bounds n a \/ ~ in_bounds n b ->
            ToyGraph.verify_trajectory self traj = Raise IndexError)).
Proof.
  split; [|intros Hm; split].
  - intros Hlen. unfold ToyGraph.verify_trajectory.
    by replace (length traj - 1)%nat with 0%nat by lia.
  - intros Hb. unfold ToyGraph.verify_trajectory.
    destruct (verify_loop_spec self n traj Hm Hb (length traj - 1) 0)
      as [(i & a & b & Hi & Hab & Hp & Hbefore & ->)|[Hall ->]]; [lia | |].
    + eexists _, false. split; [done|]. split_and!; [|done|].
      * split; [done|]. intros Hgood. eapply Forall_lookup_1 in Hgood; eauto. done.
      * intros _. exists i, a, b. split_and!; [done | done | done |].
        intros j ab Hj. apply Hbefore. lia.
    + eexists _, true. split; [done|]. split_and!; [|done|done].
      split; [|done]. intros _. apply Forall_lookup. intros j ab Hj.
      apply (Hall j); [|done]. apply lookup_lt_Some in Hj.
      rewrite transitions_length in Hj. lia.
  - intros a b rest -> Hab. unfold ToyGraph.verify_trajectory. simpl.
    by rewrite (getitem2_out_of_bounds self n a b Hm Hab).
Qed.

Lemma verify_trajectory_spec_witness :
  let ring := {| ToyGraph.transition_matrix := [[0; 1]; [1; 0]]%R |} in
  exists printed ok,
    ToyGraph.verify_trajectory ring [0; 1; -2; 1]%Z = Ok (printed, ok)
    /\ (ok = true
        <-> Forall (fun ab => probability ring ab.1 ab.2 <> 0%R)
                   (transitions [0; 1; -2; 1]%Z)).
Proof.
  intros ring.
  destruct (verify_trajectory_spec ring 2 [0; 1; -2; 1]%Z) as [_ Hspec].
  destruct Hspec as [Hvalid _]; [split; [reflexivity | repeat constructor]|].
  destruct Hvalid as (printed & ok & Hrun & Hok & _).
  - repeat constructor; unfold in_bounds; simpl; lia.
  - exists printed, ok. split; [exact Hrun | exact Hok].
Defined.

Lemma where_nonzero_elem (v : Vector) (j : nat) :
  j ∈ ToyGraph.where_nonzero v <-> nth j v 0%R <> 0%R.
Proof.
  unfold ToyGraph.where_nonzero. rewrite list_elem_of_fmap. split.
  - intros ([j' x] & -> & Hin). apply list_elem_of_filter in Hin as [Hx Hin].
    apply elem_of_lookup_imap in Hin as (i & y & Heq & Hi). inversion Heq; subst.
    simpl in *. by rewrite (nth_lookup_default v i 0%R y Hi).
  - intros Hj. destruct (v !! j) as [x|] eqn:Hx.
    + rewrite (nth_lookup_default v j 0%R x Hx) in Hj.
      exists (j, x). split; [done|]. apply list_elem_of_filter. split; [done|].
      apply elem_of_lookup_imap. by exists j, x.
    + apply lookup_ge_None in Hx. rewrite nth_overflow in Hj by lia. done.
Qed.

Lemma where_sorted_gen (v : Vector) :
  forall f : nat -> R -> nat * R,
    (forall i j x y, (i < j)%nat -> ((f i x).1 < (f j y).1)%nat) ->
    StronglySorted lt (filter (fun jx : nat * R => jx.2 <> 0%R) (imap f v)).*1.
Proof.
  induction v as [|x v IH]; intros f Hf; [constructor|].
  rewrite imap_cons, filter_cons.
  assert (Hrest : StronglySorted lt
            (filter (fun jx : nat * R => jx.2 <> 0%R) (imap (f ∘ S) v)).*1).
  { apply IH. intros i j a b Hij. simpl. apply Hf. lia. }
  destruct (decide ((f 0%nat x).2 <> 0%R)); [|done].
  csimpl. constructor; [done|]. apply Forall_forall. intros j Hj.
  apply list_elem_of_fmap in Hj as ([j' y] & -> & Hin).
  apply list_elem_of_filter in Hin as [_ Hin].
  apply elem_of_lookup_imap in Hin as (i & z & Heq & _).
  simpl. change j' with ((j', y).1). rewrite Heq. simpl. apply Hf. lia.
Qed.

Lemma where_nonzero_sorted (v : Vector) : StronglySorted lt (ToyGraph.where_nonzero v).
Proof. apply where_sorted_gen. intros i j x y Hij. done. Qed.

Lemma where_nonzero_lt (v : Vector) (j : nat) :
  j ∈ ToyGraph.where_nonzero v -> (j < length v)%nat.
Proof.
  intros Hj%where_nonzero_elem. destruct (decide (j < length v)%nat); [done|].
  rewrite nth_overflow in Hj by lia. done.
Qed.

Lemma column_nth (m : Matrix) (j i : nat) :
  nth i (map (fun r : Vector => nth j r 0%R) m) 0%R = nth j (row m i) 0%R.
Proof.
  unfold row. destruct (m !! i) as [r|] eqn:Hr.
  - simpl. apply nth_lookup_default. by rewrite list_lookup_fmap, Hr.
  - simpl. apply lookup_ge_None in Hr. rewrite nth_overflow by (rewrite length_fmap; lia).
    by destruct j.
Qed.

(** X19.  [nbrs] and [nbrs_to].  For states NumPy accepts as indices, both return
    the states, in ascending order, with a non-zero probability of the
    transition from (to) the given state; so [b] is among the neighbours of
    [a] exactly when [a] is among the states that lead to [b].  A state out
    of range raises [IndexError] in both. *)
Theorem nbrs_duality (self : ToyGraph.t) (n : nat) (a b : Z) :
  shape2 n n (ToyGraph.transition_matrix self) ->
  (in_bounds n a -> in_bounds n b ->
   exists from_a to_b,
     ToyGraph.nbrs self a = Ok from_a
     /\ ToyGraph.nbrs_to self b = Ok to_b
     /\ StronglySorted lt from_a /\ StronglySorted lt to_b
     /\ (forall j, j ∈ from_a <->
                   (j < n)%nat /\ probability self a (Z.of_nat j) <> 0%R)
     /\ (forall i, i ∈ to_b <->
                   (i < n)%nat /\ probability self (Z.of_nat i) b <> 0%R)
     /\ (wrap n b ∈ from_a <-> wrap n a ∈ to_b))
  /\ (~ in_bounds n a -> ToyGraph.nbrs self a = Raise IndexError)
  /\ (~ in_bounds n b -> ToyGraph.nbrs_to self b = Raise IndexError).
Proof.
  intros Hm. pose proof (ncols_square n _ Hm) as Hcols.
  pose proof Hm as [Hlen Hrows].
  assert (Hrow : forall i, (i < n)%nat ->
            length (row (ToyGraph.transition_matrix self) i) = n).
  { intros i Hi. destruct (shape2_row_nth n n _ i Hm Hi) as (r & Hr & Hlr).
    unfold row. by rewrite Hr. }
  split; [|split].
  - intros Ha Hb. unfold ToyGraph.nbrs, ToyGraph.nbrs_to. rewrite Hcols, Hlen.
    destruct (np_index_in_bounds n a Ha) as [-> Hwa].
    destruct (np_index_in_bounds n b Hb) as [-> Hwb].
    eexists _, _. split; [done|]. split; [done|].
    split; [apply where_nonzero_sorted|]. split; [apply where_nonzero_sorted|].
    assert (Hfrom : forall j,
      j ∈ ToyGraph.where_nonzero (row (ToyGraph.transition_matrix self) (wrap n a))
      <-> (j < n)%nat /\ probability self a (Z.of_nat j) <> 0%R).
    { intros j. split.
      - intros Hj. pose proof (where_nonzero_lt _ _ Hj) as Hlt.
        rewrite Hrow in Hlt by done. split; [done|].
        apply where_nonzero_elem in Hj. unfold probability.
        by rewrite Hcols, Hlen, wrap_nonneg.
      - intros [Hlt Hp]. apply where_nonzero_elem. unfold probability in Hp.
        by rewrite Hcols, Hlen, wrap_nonneg in Hp. }
    assert (Hto : forall i,
      i ∈ ToyGraph.where_nonzero
            (map (fun r : Vector => nth (wrap n b) r 0%R) (ToyGraph.transition_matrix self))
      <-> (i < n)%nat /\ probability self (Z.of_nat i) b <> 0%R).
    { intros i. split.
      - intros Hi. pose proof (where_nonzero_lt _ _ Hi) as Hlt.
        rewrite length_fmap, Hlen in Hlt. split; [done|].
        apply where_nonzero_elem in Hi. rewrite column_nth in Hi. unfold probability.
        by rewrite Hcols, Hlen, wrap_nonneg.
      - intros [Hlt Hp]. apply where_nonzero_elem. rewrite column_nth.
        unfold probability in Hp. by rewrite Hcols, Hlen, wrap_nonneg in Hp. }
    split; [exact Hfrom|]. split; [exact Hto|].
    rewrite where_nonzero_elem, where_nonzero_elem, column_nth. done.
  - intros Ha. unfold ToyGraph.nbrs. rewrite Hlen.
    by rewrite (np_index_out_of_bounds n a Ha).
  - intros Hb. unfold ToyGraph.nbrs_to. rewrite Hcols.
    by rewrite (np_index_out_of_bounds n b Hb).
Qed.

Lemma nbrs_duality_witness :
  let ring := {| ToyGraph.transition_matrix := [[0; 1]; [1; 0]]%R |} in
  exists from_a to_b,
    ToyGraph.nbrs ring (-2) = Ok from_a
    /\ ToyGraph.nbrs_to ring 1 = Ok to_b
    /\ (wrap 2 1 ∈ from_a <-> wrap 2 (-2) ∈ to_b).
Proof.
  intros ring.
  destruct (nbrs_duality ring 2 (-2) 1) as [Hboth _];
    [split; [reflexivity | repeat constructor]|].
  destruct Hboth as (from_a & to_b & Hfrom & Hto & _ & _ & _ & _ & Hdual);
    [unfold in_bounds; simpl; lia | unfold in_bounds; simpl; lia|].
  exists from_a, to_b. split; [exact Hfrom|]. split; [exact Hto | exact Hdual].
Defined.

Lemma count_loop_from (self : ToyGraph.t) (n : nat) (traj : list Z) :
  shape2 n n (ToyGraph.transition_matrix self) ->
  Forall (in_bounds n) traj ->
  forall len k c f, (1 <= k)%nat -> (k + len <= length traj - 1)%nat ->
    ToyGraph.count_loop self traj (seq k len) (c, f)
    = Ok ((c + Z.of_nat (length (filter (valid self)
                                   (take len (drop k (transitions traj))))))%Z, f).
Proof.
  intros Hm Hb. induction len as [|len IH]; intros k c f Hk Hlen.
  - simpl. by rewrite Z.add_0_r.
  - cbn [seq ToyGraph.count_loop].
    destruct (lookup_lt_is_Some_2 traj k) as [a Ha]; [lia|].
    destruct (lookup_lt_is_Some_2 traj (S k)) as [b Hb']; [lia|].
    rewrite Ha, Hb'.
    rewrite (getitem2_in_bounds self n a b Hm)
      by (eapply Forall_lookup_1 in Hb; eauto).
    assert (Hab : transitions traj !! k = Some (a, b)) by by apply transitions_lookup.
    rewrite (drop_S _ _ _ Hab). cbn [take]. rewrite filter_cons.
    run_monad. rewrite decide_False by lia.
    destruct (decide (valid self (a, b))) as [Hv|Hv].
    + rewrite bool_decide_true by exact Hv. rewrite IH by lia. cbn [length fst snd].
      f_equal. f_equal. lia.
    + rewrite bool_decide_false by exact Hv. by rewrite IH by lia.
Qed.

Lemma count_loop_run (self : ToyGraph.t) (n : nat) (traj : list Z) (c f : Z) :
  shape2 n n (ToyGraph.transition_matrix self) ->
  Forall (in_bounds n) traj ->
  ToyGraph.count_loop self traj (seq 0 (length traj - 1)) (c, f)
  = Ok ((c + correct self traj)%Z, (f + first_correct self traj)%Z).
Proof.
  intros Hm Hb. unfold correct, first_correct.
  pose proof (transitions_length traj) as Hlen.
  destruct (length traj - 1)%nat as [|len] eqn:Hl.
  - destruct (transitions traj); [|done]. simpl. by rewrite !Z.add_0_r.
  - cbn [seq ToyGraph.count_loop].
    destruct (lookup_lt_is_Some_2 traj 0) as [a Ha]; [lia|].
    destruct (lookup_lt_is_Some_2 traj 1) as [b Hb']; [lia|].
    rewrite Ha, Hb'.
    rewrite (getitem2_in_bounds self n a b Hm)
      by (eapply Forall_lookup_1 in Hb; eauto).
    assert (Hab : transitions traj !! 0%nat = Some (a, b)) by by apply transitions_lookup.
    pose proof (count_loop_from self n traj Hm Hb len 1) as Hfrom.
    destruct (transitions traj) as [|ab rest] eqn:Htr; [done|].
    simpl in Hab. injection Hab as ->. simpl in Hlen. injection Hlen as Hlen.
    change (drop 1 ((a, b) :: rest)) with rest in Hfrom.
    rewrite take_ge in Hfrom by lia.
    rewrite filter_cons. run_monad.
    destruct (decide (valid self (a, b))) as [Hv|Hv].
    + rewrite bool_decide_true by exact Hv. rewrite Hfrom by lia. cbn [length].
      f_equal. f_equal. lia.
    + rewrite bool_decide_false by exact Hv. rewrite Hfrom by lia.
      by rewrite Z.add_0_r.
Qed.

Lemma accuracy_loop_run (self : ToyGraph.t) (n : nat) :
  shape2 n n (ToyGraph.transition_matrix self) ->
  forall trajs c f total bound,
    Forall (Forall (in_bounds n)) trajs ->
    ToyGraph.accuracy_loop self trajs (c, f) total bound
    = Ok ((c + sum_over (correct self) trajs)%Z,
          (f + sum_over (first_correct self) trajs)%Z,
          (total + sum_over (fun t => Z.of_nat (length t) - 1) trajs)%Z,
          from_option Some bound (last trajs)).
Proof.
  intros Hm. induction trajs as [|traj trajs IH]; intros c f total bound Hb.
  - simpl. by rewrite !Z.add_0_r.
  - apply Forall_cons in Hb as [Hb Hbs]. cbn [ToyGraph.accuracy_loop].
    rewrite (count_loop_run self n traj c f Hm Hb). run_monad.
    rewrite IH by done. f_equal. f_equal; [f_equal; [f_equal; lia | lia]|].
    rewrite last_cons. by destruct (last trajs).
Qed.

Lemma transition_accuracy_run (self : ToyGraph.t) (n : nat) (trajs : list (list Z))
    (traj : list Z) :
  shape2 n n (ToyGraph.transition_matrix self) ->
  Forall (Forall (in_bounds n)) trajs ->
  last trajs = Some traj ->
  ToyGraph.transition_accuracy self trajs
  = if decide (1 < length traj)%nat then
      if decide (sum_over (fun t => Z.of_nat (length t) - 1)%Z trajs = 0%Z)
      then inl ToyGraph.ZeroDivisionError
      else inr ((IZR (sum_over (correct self) trajs)
                 / IZR (sum_over (fun t => Z.of_nat (length t) - 1)%Z trajs))%R,
                (IZR (sum_over (first_correct self) trajs)
                 / IZR (Z.of_nat (length trajs)))%R)
    else inr (0%R, 0%R).
Proof.
  intros Hm Hb Hlast. unfold ToyGraph.transition_accuracy.
  rewrite (accuracy_loop_run self n Hm trajs 0 0 0 None Hb), Hlast. simpl.
  by rewrite !Z.add_0_l.
Qed.

(** X20.  [transition_accuracy].  Over no trajectory the call fails: [traj] is
    unbound after the loop.  Otherwise the trajectory that is last in the
    list decides: when it has fewer than two states the result is [(0, 0)]
    whatever the other trajectories are; when it has two or more, the result
    is the number of valid transitions over the sum of [len(traj) - 1], and
    the number of trajectories with a valid first transition over the number
    of trajectories.  That sum counts -1 for an empty trajectory, and the
    call divides by zero when it is zero. *)
Theorem transition_accuracy_spec (self : ToyGraph.t) (n : nat) (trajs : list (list Z))
    (traj : list Z) :
  ToyGraph.transition_accuracy self [] = inl ToyGraph.UnboundLocalError
  /\ (shape2 n n (ToyGraph.transition_matrix self) ->
      Forall (Forall (in_bounds n)) trajs ->
      last trajs = Some traj ->
      let total := sum_over (fun t => Z.of_nat (length t) - 1)%Z trajs in
      ((length traj <= 1)%nat ->
       ToyGraph.transition_accuracy self trajs = inr (0%R, 0%R))
      /\ ((1 < length traj)%nat -> total = 0%Z ->
          ToyGraph.transition_accuracy self trajs = inl ToyGraph.ZeroDivisionError)
      /\ ((1 < length traj)%nat -> total <> 0%Z ->
          ToyGraph.transition_accuracy self trajs
          = inr ((IZR (sum_over (correct self) trajs) / IZR total)%R,
                 (IZR (sum_over (first_correct self) trajs)
                  / IZR (Z.of_nat (length trajs)))%R))).
Proof.
  split; [done|]. intros Hm Hb Hlast total.
  rewrite (transition_accuracy_run self n trajs traj Hm Hb Hlast). fold total.
  split; [|split].
  - intros Hlen. by rewrite decide_False by lia.
  - intros Hlen Htotal. by rewrite decide_True, decide_True by done.
  - intros Hlen Htotal. by rewrite decide_True, decide_False by done.
Qed.

Lemma transition_accuracy_spec_witness :
  let ring := {| ToyGraph.transition_matrix := [[0; 1]; [1; 0]]%R |} in
  ToyGraph.transition_accuracy ring [[0; 1; 0]; [1; 1]]%Z
  = inr ((IZR (sum_over (correct ring) [[0; 1; 0]; [1; 1]]%Z) / 3)%R,
         (IZR (sum_over (first_correct ring) [[0; 1; 0]; [1; 1]]%Z) / 2)%R)
  /\ ToyGraph.transition_accuracy ring [[]; [0; 1]]%Z = inl ToyGraph.ZeroDivisionError
  /\ ToyGraph.transition_accuracy ring [[0; 1; 0]; [1]]%Z = inr (0, 0)%R.
Proof.
  intros ring.
  assert (Hm : shape2 2 2 (ToyGraph.transition_matrix ring))
    by (split; [reflexivity | repeat constructor]).
  split; [|split].
  - destruct (transition_accuracy_spec ring 2 [[0; 1; 0]; [1; 1]]%Z [1; 1]%Z)
      as [_ Hspec].
    destruct Hspec as (_ & _ & Hrun); [exact Hm | | reflexivity |].
    { repeat constructor; unfold in_bounds; simpl; lia. }
    apply Hrun; simpl; lia.
  - destruct (transition_accuracy_spec ring 2 [[]; [0; 1]]%Z [0; 1]%Z) as [_ Hspec].
    destruct Hspec as (_ & Hrun & _); [exact Hm | | reflexivity |].
    { repeat constructor; unfold in_bounds; simpl; lia. }
    apply Hrun; [simpl; lia | reflexivity].
  - destruct (transition_accuracy_spec ring 2 [[0; 1; 0]; [1]]%Z [1]%Z) as [_ Hspec].
    destruct Hspec as (Hrun & _ & _); [exact Hm | | reflexivity |].
    { repeat constructor; unfold in_bounds; simpl; lia. }
    apply Hrun. simpl. lia.
Defined.

Lemma verify_loop_true (self : ToyGraph.t) (n : nat) (traj : list Z) :
  shape2 n n (ToyGraph.transition_matrix self) ->
  forall len k printed, (k + len <= length traj - 1)%nat ->
    ToyGraph.verify_loop self traj (seq k len) = Ok (printed, true) ->
    forall i a b, (k <= i < k + len)%nat -> transitions traj !! i = Some (a, b) ->
      in_bounds n a /\ in_bounds n b /\ valid self (a, b).
Proof.
  intros Hm. induction len as [|len IH]; intros k printed Hlen Hrun i a b Hi Hab;
    [lia|].
  cbn [seq ToyGraph.verify_loop] in Hrun.
  destruct (lookup_lt_is_Some_2 traj k) as [a' Ha]; [lia|].
  destruct (lookup_lt_is_Some_2 traj (S k)) as [b' Hb]; [lia|].
  rewrite Ha, Hb in Hrun.
  assert (Hdec : (in_bounds n a' /\ in_bounds n b')
                 \/ (~ in_bounds n a' \/ ~ in_bounds n b'))
    by (unfold in_bounds; lia).
  destruct Hdec as [[Hina Hinb]|Hout].
  - rewrite (getitem2_in_bounds self n a' b' Hm Hina Hinb) in Hrun. run_monad.
    case_bool_decide as Hp; [done|].
    destruct (decide (i = k)) as [->|Hne].
    + apply transitions_lookup in Hab as [Ha' Hb'].
      assert (a = a') by congruence. assert (b = b') by congruence. by subst.
    + apply (IH (S k) printed ltac:(lia) Hrun i a b); [lia | done].
  - by rewrite (getitem2_out_of_bounds self n a' b' Hm Hout) in Hrun.
Qed.

Lemma verified_trajectory (self : ToyGraph.t) (n : nat) (traj : list Z) printed :
  shape2 n n (ToyGraph.transition_matrix self) ->
  (1 < length traj)%nat ->
  ToyGraph.verify_trajectory self traj = Ok (printed, true) ->
  Forall (in_bounds n) traj /\ Forall (valid self) (transitions traj).
Proof.
  intros Hm Hlen Hrun. unfold ToyGraph.verify_trajectory in Hrun.
  pose proof (verify_loop_true self n traj Hm (length traj - 1) 0 printed
                ltac:(lia) Hrun) as Hall.
  split.
  - apply Forall_lookup_2. intros i x Hx. pose proof (lookup_lt_Some traj i x Hx) as Hi.
    destruct (decide (i < length traj - 1)%nat) as [Hlt|Hge].
    + destruct (lookup_lt_is_Some_2 traj (S i)) as [y Hy]; [lia|].
      apply (Hall i x y); [lia|]. by apply transitions_lookup.
    + destruct i as [|i]; [lia|].
      destruct (lookup_lt_is_Some_2 traj i) as [y Hy]; [lia|].
      apply (Hall i y x); [lia|]. by apply transitions_lookup.
  - apply Forall_lookup_2. intros i [a b] Hab.
    pose proof (lookup_lt_Some (transitions traj) i (a, b) Hab) as Hi.
    rewrite transitions_length in Hi.
    apply (Hall i a b); [lia | done].
Qed.

Lemma filter_all {A} (P : A -> Prop) `{forall x, Decision (P x)} (l : list A) :
  Forall P l -> filter P l = l.
Proof.
  induction 1 as [|x l Hx Hl IH]; [done|].
  rewrite filter_cons, decide_True by done. by rewrite IH.
Qed.

Lemma sum_over_ext {A} (f g : A -> Z) (l : list A) :
  Forall (fun x => f x = g x) l -> sum_over f l = sum_over g l.
Proof. induction 1 as [|x l Hx Hl IH]; [done|]. simpl. by rewrite Hx, IH. Qed.

Lemma sum_over_ones {A} (l : list A) :
  sum_over (fun _ => 1%Z) l = Z.of_nat (length l).
Proof. induction l as [|x l IH]; [done|]. simpl. rewrite IH. lia. Qed.

Lemma sum_over_pos {A} (f : A -> Z) (l : list A) :
  l <> [] -> Forall (fun x => (0 < f x)%Z) l -> (0 < sum_over f l)%Z.
Proof.
  intros Hne Hall. induction Hall as [|x l Hx Hl IH]; [done|].
  simpl. destruct l as [|y l]; [simpl; lia|].
  assert (0 < sum_over f (y :: l))%Z by (by apply IH). lia.
Qed.

(** X21.  [transition_accuracy] of trajectories [verify_trajectory] accepts.  When
    every trajectory of a list that is not empty has two states or more and
    is verified, both accuracies are 1. *)
Theorem verified_accuracy_one (self : ToyGraph.t) (n : nat) (trajs : list (list Z)) :
  shape2 n n (ToyGraph.transition_matrix self) ->
  trajs <> [] ->
  Forall (fun traj => (1 < length traj)%nat
                      /\ ToyGraph.verify_trajectory self traj = Ok ([], true)) trajs ->
  ToyGraph.transition_accuracy self trajs = inr (1%R, 1%R).
Proof.
  intros Hm Hne Hall.
  assert (Hb : Forall (Forall (in_bounds n)) trajs).
  { eapply Forall_impl; [exact Hall|]. intros traj [Hlen Hrun].
    by destruct (verified_trajectory self n traj [] Hm Hlen Hrun). }
  assert (Hcorrect : Forall (fun traj => correct self traj
                                         = (Z.of_nat (length traj) - 1)%Z) trajs).
  { eapply Forall_impl; [exact Hall|]. intros traj [Hlen Hrun].
    destruct (verified_trajectory self n traj [] Hm Hlen Hrun) as [_ Hvalid].
    unfold correct. rewrite filter_all by done. rewrite transitions_length. lia. }
  assert (Hfirst : Forall (fun traj => first_correct self traj = 1%Z) trajs).
  { eapply Forall_impl; [exact Hall|]. intros traj [Hlen Hrun].
    destruct (verified_trajectory self n traj [] Hm Hlen Hrun) as [_ Hvalid].
    unfold first_correct. pose proof (transitions_length traj) as Htr.
    destruct (transitions traj) as [|ab rest]; [simpl in Htr; lia|].
    apply Forall_cons in Hvalid as [Hv _]. by rewrite decide_True. }
  assert (Htotal : (0 < sum_over (fun t => Z.of_nat (length t) - 1) trajs)%Z).
  { apply sum_over_pos; [done|]. eapply Forall_impl; [exact Hall|].
    intros traj [Hlen _]. simpl. lia. }
  destruct (last trajs) as [traj|] eqn:Hlast; [|by apply last_None in Hlast].
  assert (Hlen : (1 < length traj)%nat).
  { apply last_Some in Hlast as [init ->]. apply Forall_app in Hall as [_ Hall].
    by apply Forall_singleton in Hall as [? _]. }
  rewrite (transition_accuracy_run self n trajs traj Hm Hb Hlast).
  rewrite decide_True by done. rewrite decide_False by lia.
  rewrite (sum_over_ext _ _ _ Hcorrect), (sum_over_ext _ _ _ Hfirst), sum_over_ones.
  assert (Hn : (0 < Z.of_nat (length trajs))%Z) by (destruct trajs; [done | simpl; lia]).
  f_equal. f_equal; unfold Rdiv; apply Rinv_r; apply not_0_IZR; lia.
Qed.

Lemma verified_accuracy_one_witness :
  let ring := {| ToyGraph.transition_matrix := [[0; 1]; [1; 0]]%R |} in
  ToyGraph.transition_accuracy ring [[0; 1; 0]; [-1; 0]]%Z = inr (1%R, 1%R).
Proof.
  intros ring. apply (verified_accuracy_one ring 2).
  - split; [reflexivity | repeat constructor].
  - discriminate.
  - assert (Hm : shape2 2 2 (ToyGraph.transition_matrix ring))
      by (split; [reflexivity | repeat constructor]).
    assert (H01 : probability ring 0 1 = 1%R) by reflexivity.
    assert (H10 : probability ring 1 0 = 1%R) by reflexivity.
    assert (Hm10 : probability ring (-1) 0 = 1%R) by reflexivity.
    repeat constructor; simpl; try lia.
    + unfold ToyGraph.verify_trajectory.
      cbn [length Nat.sub seq ToyGraph.verify_loop lookup list_lookup].
      rewrite (getitem2_in_bounds ring 2 0 1 Hm) by (unfold in_bounds; simpl; lia).
      rewrite (getitem2_in_bounds ring 2 1 0 Hm) by (unfold in_bounds; simpl; lia).
      rewrite H01, H10. run_monad. rewrite !bool_decide_false by lra. reflexivity.
    + unfold ToyGraph.verify_trajectory.
      cbn [length Nat.sub seq ToyGraph.verify_loop lookup list_lookup].
      rewrite (getitem2_in_bounds ring 2 (-1) 0 Hm) by (unfold in_bounds; simpl; lia).
      rewrite Hm10. run_monad. rewrite !bool_decide_false by lra. reflexivity.
Defined.
